(** * Room coordination server: a shallow embedding of [server.js]

    The repository holds two revisions of one socket.io server: [server.js],
    which has the playlist handlers, and a later revision without them that
    adds a periodic cleanup of stale requests and empty rooms.  Both keep
    every piece of state in process-wide [Map]s and run one callback at a
    time, so the embedding is a state record plus one pure function per
    callback.

    What is embedded
    - the registries [rooms], [users], [messages], [activeCalls],
      [screenShareRequests], [userPlaylists], [connectionMonitor] and the
      closure variables [currentUser] / [currentRoomCode] of each connection;
    - every handler that reads or writes them, the heartbeat timer, the
      health-check sweep, the empty-room timeout and the periodic cleanup;
    - [Date.now()] and [Math.random()] as inputs supplied by the environment.

    The video handlers [upload-video], [video-control], [youtube-control]
    and [delete-video] only write [room.video] and [room.playbackState],
    which no other handler reads; they are embedded apart, on these two
    fields.

    What is left out: [pendingOffers] (only ever deleted from),
    [share-youtube-link] (its result hangs on a regular expression), the two
    pure relays [webrtc-answer] / [webrtc-ice-candidate] (no state access),
    rendered clock strings ([time], [editTime]; the instant is kept
    instead), the HTTP routes and process signal handling.

    JavaScript strings are modelled as byte strings; a [Map] is modelled as an
    insertion-ordered association list because several handlers depend on
    iteration order ([forEach] keeping the last match); the [reactions]
    object of a message is a finite map from names to symbols holding its
    own properties, with the one name a plain object does not record,
    [__proto__], treated as the source treats it.  Upper-casing and
    character codes are those of the source on texts of ASCII characters
    ([ascii_only]). *)

From Stdlib Require Import ZArith Ascii String SpecFloat.
From stdpp Require Import base strings list gmap pretty.

Open Scope Z_scope.

(** ** JavaScript primitives used by the handlers *)

(** Truthiness of a string: only the empty string is falsy. *)
Definition js_truthy (s : string) : bool := negb (String.eqb s "").

(** [x || null] for an optional string. *)
Definition js_or_null (x : option string) : option string :=
  match x with
  | Some s => if js_truthy s then Some s else None
  | None => None
  end.

(** A text of ASCII characters only.  On such a text a character, a UTF-16
    code unit and a byte are the same thing, and [toUpperCase], [charCodeSum]
    and the first character taken by [substr 0 1] below are those of the
    source; what is stated about them for a text a client sends assumes
    [ascii_only]. *)
Fixpoint ascii_only (s : string) : bool :=
  match s with
  | EmptyString => true
  | String c s' => (nat_of_ascii c <? 128)%nat && ascii_only s'
  end.

(** [s.toUpperCase()] on a text of ASCII characters: the letters a to z are
    mapped and every other character is kept.  (On other texts
    [String.prototype.toUpperCase] also maps letters outside ASCII.) *)
Definition upper_ascii (c : ascii) : ascii :=
  let n := nat_of_ascii c in
  if ((97 <=? n)%nat && (n <=? 122)%nat)%bool then ascii_of_nat (n - 32) else c.

Fixpoint toUpperCase (s : string) : string :=
  match s with
  | EmptyString => EmptyString
  | String c s' => String (upper_ascii c) (toUpperCase s')
  end.

(** [s.substr(start, len)] *)
Definition substr (start len : nat) (s : string) : string := substring start len s.

(** [arr.slice(-n)] *)
Definition slice_last {A} (n : nat) (l : list A) : list A := drop (length l - n) l.

(** [arr.findIndex(p)]; [None] stands for [-1]. *)
Fixpoint findIndex {A} (p : A -> bool) (l : list A) : option nat :=
  match l with
  | [] => None
  | x :: l' => if p x then Some 0%nat else S <$> findIndex p l'
  end.

(** Numbers are binary64 floats.  An integer as a Number: *)
Definition Number_of_Z (z : Z) : spec_float := binary_normalize 53 1024 z 0 false.

(** [Math.round(x)]: the integer nearest to [x], the upper one on a tie;
    [None] for [NaN] and the infinities.  A finite float is [m * 2 ^ e]. *)
Definition Math_round (x : spec_float) : option Z :=
  match x with
  | S754_zero _ => Some 0
  | S754_infinity _ | S754_nan => None
  | S754_finite s m e =>
      let v := if s then Z.neg m else Z.pos m in
      if 0 <=? e then Some (v * 2 ^ e)
      else Some ((2 * v + 2 ^ (- e)) / 2 ^ (1 - e))
  end.

(** [Math.round((usersWithMusic / totalUsers) * 100)]; [None] is a
    non-finite result (division by zero). *)
Definition progressPercent (usersWithMusic totalUsers : nat) : option Z :=
  Math_round
    (SFmul 53 1024
       (SFdiv 53 1024 (Number_of_Z (Z.of_nat usersWithMusic))
          (Number_of_Z (Z.of_nat totalUsers)))
       (Number_of_Z 100)).

(** ** Insertion-ordered [Map] *)

Abbreviation JsMap K V := (list (K * V)).

Section JsMap.
Context {K V : Type} `{EqDecision K}.

Fixpoint jm_get (k : K) (m : JsMap K V) : option V :=
  match m with
  | [] => None
  | (k', v) :: m' => if decide (k = k') then Some v else jm_get k m'
  end.

Definition jm_has (k : K) (m : JsMap K V) : bool :=
  match jm_get k m with Some _ => true | None => false end.

(** [m.set(k, v)]: an existing key keeps its position. *)
Fixpoint jm_set (k : K) (v : V) (m : JsMap K V) : JsMap K V :=
  match m with
  | [] => [(k, v)]
  | (k', v') :: m' =>
      if decide (k = k') then (k, v) :: m' else (k', v') :: jm_set k v m'
  end.

Fixpoint jm_delete (k : K) (m : JsMap K V) : JsMap K V :=
  match m with
  | [] => []
  | (k', v') :: m' =>
      if decide (k = k') then jm_delete k m' else (k', v') :: jm_delete k m'
  end.

Definition jm_size (m : JsMap K V) : nat := length m.

Definition jm_keys (m : JsMap K V) : list K := m.*1.

(** [let r = null; m.forEach((v, k) => { if (p(k, v)) r = k })]: the last
    matching key wins. *)
Definition jm_last_match (p : K -> V -> bool) (m : JsMap K V) : option K :=
  fold_left (fun acc kv => if p kv.1 kv.2 then Some kv.1 else acc) m None.

End JsMap.

(** ** Data model *)

Definition SocketId := string.

(** The two revisions of the server: [server.js] and the later one with the
    periodic cleanup. *)
Inductive Revision := ServerJs | WithCleanup.

(** [generateUserColor].  [charCodeSum] adds the codes of the characters of
    the text as it is stored; for a name of ASCII characters this is the sum
    of [charCodeAt(0)] over [username.split('')]. *)
Definition colors : list string :=
  ["#FF6B6B"; "#4ECDC4"; "#45B7D1"; "#96CEB4"; "#FFEAA7"]%string.

Fixpoint charCodeSum (s : string) : nat :=
  match s with
  | EmptyString => 0%nat
  | String c s' => (nat_of_ascii c + charCodeSum s')%nat
  end.

Definition generateUserColor (username : string) : string :=
  let index := if js_truthy username then charCodeSum username else 0%nat in
  default ""%string (colors !! (index mod length colors)%nat).

(** [userPhoto || `data:image/svg+xml;...`]: either the photo the client
    sent, or the generated avatar, kept as its two holes (fill colour and
    initial) instead of the rendered markup.  The initial is
    [userName.charAt(0)] for a name of ASCII characters. *)
Inductive Photo :=
| PhotoGiven (url : string)
| PhotoGenerated (fill : string) (initial : string).

Definition photoOrDefault (userPhoto : option string) (userName : string) : Photo :=
  match js_or_null userPhoto with
  | Some p => PhotoGiven p
  | None => PhotoGenerated (generateUserColor userName) (substr 0 1 userName)
  end.

Record User := mkUser {
  u_id : SocketId;
  u_userName : string;
  u_userPhoto : Photo;
  u_userColor : string;
  u_isOwner : bool;
  u_country : string }.

(** An entry of [users]: [{ roomCode, ...currentUser }]. *)
Record UserEntry := mkUserEntry {
  ue_roomCode : string;
  ue_user : User }.

(** [room.screenSharing] *)
Record ScreenShareGrant := mkGrant {
  g_userName : string;
  g_socketId : SocketId;
  g_startedAt : Z }.

Record Room := mkRoom {
  r_code : string;
  r_name : string;
  r_password : option string;
  r_owner : SocketId;
  r_users : JsMap SocketId User;
  r_screenSharing : option ScreenShareGrant;
  r_createdAt : Z }.

Record Message := mkMessage {
  m_id : string;
  m_userName : string;
  m_userPhoto : Photo;
  m_userColor : string;
  m_text : option string;
  m_type : string;
  m_fileUrl : option string;
  m_fileName : option string;
  m_fileSize : option Z;
  m_country : string;
  m_timestamp : Z;
  m_edited : bool;
  m_editTime : option Z;
  m_deleted : bool;
  m_deletedTime : option Z;
  m_reactions : gmap string string;
  m_seenBy : list string }.

Record CallData := mkCallData {
  c_callerSocketId : SocketId;
  c_callerName : string;
  c_targetSocketId : SocketId;
  c_targetUserName : string;
  c_type : string;
  c_roomCode : option string;
  c_startTime : Z;
  c_status : string }.

Record ScreenShareRequest := mkRequest {
  q_requesterName : string;
  q_requesterSocketId : SocketId;
  q_roomCode : string;
  q_timestamp : Z }.

Record Track := mkTrack {
  t_id : string;
  t_url : string;
  t_fileName : string;
  t_fileSize : Z;
  t_uploader : string;
  t_uploadTime : Z }.

(** An entry of [connectionMonitor].  The two time stamps are optional
    because [{ ...connectionMonitor.get(id), userName, roomCode }] builds a
    record without them when the entry is missing. *)
Record ConnectionHealth := mkHealth {
  h_userName : string;
  h_roomCode : option string;
  h_lastPing : option Z;
  h_connectedAt : option Z }.

(** The closure variables of one [io.on('connection')] callback. *)
Record Socket := mkSocket {
  currentUser : option User;
  currentRoomCode : option string }.

Record State := mkState {
  rooms : JsMap string Room;
  users : JsMap SocketId UserEntry;
  messages : JsMap string (list Message);
  activeCalls : JsMap SocketId CallData;
  screenShareRequests : JsMap SocketId ScreenShareRequest;
  userPlaylists : JsMap string (JsMap string (list Track));
  connectionMonitor : JsMap SocketId ConnectionHealth;
  (** [io.sockets.sockets], with each socket's closure variables *)
  sockets : JsMap SocketId Socket;
  (** pending [setTimeout] callbacks of [disconnect]: deadline and the
      [currentRoomCode] the closure captured *)
  timeouts : list (Z * string) }.

Definition init : State := mkState [] [] [] [] [] [] [] [] [].

(** What the environment supplies to one handler run: [Date.now()] and the
    successive values of [Math.random().toString(36)]. *)
Record Env := mkEnv {
  now : Z;
  rand : list string }.

(** Field updates *)
Definition set_rooms (x : JsMap string Room) (st : State) : State :=
  mkState x (users st) (messages st) (activeCalls st) (screenShareRequests st)
    (userPlaylists st) (connectionMonitor st) (sockets st) (timeouts st).
Definition set_users (x : JsMap SocketId UserEntry) (st : State) : State :=
  mkState (rooms st) x (messages st) (activeCalls st) (screenShareRequests st)
    (userPlaylists st) (connectionMonitor st) (sockets st) (timeouts st).
Definition set_messages (x : JsMap string (list Message)) (st : State) : State :=
  mkState (rooms st) (users st) x (activeCalls st) (screenShareRequests st)
    (userPlaylists st) (connectionMonitor st) (sockets st) (timeouts st).
Definition set_activeCalls (x : JsMap SocketId CallData) (st : State) : State :=
  mkState (rooms st) (users st) (messages st) x (screenShareRequests st)
    (userPlaylists st) (connectionMonitor st) (sockets st) (timeouts st).
Definition set_screenShareRequests (x : JsMap SocketId ScreenShareRequest)
  (st : State) : State :=
  mkState (rooms st) (users st) (messages st) (activeCalls st) x
    (userPlaylists st) (connectionMonitor st) (sockets st) (timeouts st).
Definition set_userPlaylists (x : JsMap string (JsMap string (list Track)))
  (st : State) : State :=
  mkState (rooms st) (users st) (messages st) (activeCalls st)
    (screenShareRequests st) x (connectionMonitor st) (sockets st) (timeouts st).
Definition set_connectionMonitor (x : JsMap SocketId ConnectionHealth)
  (st : State) : State :=
  mkState (rooms st) (users st) (messages st) (activeCalls st)
    (screenShareRequests st) (userPlaylists st) x (sockets st) (timeouts st).
Definition set_sockets (x : JsMap SocketId Socket) (st : State) : State :=
  mkState (rooms st) (users st) (messages st) (activeCalls st)
    (screenShareRequests st) (userPlaylists st) (connectionMonitor st) x
    (timeouts st).
Definition set_timeouts (x : list (Z * string)) (st : State) : State :=
  mkState (rooms st) (users st) (messages st) (activeCalls st)
    (screenShareRequests st) (userPlaylists st) (connectionMonitor st)
    (sockets st) x.

(** ** Outbound events *)

Inductive Target :=
| SocketEmit (sid : SocketId)                (* [socket.emit(...)] *)
| IoTo (room : string)                       (* [io.to(room).emit(...)] *)
| SocketTo (room : string) (sid : SocketId). (* [socket.to(room).emit(...)] *)

Inductive ErrorMessage :=
| RoomNotFound      (* 'Oda bulunamadi!' *)
| WrongPassword     (* 'Sifre yanlis!' *)
| CallTargetMissing (* 'Kullanici bulunamadi ...' *).

Inductive OutEvent :=
| ice_servers
| ping (timestamp : Z)
| error (message : ErrorMessage)
| call_error (message : ErrorMessage)
| room_created (roomCode roomName : string) (isOwner : bool) (userColor : string)
| room_joined (roomCode roomName : string) (isOwner : bool) (userColor : string)
    (previousMessages : list Message) (screenSharing : option ScreenShareGrant)
| user_joined (userName : string)
| user_left (userName : string)
| user_list_update (userList : list (User * bool))
| message (m : Message)
| message_edited (messageId newText : string) (editTime : Z)
| message_deleted (messageId deletedBy : string) (deletedTime : Z)
| message_reaction_updated (messageId : string) (reactions : gmap string string)
| message_seen_updated (messageId : string) (seenBy : list string)
| screen_share_request (requesterName : string) (requesterSocketId : SocketId)
| screen_share_approved
| screen_share_rejected
| screen_share_started (userName : string)
| screen_share_stopped (userName : option string) (reason : option string)
| playlist_updated (listing : JsMap string (list Track)) (uploadProgress : option Z)
| music_delete_request (requesterName : string)
| music_deleted (targetUserName : string)
| incoming_call (offer callerName type : string) (callerSocketId : SocketId)
| call_rejected (rejectedBy : option string)
| call_ended (endedBy : option string) (reason : option string).

Definition Emit : Type := Target * OutEvent.

(** ** Helpers shared by the handlers *)

(** The guard [if (!currentRoomCode || !currentUser) return;] *)
Definition inRoom (sk : Socket) : option (string * User) :=
  match currentRoomCode sk, currentUser sk with
  | Some rc, Some u => if js_truthy rc then Some (rc, u) else None
  | _, _ => None
  end.

Definition updateUserList (roomCode : option string) (st : State) : list Emit :=
  match roomCode with
  | Some rc =>
      match jm_get rc (rooms st) with
      | Some room =>
          [(IoTo rc,
            user_list_update
              (map (fun kv => (kv.2, jm_has (u_id kv.2) (activeCalls st)))
                 (r_users room)))]
      | None => []
      end
  | None => []
  end.

(** [connectionMonitor.set(id, { ...connectionMonitor.get(id), userName, roomCode })] *)
Definition noteRoom (sid : SocketId) (userName roomCode : string) (st : State) : State :=
  let old := jm_get sid (connectionMonitor st) in
  set_connectionMonitor
    (jm_set sid
       (mkHealth userName (Some roomCode) (old ≫= h_lastPing) (old ≫= h_connectedAt))
       (connectionMonitor st)) st.

(** [conn.lastPing = Date.now()] when the entry exists *)
Definition refreshPing (t : Z) (sid : SocketId) (st : State) : State :=
  match jm_get sid (connectionMonitor st) with
  | Some conn =>
      set_connectionMonitor
        (jm_set sid
           (mkHealth (h_userName conn) (h_roomCode conn) (Some t) (h_connectedAt conn))
           (connectionMonitor st)) st
  | None => st
  end.

Definition newUser (sid : SocketId) (userName : string) (userPhoto : option string)
  (isOwner : bool) : User :=
  mkUser sid userName (photoOrDefault userPhoto userName)
    (generateUserColor userName) isOwner "Türkiye".

(** ** Connection, heartbeat *)

(** [io.on('connection', ...)] up to the registration of the handlers *)
Definition on_connection (env : Env) (sid : SocketId) (st : State)
  : State * list Emit :=
  (set_sockets (jm_set sid (mkSocket None None) (sockets st))
     (set_connectionMonitor
        (jm_set sid (mkHealth "Anonymous" None (Some (now env)) (Some (now env)))
           (connectionMonitor st)) st),
   [(SocketEmit sid, ice_servers)]).

(** The callback of [pingInterval]; a socket is [connected] exactly while
    it is in [io.sockets.sockets]. *)
Definition pingInterval (env : Env) (sid : SocketId) (st : State)
  : State * list Emit :=
  if jm_has sid (sockets st)
  then (refreshPing (now env) sid st, [(SocketEmit sid, ping (now env))])
  else (st, []).

(** [socket.on('pong', ...)] *)
Definition on_pong (env : Env) (sid : SocketId) (st : State) : State * list Emit :=
  (refreshPing (now env) sid st, []).

(** ** Rooms *)

(** [generateRoomCode], applied to the text of [Math.random().toString(36)] *)
Definition generateRoomCode (random36 : string) : string :=
  toUpperCase (substr 2 6 random36).

(** [do { roomCode = generateRoomCode(); } while (rooms.has(roomCode));]
    over the supplied draws; [None] when every draw collides, that is, the
    loop has not left yet. *)
Fixpoint pickRoomCode (draws : list string) (rs : JsMap string Room) : option string :=
  match draws with
  | [] => None
  | d :: draws' =>
      if jm_has (generateRoomCode d) rs then pickRoomCode draws' rs
      else Some (generateRoomCode d)
  end.

(** [socket.on('create-room', ...)] *)
Definition on_create_room (env : Env) (sid : SocketId)
  (userName : string) (userPhoto : option string) (roomName : string)
  (password : option string) (st : State) : option (State * list Emit) :=
  match pickRoomCode (rand env) (rooms st) with
  | None => None
  | Some roomCode =>
      let user := newUser sid userName userPhoto true in
      let room :=
        mkRoom roomCode roomName (js_or_null password) sid
          (jm_set sid user []) None (now env) in
      let st1 := set_rooms (jm_set roomCode room (rooms st)) st in
      let st2 := set_users (jm_set sid (mkUserEntry roomCode user) (users st1)) st1 in
      let st3 :=
        set_sockets (jm_set sid (mkSocket (Some user) (Some roomCode)) (sockets st2))
          st2 in
      Some (noteRoom sid userName roomCode st3,
            [(SocketEmit sid,
              room_created roomCode roomName true (u_userColor user))])
  end.

(** [socket.on('join-room', ...)]: the room is looked up under the
    upper-cased code, every later use takes the code as the client sent it. *)
Definition on_join_room (env : Env) (sid : SocketId)
  (roomCode userName : string) (userPhoto password : option string) (st : State)
  : State * list Emit :=
  match jm_get (toUpperCase roomCode) (rooms st) with
  | None => (st, [(SocketEmit sid, error RoomNotFound)])
  | Some room =>
      if match r_password room with
         | Some p => js_truthy p && negb (bool_decide (password = Some p))
         | None => false
         end
      then (st, [(SocketEmit sid, error WrongPassword)])
      else
        let isOwner := bool_decide (r_owner room = sid) in
        let user := newUser sid userName userPhoto isOwner in
        let room' :=
          mkRoom (r_code room) (r_name room) (r_password room) (r_owner room)
            (jm_set sid user (r_users room)) (r_screenSharing room)
            (r_createdAt room) in
        let st1 := set_rooms (jm_set (toUpperCase roomCode) room' (rooms st)) st in
        let st2 := set_users (jm_set sid (mkUserEntry roomCode user) (users st1)) st1 in
        let st3 :=
          set_sockets (jm_set sid (mkSocket (Some user) (Some roomCode)) (sockets st2))
            st2 in
        let st4 := noteRoom sid userName roomCode st3 in
        let roomMessages := default [] (jm_get roomCode (messages st4)) in
        (st4,
         [(SocketEmit sid,
           room_joined (r_code room) (r_name room) isOwner (u_userColor user)
             (slice_last 50 roomMessages) (r_screenSharing room));
          (SocketTo roomCode sid, user_joined userName)]
         ++ updateUserList (Some roomCode) st4)
  end.

(** ** Chat messages *)

(** The identifier [Date.now().toString() + Math.random().toString(36).substr(2, 5)];
    a missing draw reads as the empty string. *)
Definition freshId (env : Env) : string :=
  pretty (now env) +:+ substr 2 5 (hd ""%string (rand env)).

(** [socket.on('message', ...)] *)
Definition on_message (env : Env) (sid : SocketId) (sk : Socket)
  (text type fileUrl fileName : option string) (fileSize : option Z) (st : State)
  : State * list Emit :=
  match inRoom sk with
  | None => (st, [])
  | Some (rc, u) =>
      let m :=
        mkMessage (freshId env) (u_userName u) (u_userPhoto u) (u_userColor u)
          text (default "text"%string (js_or_null type)) fileUrl fileName fileSize
          (u_country u) (now env) false None false None ∅ [u_userName u] in
      let roomMessages := default [] (jm_get rc (messages st)) ++ [m] in
      let stored :=
        if (100 <? length roomMessages)%nat then slice_last 100 roomMessages
        else roomMessages in
      (set_messages (jm_set rc stored (messages st)) st, [(IoTo rc, message m)])
  end.

Definition hasId (messageId : string) (m : Message) : bool :=
  bool_decide (m_id m = messageId).

(** The write-back of a message mutated in place at [messageIndex]. *)
Definition storeAt (rc : string) (messageIndex : nat) (m : Message) (st : State)
  : State :=
  set_messages
    (jm_set rc (<[messageIndex := m]> (default [] (jm_get rc (messages st))))
       (messages st)) st.

Definition editMessage (newText : string) (t : Z) (m : Message) : Message :=
  mkMessage (m_id m) (m_userName m) (m_userPhoto m) (m_userColor m)
    (Some newText) (m_type m) (m_fileUrl m) (m_fileName m) (m_fileSize m)
    (m_country m) (m_timestamp m) true (Some t) (m_deleted m) (m_deletedTime m)
    (m_reactions m) (m_seenBy m).

Definition deleteMessage (t : Z) (m : Message) : Message :=
  mkMessage (m_id m) (m_userName m) (m_userPhoto m) (m_userColor m)
    (m_text m) (m_type m) (m_fileUrl m) (m_fileName m) (m_fileSize m)
    (m_country m) (m_timestamp m) (m_edited m) (m_editTime m) true (Some t)
    (m_reactions m) (m_seenBy m).

Definition setReactions (r : gmap string string) (m : Message) : Message :=
  mkMessage (m_id m) (m_userName m) (m_userPhoto m) (m_userColor m)
    (m_text m) (m_type m) (m_fileUrl m) (m_fileName m) (m_fileSize m)
    (m_country m) (m_timestamp m) (m_edited m) (m_editTime m) (m_deleted m)
    (m_deletedTime m) r (m_seenBy m).

Definition setSeenBy (s : list string) (m : Message) : Message :=
  mkMessage (m_id m) (m_userName m) (m_userPhoto m) (m_userColor m)
    (m_text m) (m_type m) (m_fileUrl m) (m_fileName m) (m_fileSize m)
    (m_country m) (m_timestamp m) (m_edited m) (m_editTime m) (m_deleted m)
    (m_deletedTime m) (m_reactions m) s.

(** The message [roomMessages[messageIndex]] an event addresses, when
    [findIndex] does not return [-1]. *)
Definition addressed (rc messageId : string) (st : State) : option (nat * Message) :=
  let roomMessages := default [] (jm_get rc (messages st)) in
  match findIndex (hasId messageId) roomMessages with
  | Some i => (fun m => (i, m)) <$> roomMessages !! i
  | None => None
  end.

(** [socket.on('edit-message', ...)] *)
Definition on_edit_message (env : Env) (sid : SocketId) (sk : Socket)
  (messageId newText : string) (st : State) : State * list Emit :=
  match inRoom sk with
  | None => (st, [])
  | Some (rc, u) =>
      match addressed rc messageId st with
      | Some (i, m) =>
          if bool_decide (m_userName m = u_userName u)
          then (storeAt rc i (editMessage newText (now env) m) st,
                [(IoTo rc, message_edited messageId newText (now env))])
          else (st, [])
      | None => (st, [])
      end
  end.

(** [socket.on('delete-message', ...)] *)
Definition on_delete_message (env : Env) (sid : SocketId) (sk : Socket)
  (messageId : string) (st : State) : State * list Emit :=
  match inRoom sk with
  | None => (st, [])
  | Some (rc, u) =>
      match addressed rc messageId st with
      | Some (i, m) =>
          if bool_decide (m_userName m = u_userName u)
          then (storeAt rc i (deleteMessage (now env) m) st,
                [(IoTo rc, message_deleted messageId (u_userName u) (now env))])
          else (st, [])
      | None => (st, [])
      end
  end.

(** The toggle of [message-reaction] on the reactions object, a plain
    object whose own properties are the entries of [r]:
    [if (reactions[userName] === reaction) delete reactions[userName];
     else reactions[userName] = reaction;].
    A name that is not an own property reads what [Object.prototype] holds
    under it, never a string, so the assignment is taken; it creates the own
    property, except under the name [__proto__], where it goes to the setter
    of [Object.prototype], which ignores a string and records nothing. *)
Definition toggleReaction (userName reaction : string) (r : gmap string string)
  : gmap string string :=
  if bool_decide (r !! userName = Some reaction) then delete userName r
  else if bool_decide (userName = "__proto__"%string /\ r !! userName = None) then r
  else <[userName := reaction]> r.

(** [socket.on('message-reaction', ...)] *)
Definition on_message_reaction (env : Env) (sid : SocketId) (sk : Socket)
  (messageId reaction : string) (st : State) : State * list Emit :=
  match inRoom sk with
  | None => (st, [])
  | Some (rc, u) =>
      match addressed rc messageId st with
      | Some (i, m) =>
          let r := toggleReaction (u_userName u) reaction (m_reactions m) in
          (storeAt rc i (setReactions r m) st,
           [(IoTo rc, message_reaction_updated messageId r)])
      | None => (st, [])
      end
  end.

(** [socket.on('message-seen', ...)] *)
Definition on_message_seen (env : Env) (sid : SocketId) (sk : Socket)
  (messageId : string) (st : State) : State * list Emit :=
  match inRoom sk with
  | None => (st, [])
  | Some (rc, u) =>
      match addressed rc messageId st with
      | Some (i, m) =>
          if bool_decide (u_userName u ∈ m_seenBy m) then (st, [])
          else
            let s := m_seenBy m ++ [u_userName u] in
            (storeAt rc i (setSeenBy s m) st,
             [(IoTo rc, message_seen_updated messageId s)])
      | None => (st, [])
      end
  end.

(** ** Screen sharing *)

Definition setScreenSharing (g : option ScreenShareGrant) (room : Room) : Room :=
  mkRoom (r_code room) (r_name room) (r_password room) (r_owner room)
    (r_users room) g (r_createdAt room).

Definition setRoomUsers (us : JsMap SocketId User) (room : Room) : Room :=
  mkRoom (r_code room) (r_name room) (r_password room) (r_owner room)
    us (r_screenSharing room) (r_createdAt room).

(** [socket.on('request-screen-share', ...)] *)
Definition on_request_screen_share (env : Env) (sid : SocketId) (sk : Socket)
  (st : State) : State * list Emit :=
  match inRoom sk with
  | None => (st, [])
  | Some (rc, u) =>
      match jm_get rc (rooms st) with
      | None => (st, [])
      | Some room =>
          match jm_last_match (fun _ user => u_isOwner user) (r_users room) with
          | Some ownerSocketId =>
              if js_truthy ownerSocketId
              then
                (set_screenShareRequests
                   (jm_set sid (mkRequest (u_userName u) sid rc (now env))
                      (screenShareRequests st)) st,
                 [(IoTo ownerSocketId, screen_share_request (u_userName u) sid)])
              else (st, [])
          | None => (st, [])
          end
      end
  end.

(** The guard [if (!currentRoomCode || !currentUser || !currentUser.isOwner) return;] *)
Definition inRoomAsOwner (sk : Socket) : option (string * User) :=
  match inRoom sk with
  | Some (rc, u) => if u_isOwner u then Some (rc, u) else None
  | None => None
  end.

(** [socket.on('approve-screen-share', ...)].  With a pending request but no
    room under [currentRoomCode] the assignment to [room.screenSharing]
    throws and the handler's [catch] leaves everything as it was. *)
Definition on_approve_screen_share (env : Env) (sid : SocketId) (sk : Socket)
  (requesterSocketId : SocketId) (st : State) : State * list Emit :=
  match inRoomAsOwner sk with
  | None => (st, [])
  | Some (rc, u) =>
      match jm_get requesterSocketId (screenShareRequests st) with
      | None => (st, [])
      | Some request =>
          match jm_get rc (rooms st) with
          | None => (st, [])
          | Some room =>
              let grant :=
                mkGrant (q_requesterName request) requesterSocketId (now env) in
              let st1 :=
                set_rooms (jm_set rc (setScreenSharing (Some grant) room) (rooms st))
                  st in
              (set_screenShareRequests
                 (jm_delete requesterSocketId (screenShareRequests st1)) st1,
               [(IoTo requesterSocketId, screen_share_approved);
                (IoTo rc, screen_share_started (q_requesterName request))])
          end
      end
  end.

(** [socket.on('reject-screen-share', ...)] *)
Definition on_reject_screen_share (env : Env) (sid : SocketId) (sk : Socket)
  (requesterSocketId : SocketId) (st : State) : State * list Emit :=
  match inRoomAsOwner sk with
  | None => (st, [])
  | Some (rc, u) =>
      match jm_get requesterSocketId (screenShareRequests st) with
      | None => (st, [])
      | Some request =>
          (set_screenShareRequests
             (jm_delete requesterSocketId (screenShareRequests st)) st,
           [(IoTo requesterSocketId, screen_share_rejected)])
      end
  end.

(** [socket.on('stop-screen-share', ...)] *)
Definition on_stop_screen_share (env : Env) (sid : SocketId) (sk : Socket)
  (st : State) : State * list Emit :=
  match currentRoomCode sk with
  | Some rc =>
      if js_truthy rc then
        match jm_get rc (rooms st) with
        | Some room =>
            match r_screenSharing room with
            | Some g =>
                (set_rooms (jm_set rc (setScreenSharing None room) (rooms st)) st,
                 [(IoTo rc, screen_share_stopped (Some (g_userName g)) None)])
            | None => (st, [])
            end
        | None => (st, [])
        end
      else (st, [])
  | None => (st, [])
  end.

(** ** Playlists ([server.js] only) *)

(** The keys of the room playlist whose list is not empty:
    [Array.from(roomPlaylist.keys()).filter(user => roomPlaylist.get(user).length > 0)] *)
Definition usersWithTracks (roomPlaylist : JsMap string (list Track)) : list string :=
  filter (fun user => (0 < length (default [] (jm_get user roomPlaylist)))%nat)
    (jm_keys roomPlaylist).

(** [socket.on('upload-playlist-music', ...)].  Without a room under
    [currentRoomCode], [room.users.size] throws after the track was stored:
    the store keeps the track and nothing is broadcast. *)
Definition on_upload_playlist_music (env : Env) (sid : SocketId) (sk : Socket)
  (musicData fileName : string) (fileSize : Z) (st : State) : State * list Emit :=
  match inRoom sk with
  | None => (st, [])
  | Some (rc, u) =>
      let roomPlaylist := default [] (jm_get rc (userPlaylists st)) in
      let userMusic := default [] (jm_get (u_userName u) roomPlaylist) in
      let track :=
        mkTrack (freshId env) musicData fileName fileSize (u_userName u) (now env) in
      let roomPlaylist' := jm_set (u_userName u) (userMusic ++ [track]) roomPlaylist in
      let st1 := set_userPlaylists (jm_set rc roomPlaylist' (userPlaylists st)) st in
      match jm_get rc (rooms st) with
      | None => (st1, [])
      | Some room =>
          let totalUsers := jm_size (r_users room) in
          let usersWithMusic := length (jm_keys roomPlaylist') in
          (st1,
           [(IoTo rc,
             playlist_updated roomPlaylist' (progressPercent usersWithMusic totalUsers))])
      end
  end.

(** [socket.on('request-delete-music', ...)] *)
Definition on_request_delete_music (env : Env) (sid : SocketId) (sk : Socket)
  (targetUserName : string) (st : State) : State * list Emit :=
  match inRoom sk with
  | None => (st, [])
  | Some (rc, u) =>
      match jm_get rc (rooms st) with
      | None => (st, [])
      | Some room =>
          match
            jm_last_match
              (fun _ user => bool_decide (u_userName user = targetUserName))
              (r_users room)
          with
          | Some targetSocketId =>
              if js_truthy targetSocketId
              then (st, [(IoTo targetSocketId, music_delete_request (u_userName u))])
              else (st, [])
          | None => (st, [])
          end
      end
  end.

(** [socket.on('confirm-delete-music', ...)] *)
Definition on_confirm_delete_music (env : Env) (sid : SocketId) (sk : Socket)
  (requesterName : string) (st : State) : State * list Emit :=
  match inRoom sk with
  | None => (st, [])
  | Some (rc, u) =>
      match jm_get rc (userPlaylists st) with
      | None => (st, [])
      | Some roomPlaylist =>
          if jm_has (u_userName u) roomPlaylist then
            let roomPlaylist' := jm_set (u_userName u) [] roomPlaylist in
            let st1 :=
              set_userPlaylists (jm_set rc roomPlaylist' (userPlaylists st)) st in
            match jm_get rc (rooms st) with
            | None => (st1, [])
            | Some room =>
                let totalUsers := jm_size (r_users room) in
                let usersWithMusic := length (usersWithTracks roomPlaylist') in
                (st1,
                 (IoTo rc,
                  playlist_updated roomPlaylist'
                    (progressPercent usersWithMusic totalUsers))
                 :: match
                      jm_last_match
                        (fun _ user => bool_decide (u_userName user = requesterName))
                        (r_users room)
                    with
                    | Some requesterSocketId =>
                        if js_truthy requesterSocketId
                        then [(IoTo requesterSocketId, music_deleted (u_userName u))]
                        else []
                    | None => []
                    end)
            end
          else (st, [])
      end
  end.

(** ** Calls *)

(** [socket.on('start-call', ...)] *)
Definition on_start_call (env : Env) (sid : SocketId) (sk : Socket)
  (targetUserName offer type callerName : string) (st : State)
  : State * list Emit :=
  match
    jm_last_match
      (fun _ ue =>
         bool_decide (u_userName (ue_user ue) = targetUserName
                      ∧ Some (ue_roomCode ue) = currentRoomCode sk))
      (users st)
  with
  | Some targetSocketId =>
      if js_truthy targetSocketId then
        let callData :=
          mkCallData sid callerName targetSocketId targetUserName type
            (currentRoomCode sk) (now env) "ringing" in
        (set_activeCalls
           (jm_set targetSocketId callData (jm_set sid callData (activeCalls st))) st,
         [(IoTo targetSocketId, ice_servers);
          (IoTo targetSocketId, incoming_call offer callerName type sid)])
      else (st, [(SocketEmit sid, call_error CallTargetMissing)])
  | None => (st, [(SocketEmit sid, call_error CallTargetMissing)])
  end.

(** [activeCalls.delete(callData.callerSocketId); activeCalls.delete(callData.targetSocketId);] *)
Definition dropCall (callData : CallData) (st : State) : State :=
  set_activeCalls
    (jm_delete (c_targetSocketId callData)
       (jm_delete (c_callerSocketId callData) (activeCalls st))) st.

(** [socket.on('reject-call', ...)] *)
Definition on_reject_call (env : Env) (sid : SocketId) (sk : Socket)
  (callerSocketId : string) (st : State) : State * list Emit :=
  match jm_get sid (activeCalls st) with
  | Some callData =>
      let st1 := dropCall callData st in
      (st1,
       (IoTo callerSocketId, call_rejected (u_userName <$> currentUser sk))
       :: updateUserList (currentRoomCode sk) st1)
  | None => (st, [])
  end.

(** The counterpart of [sid] in a call record. *)
Definition otherParty (sid : SocketId) (callData : CallData) : SocketId :=
  if bool_decide (c_callerSocketId callData = sid) then c_targetSocketId callData
  else c_callerSocketId callData.

(** [socket.on('end-call', ...)] *)
Definition on_end_call (env : Env) (sid : SocketId) (sk : Socket)
  (targetSocketId : option string) (st : State) : State * list Emit :=
  match jm_get sid (activeCalls st) with
  | Some callData =>
      let otherPartyId := otherParty sid callData in
      let st1 := dropCall callData st in
      (st1,
       (if js_truthy otherPartyId
        then [(IoTo otherPartyId, call_ended (u_userName <$> currentUser sk) None)]
        else [])
       ++ updateUserList (currentRoomCode sk) st1)
  | None =>
      match js_or_null targetSocketId with
      | Some target =>
          let st1 :=
            set_activeCalls (jm_delete target (jm_delete sid (activeCalls st))) st in
          (st1,
           (IoTo target, call_ended (u_userName <$> currentUser sk) None)
           :: updateUserList (currentRoomCode sk) st1)
      | None => (st, [])
      end
  end.

(** ** Disconnect and the empty-room timeout *)

(** The call part of [disconnect]. *)
Definition disconnectCall (sid : SocketId) (st : State) : State * list Emit :=
  match jm_get sid (activeCalls st) with
  | Some callData =>
      let otherPartyId := otherParty sid callData in
      if js_truthy otherPartyId then
        (set_activeCalls
           (jm_delete sid (jm_delete otherPartyId (activeCalls st))) st,
         [(IoTo otherPartyId,
           call_ended (Some "Sistem (bağlantı kesildi)"%string)
             (Some "connection_lost"%string))])
      else (set_activeCalls (jm_delete sid (activeCalls st)) st, [])
  | None => (st, [])
  end.

(** The payload of [screen-share-stopped] sent from [disconnect]. *)
Definition stoppedByDisconnect (v : Revision) (sk : Socket) : OutEvent :=
  match v with
  | ServerJs => screen_share_stopped (u_userName <$> currentUser sk) None
  | WithCleanup =>
      screen_share_stopped
        (Some (default "Kullanıcı"%string
                 (js_or_null (u_userName <$> currentUser sk))))
        (Some "disconnect"%string)
  end.

(** The screen-share part of [disconnect]. *)
Definition disconnectScreenShare (v : Revision) (sid : SocketId) (sk : Socket)
  (st : State) : State * list Emit :=
  match js_or_null (currentRoomCode sk) with
  | Some rc =>
      match jm_get rc (rooms st) with
      | Some room =>
          match r_screenSharing room with
          | Some g =>
              if bool_decide (g_socketId g = sid) then
                (set_rooms (jm_set rc (setScreenSharing None room) (rooms st)) st,
                 [(IoTo rc, stoppedByDisconnect v sk)])
              else (st, [])
          | None => (st, [])
          end
      | None => (st, [])
      end
  | None => (st, [])
  end.

Definition GRACE_PERIOD : Z := 600000.

(** The membership part of [disconnect], which arms the empty-room timeout. *)
Definition disconnectRoom (env : Env) (sid : SocketId) (sk : Socket) (st : State)
  : State * list Emit :=
  match inRoom sk with
  | None => (st, [])
  | Some (rc, u) =>
      match jm_get rc (rooms st) with
      | None => (st, [])
      | Some room =>
          let room' := setRoomUsers (jm_delete sid (r_users room)) room in
          let st1 := set_rooms (jm_set rc room' (rooms st)) st in
          let st2 := set_users (jm_delete sid (users st1)) st1 in
          let out :=
            (SocketTo rc sid, user_left (u_userName u))
            :: updateUserList (Some rc) st2 in
          let st3 :=
            set_screenShareRequests (jm_delete sid (screenShareRequests st2)) st2 in
          if (jm_size (r_users room') =? 0)%nat
          then (set_timeouts (timeouts st3 ++ [(now env + GRACE_PERIOD, rc)]) st3, out)
          else (st3, out)
      end
  end.

(** [socket.on('disconnect', ...)]: the socket leaves [io.sockets.sockets],
    its heartbeat timer is cleared and its state is unwound. *)
Definition on_disconnect (v : Revision) (env : Env) (sid : SocketId) (sk : Socket)
  (st : State) : State * list Emit :=
  let st0 := set_sockets (jm_delete sid (sockets st)) st in
  let st1 := set_connectionMonitor (jm_delete sid (connectionMonitor st0)) st0 in
  let '(st2, out2) := disconnectCall sid st1 in
  let '(st3, out3) := disconnectScreenShare v sid sk st2 in
  let '(st4, out4) := disconnectRoom env sid sk st3 in
  (st4, out2 ++ out3 ++ out4).

(** The callback handed to [setTimeout] in [disconnect]:
    [if (rooms.get(currentRoomCode)?.users.size === 0) { ... }] *)
Definition emptyRoomTimeout (v : Revision) (rc : string) (st : State) : State :=
  match jm_get rc (rooms st) with
  | Some room =>
      if (jm_size (r_users room) =? 0)%nat then
        let st1 := set_rooms (jm_delete rc (rooms st)) st in
        let st2 := set_messages (jm_delete rc (messages st1)) st1 in
        match v with
        | ServerJs => set_userPlaylists (jm_delete rc (userPlaylists st2)) st2
        | WithCleanup => st2
        end
      else st
  | None => st
  end.

(** Every pending timeout whose deadline has passed runs, oldest first. *)
Definition runTimeouts (v : Revision) (env : Env) (st : State) : State :=
  let due := filter (fun t => t.1 <= now env) (timeouts st) in
  let pending := filter (fun t => now env < t.1) (timeouts st) in
  fold_left (fun s t => emptyRoomTimeout v t.2 s) due (set_timeouts pending st).

(** ** The two sweeps *)

Definition PING_TIMEOUT : Z := 40000.
Definition HEALTH_PERIOD : Z := 20000.

(** [timeSinceLastPing > 40000]; without a [lastPing] the difference is
    [NaN] and the comparison is false. *)
Definition timedOut (t : Z) (conn : ConnectionHealth) : bool :=
  match h_lastPing conn with
  | Some lastPing => PING_TIMEOUT <? t - lastPing
  | None => false
  end.

(** One iteration of the loop of [startConnectionHealthCheck] for the key
    [socketId]; an entry deleted earlier in the same pass is not visited.
    [socket.disconnect(true)] runs the socket's [disconnect] handler before
    it returns. *)
Definition healthCheckEntry (v : Revision) (env : Env)
  (acc : State * list Emit) (socketId : SocketId) : State * list Emit :=
  let '(st, out) := acc in
  match jm_get socketId (connectionMonitor st) with
  | Some connection =>
      if timedOut (now env) connection then
        let '(st1, out1) :=
          match jm_get socketId (sockets st) with
          | Some sk => on_disconnect v env socketId sk st
          | None => (st, [])
          end in
        (set_connectionMonitor (jm_delete socketId (connectionMonitor st1)) st1,
         out ++ out1)
      else (st, out)
  | None => (st, out)
  end.

(** The callback of the interval started by [startConnectionHealthCheck]. *)
Definition startConnectionHealthCheck (v : Revision) (env : Env) (st : State)
  : State * list Emit :=
  fold_left (healthCheckEntry v env) (jm_keys (connectionMonitor st)) (st, []).

Definition ONE_HOUR : Z := 60 * 60 * 1000.
Definition REQUEST_MAX_AGE : Z := 5 * 60 * 1000.

(** The room loop of the periodic cleanup, for one key. *)
Definition cleanupRoom (t : Z) (st : State) (roomCode : string) : State :=
  match jm_get roomCode (rooms st) with
  | Some room =>
      if ((jm_size (r_users room) =? 0)%nat && (ONE_HOUR <? t - r_createdAt room))%bool
      then
        let st1 := set_rooms (jm_delete roomCode (rooms st)) st in
        set_messages (jm_delete roomCode (messages st1)) st1
      else st
  | None => st
  end.

(** The request loop of the periodic cleanup, for one key. *)
Definition cleanupRequest (t : Z) (st : State) (socketId : SocketId) : State :=
  match jm_get socketId (screenShareRequests st) with
  | Some request =>
      if REQUEST_MAX_AGE <? t - q_timestamp request
      then set_screenShareRequests (jm_delete socketId (screenShareRequests st)) st
      else st
  | None => st
  end.

(** The callback of the cleanup interval (second revision only). *)
Definition periodicCleanup (env : Env) (st : State) : State :=
  let st1 :=
    fold_left (cleanupRequest (now env)) (jm_keys (screenShareRequests st)) st in
  fold_left (cleanupRoom (now env)) (jm_keys (rooms st1)) st1.

(** ** The event loop *)

Inductive Event :=
| create_room (userName : string) (userPhoto : option string) (roomName : string)
    (password : option string)
| join_room (roomCode userName : string) (userPhoto password : option string)
| post_message (text type fileUrl fileName : option string) (fileSize : option Z)
| edit_message (messageId newText : string)
| delete_message (messageId : string)
| message_reaction (messageId reaction : string)
| message_seen (messageId : string)
| request_screen_share
| approve_screen_share (requesterSocketId : SocketId)
| reject_screen_share (requesterSocketId : SocketId)
| stop_screen_share
| upload_playlist_music (musicData fileName : string) (fileSize : Z)
| request_delete_music (targetUserName : string)
| confirm_delete_music (requesterName : string)
| start_call (targetUserName offer type callerName : string)
| reject_call (callerSocketId : string)
| end_call (targetSocketId : option string)
| pong
| disconnect.

(** The handler registered for an event on the socket [sid].  A socket that
    is not connected delivers nothing.  The playlist events have no handler
    in the second revision. *)
Definition handle (v : Revision) (env : Env) (sid : SocketId) (ev : Event)
  (st : State) : option (State * list Emit) :=
  match jm_get sid (sockets st) with
  | None => Some (st, [])
  | Some sk =>
      match ev with
      | create_room userName userPhoto roomName password =>
          on_create_room env sid userName userPhoto roomName password st
      | join_room roomCode userName userPhoto password =>
          Some (on_join_room env sid roomCode userName userPhoto password st)
      | post_message text type fileUrl fileName fileSize =>
          Some (on_message env sid sk text type fileUrl fileName fileSize st)
      | edit_message messageId newText =>
          Some (on_edit_message env sid sk messageId newText st)
      | delete_message messageId =>
          Some (on_delete_message env sid sk messageId st)
      | message_reaction messageId reaction =>
          Some (on_message_reaction env sid sk messageId reaction st)
      | message_seen messageId => Some (on_message_seen env sid sk messageId st)
      | request_screen_share => Some (on_request_screen_share env sid sk st)
      | approve_screen_share requesterSocketId =>
          Some (on_approve_screen_share env sid sk requesterSocketId st)
      | reject_screen_share requesterSocketId =>
          Some (on_reject_screen_share env sid sk requesterSocketId st)
      | stop_screen_share => Some (on_stop_screen_share env sid sk st)
      | upload_playlist_music musicData fileName fileSize =>
          match v with
          | ServerJs =>
              Some (on_upload_playlist_music env sid sk musicData fileName fileSize st)
          | WithCleanup => Some (st, [])
          end
      | request_delete_music targetUserName =>
          match v with
          | ServerJs => Some (on_request_delete_music env sid sk targetUserName st)
          | WithCleanup => Some (st, [])
          end
      | confirm_delete_music requesterName =>
          match v with
          | ServerJs => Some (on_confirm_delete_music env sid sk requesterName st)
          | WithCleanup => Some (st, [])
          end
      | start_call targetUserName offer type callerName =>
          Some (on_start_call env sid sk targetUserName offer type callerName st)
      | reject_call callerSocketId =>
          Some (on_reject_call env sid sk callerSocketId st)
      | end_call targetSocketId => Some (on_end_call env sid sk targetSocketId st)
      | pong => Some (on_pong env sid st)
      | disconnect => Some (on_disconnect v env sid sk st)
      end
  end.

(** What the event loop can run next. *)
Inductive Input :=
| Connection (sid : SocketId)            (* a client connects *)
| Client (sid : SocketId) (ev : Event)   (* a client event arrives *)
| PingTimer (sid : SocketId)             (* [pingInterval] of a socket fires *)
| HealthTimer                            (* the health-check interval fires *)
| CleanupTimer                           (* the cleanup interval fires *)
| TimeoutsDue.                           (* the due empty-room timeouts fire *)

Definition step (v : Revision) (env : Env) (i : Input) (st : State)
  : option (State * list Emit) :=
  match i with
  | Connection sid =>
      if jm_has sid (sockets st) then Some (st, [])
      else Some (on_connection env sid st)
  | Client sid ev => handle v env sid ev st
  | PingTimer sid => Some (pingInterval env sid st)
  | HealthTimer => Some (startConnectionHealthCheck v env st)
  | CleanupTimer =>
      match v with
      | ServerJs => Some (st, [])
      | WithCleanup => Some (periodicCleanup env st, [])
      end
  | TimeoutsDue => Some (runTimeouts v env st, [])
  end.

(** A run of the event loop over a schedule of timed inputs. *)
Fixpoint run (v : Revision) (schedule : list (Env * Input)) (st : State)
  : option State :=
  match schedule with
  | [] => Some st
  | (env, i) :: schedule' =>
      match step v env i st with
      | Some (st', _) => run v schedule' st'
      | None => None
      end
  end.

Inductive reachable (v : Revision) : State -> Prop :=
| reachable_init : reachable v init
| reachable_step st env i st' out :
    reachable v st -> step v env i st = Some (st', out) -> reachable v st'.

(** ** Predicates used in the statements *)

(** The sweep of the liveness monitor runs every [HEALTH_PERIOD] after
    [boot]; this is the first of its runs strictly after the instant [t]. *)
Definition nextHealthCheck (boot t : Z) : Z :=
  boot + HEALTH_PERIOD * ((t - boot) / HEALTH_PERIOD + 1).

(** The call index holds whole calls only: an entry sits under one of the
    two identities of its record, and the record sits under both. *)
Definition calls_paired (calls : JsMap SocketId CallData) : Prop :=
  forall k cd, jm_get k calls = Some cd ->
    (k = c_callerSocketId cd \/ k = c_targetSocketId cd)
    /\ jm_get (c_callerSocketId cd) calls = Some cd
    /\ jm_get (c_targetSocketId cd) calls = Some cd.

(** Every room is stored under its own code, and codes are in upper case. *)
Definition rooms_keyed (rs : JsMap string Room) : Prop :=
  forall k room, jm_get k rs = Some room -> r_code room = k /\ toUpperCase k = k.

(** The author of a message is in its seen-set. *)
Definition author_seen (m : Message) : Prop := m_userName m ∈ m_seenBy m.

Definition authors_seen (ms : JsMap string (list Message)) : Prop :=
  forall rc log, jm_get rc ms = Some log -> Forall author_seen log.

(** Every room of [rs'] descends from the room stored under the same key
    in [rs] and kept its code. *)
Definition rooms_derive (rs rs' : JsMap string Room) : Prop :=
  forall k room', jm_get k rs' = Some room' ->
    exists room, jm_get k rs = Some room /\ r_code room' = r_code room.

(** A socket that entered a room is a member of the room stored under the
    upper-cased code, and its owner flag tells whether it is that room's
    recorded owner. *)
Definition socket_ok (st : State) (sid : SocketId) (sk : Socket) : Prop :=
  forall u rc, currentUser sk = Some u -> currentRoomCode sk = Some rc ->
    exists room,
      jm_get (toUpperCase rc) (rooms st) = Some room
      /\ is_Some (jm_get sid (r_users room))
      /\ u_isOwner u = bool_decide (r_owner room = sid).

Definition sockets_in_rooms (st : State) : Prop :=
  forall sid sk, jm_get sid (sockets st) = Some sk -> socket_ok st sid sk.

(** From [rs] to [rs'] every room keeps its owner and those of its members
    that [stays] holds for. *)
Definition rooms_keep (stays : SocketId -> Prop) (rs rs' : JsMap string Room) : Prop :=
  forall k room sid,
    jm_get k rs = Some room -> is_Some (jm_get sid (r_users room)) -> stays sid ->
    exists room',
      jm_get k rs' = Some room' /\ r_owner room' = r_owner room
      /\ is_Some (jm_get sid (r_users room')).

(** ** Schedules used as concrete scenarios *)

Definition at_time (t : Z) (i : Input) : Env * Input := (mkEnv t [], i).

Definition at_time_drawing (t : Z) (draws : list string) (i : Input) : Env * Input :=
  (mkEnv t draws, i).

(** A client that connects at time 0 and never acknowledges a probe, with
    the heartbeat timer every 10 s and the health check every 20 s. *)
Definition silent_client : list (Env * Input) :=
  [at_time 0 (Connection "s1");
   at_time 10000 (PingTimer "s1");
   at_time 20000 (PingTimer "s1"); at_time 20000 HealthTimer;
   at_time 30000 (PingTimer "s1");
   at_time 40000 (PingTimer "s1"); at_time 40000 HealthTimer;
   at_time 50000 (PingTimer "s1");
   at_time 60000 (PingTimer "s1"); at_time 60000 HealthTimer;
   at_time 70000 (PingTimer "s1");
   at_time 80000 (PingTimer "s1"); at_time 80000 HealthTimer].

(** Ann opens room ABC123; Bob and Cy join. *)
Definition three_in_a_room : list (Env * Input) :=
  [at_time 0 (Connection "a"); at_time 0 (Connection "b");
   at_time 0 (Connection "c");
   at_time_drawing 1 ["0.abc123xyz"]
     (Client "a" (create_room "Ann" None "room" None));
   at_time 2 (Client "b" (join_room "ABC123" "Bob" None None));
   at_time 3 (Client "c" (join_room "ABC123" "Cy" None None))].

(** Ann rings Bob, then Cy rings Bob as well. *)
Definition busy_callee : list (Env * Input) :=
  three_in_a_room
  ++ [at_time 4 (Client "a" (start_call "Bob" "offer" "video" "Ann"));
      at_time 5 (Client "c" (start_call "Bob" "offer" "video" "Cy"))].

(** Ann rings Bob. *)
Definition ringing : list (Env * Input) :=
  three_in_a_room
  ++ [at_time 4 (Client "a" (start_call "Bob" "offer" "video" "Ann"))].

(** The state a schedule leads to from the initial one. *)
Definition state_after (v : Revision) (schedule : list (Env * Input)) : State :=
  default init (run v schedule init).

(** Ann posts a first message in the room. *)
Definition one_message : list (Env * Input) :=
  three_in_a_room
  ++ [at_time_drawing 10 ["0.k3x9q7"]
        (Client "a" (post_message (Some "hello") None None None None))].

Definition ann : User := newUser "a" "Ann" None true.
Definition bob : User := newUser "b" "Bob" None false.

(** Second revision: Ann opens a room at 1 s and is alone in it until she
    disconnects, two hours later less one second. *)
Definition late_leaver : list (Env * Input) :=
  [at_time 0 (Connection "a");
   at_time_drawing 1000 ["0.abc123xyz"]
     (Client "a" (create_room "Ann" None "room" None));
   at_time 7199000 (Client "a" disconnect)].

(** Ann opens a room, writes a line and disconnects at 10 s; Bob joins the
    empty room at 100 s and disconnects at 200 s. *)
Definition brief_return : list (Env * Input) :=
  [at_time 0 (Connection "a"); at_time 0 (Connection "b");
   at_time_drawing 1000 ["0.abc123xyz"]
     (Client "a" (create_room "Ann" None "room" None));
   at_time_drawing 5000 ["0.k3x9q7"]
     (Client "a" (post_message (Some "hello") None None None None));
   at_time 10000 (Client "a" disconnect);
   at_time 100000 (Client "b" (join_room "ABC123" "Bob" None None));
   at_time 200000 (Client "b" disconnect)].

(** Ann owns ABC123 with Bob in it, Xena owns XYZ789; Bob asks to share his
    screen. *)
Definition foreign_owner : list (Env * Input) :=
  [at_time 0 (Connection "a"); at_time 0 (Connection "b");
   at_time 0 (Connection "x");
   at_time_drawing 1 ["0.abc123xyz"]
     (Client "a" (create_room "Ann" None "room" None));
   at_time 2 (Client "b" (join_room "ABC123" "Bob" None None));
   at_time_drawing 3 ["0.xyz789abc"]
     (Client "x" (create_room "Xena" None "other" None));
   at_time 10 (Client "b" request_screen_share)].

Definition xena : User := newUser "x" "Xena" None true.

(** Ann and Bob share a room; Ann uploads a track and then confirms the
    deletion of her list. *)
Definition emptied_list : list (Env * Input) :=
  [at_time 0 (Connection "a"); at_time 0 (Connection "b");
   at_time_drawing 1 ["0.abc123xyz"]
     (Client "a" (create_room "Ann" None "room" None));
   at_time 2 (Client "b" (join_room "ABC123" "Bob" None None));
   at_time_drawing 10 ["0.7hq2m9"]
     (Client "a" (upload_playlist_music "data:a" "first.mp3" 1));
   at_time 20 (Client "a" (confirm_delete_music "Bob"))].

(** The [uploadProgress] fields of the [playlist-updated] events in an
    output, and the names owning at least one track in their listings. *)
Definition uploadProgressOf (out : list Emit) : list (option Z) :=
  omap (fun e => match e.2 with
                 | playlist_updated _ p => Some p
                 | _ => None
                 end) out.

Definition trackOwnersOf (out : list Emit) : list (list string) :=
  omap (fun e => match e.2 with
                 | playlist_updated listing _ => Some (usersWithTracks listing)
                 | _ => None
                 end) out.

(** ** Predicates for the further properties *)

(** What is kept of a log by the trimming in [message]:
    [roomMessages.length > 100 ? roomMessages.slice(-100) : roomMessages] *)
Definition retained (roomMessages : list Message) : list Message :=
  if (100 <? length roomMessages)%nat then slice_last 100 roomMessages
  else roomMessages.

(** A rewrite of a message in place keeps who wrote it, when, under which
    identifier, and every name of its seen-set. *)
Definition rewritten (m m' : Message) : Prop :=
  m_id m' = m_id m /\ m_userName m' = m_userName m
  /\ m_timestamp m' = m_timestamp m /\ m_seenBy m ⊆ m_seenBy m'.

(** How the log stored under one key can differ after a step. *)
Definition log_evolves (old : option (list Message)) (new : list Message) : Prop :=
  old = Some new
  \/ (exists log i m m',
        old = Some log /\ log !! i = Some m /\ rewritten m m'
        /\ new = <[i := m']> log)
  \/ (exists m,
        m_seenBy m = [m_userName m] /\ m_edited m = false /\ m_deleted m = false
        /\ m_reactions m = ∅ /\ new = retained (default [] old ++ [m])).

Definition logs_capped (ms : JsMap string (list Message)) : Prop :=
  forall rc log, jm_get rc ms = Some log -> (length log <= 100)%nat.

(** Identifier, author and time stamp of each message of a log, in order. *)
Definition identities (log : list Message) : list (string * string * Z) :=
  map (fun m => (m_id m, m_userName m, m_timestamp m)) log.

(** What no handler changes in a room once it is created. *)
Definition same_room (room room' : Room) : Prop :=
  r_code room' = r_code room /\ r_name room' = r_name room
  /\ r_password room' = r_password room /\ r_owner room' = r_owner room
  /\ r_createdAt room' = r_createdAt room.

(** Every room of [rs'] is the room stored under the same key in [rs], up
    to its members and its screen-share grant. *)
Definition rooms_descend (rs rs' : JsMap string Room) : Prop :=
  forall k room', jm_get k rs' = Some room' ->
    exists room, jm_get k rs = Some room /\ same_room room room'.

(** Bob joins Ann's room under the lower-cased code. *)
Definition lower_case_join : list (Env * Input) :=
  [at_time 0 (Connection "a"); at_time 0 (Connection "b");
   at_time_drawing 1 ["0.abc123xyz"]
     (Client "a" (create_room "Ann" None "room" None));
   at_time 2 (Client "b" (join_room "abc123" "Bob" None None))].

(** Every entry of the call index sits under the caller or the callee of
    its record. *)
Definition calls_sided (calls : JsMap SocketId CallData) : Prop :=
  forall k cd, jm_get k calls = Some cd ->
    k = c_callerSocketId cd \/ k = c_targetSocketId cd.

(** [calls'] holds nothing that [calls] did not hold. *)
Definition calls_shrink (calls calls' : JsMap SocketId CallData) : Prop :=
  forall k cd, jm_get k calls' = Some cd -> jm_get k calls = Some cd.

(** A member is stored under its own identity and carries the owner flag
    exactly when it is the recorded owner of the room. *)
Definition member_ok (room : Room) (s : SocketId) (user : User) : Prop :=
  u_id user = s /\ u_isOwner user = bool_decide (r_owner room = s).

Definition members_flagged (rs : JsMap string Room) : Prop :=
  forall rc room s user,
    jm_get rc rs = Some room -> (s, user) ∈ r_users room -> member_ok room s user.

(** [room'] has the owner of [room] and no member that [room] has not. *)
Definition room_thins (room room' : Room) : Prop :=
  r_owner room' = r_owner room
  /\ forall x, x ∈ r_users room' -> x ∈ r_users room.

Definition rooms_thin (rs rs' : JsMap string Room) : Prop :=
  forall k room', jm_get k rs' = Some room' ->
    exists room, jm_get k rs = Some room /\ room_thins room room'.

(** A heartbeat record of a connected socket: both of its times are set and
    it names the room the socket last entered. *)
Definition heartbeat_ok (sk : Socket) (h : ConnectionHealth) : Prop :=
  is_Some (h_lastPing h) /\ is_Some (h_connectedAt h)
  /\ h_roomCode h = currentRoomCode sk.

(** The heartbeat records are those of the connected sockets. *)
Definition monitored (st : State) : Prop :=
  forall sid,
    match jm_get sid (sockets st), jm_get sid (connectionMonitor st) with
    | Some sk, Some h => heartbeat_ok sk h
    | None, None => True
    | _, _ => False
    end.

(** What the request loop of the cleanup leaves of a request. *)
Definition keptRequest (t : Z) (request : option ScreenShareRequest)
  : option ScreenShareRequest :=
  match request with
  | Some q => if REQUEST_MAX_AGE <? t - q_timestamp q then None else Some q
  | None => None
  end.

(** ** The shared video of a room

    [room.video] and [room.playbackState] are read and written by the video
    handlers only, so they are kept apart from [Room]: the handlers below
    take what [rooms.get(currentRoomCode)] found, reduced to these two
    fields, and give back what the room object holds afterwards. *)

(** A value as a client can send it. *)
#[local] Unset Elimination Schemes.
Inductive JsValue :=
| JsNull
| JsBool (b : bool)
| JsNumber (x : spec_float)
| JsString (s : string)
| JsArray (items : list JsValue)
| JsObject (fields : list (string * JsValue)).
#[local] Set Elimination Schemes.

Inductive VideoInfo :=
| UploadedVideo (url title uploadedBy : string) (uploadedAt : Z)
| YouTubeVideo (videoId url title uploadedBy : string).

Record RoomMedia := mkRoomMedia {
  rm_video : option VideoInfo;
  rm_playbackState : gmap string JsValue }.

(** [{ playing: false, currentTime: 0, playbackRate: 1 }] *)
Definition initialPlayback : gmap string JsValue :=
  {[ "playing"%string := JsBool false;
     "currentTime"%string := JsNumber (Number_of_Z 0);
     "playbackRate"%string := JsNumber (Number_of_Z 1) ]}.

Inductive MediaError :=
| NotAllowed     (* 'Yetkiniz yok' *)
| UploadFailed   (* 'Video yuklenemedi!' *).

Inductive MediaEvent :=
| media_error (message : MediaError)
| video_uploaded (videoUrl title uploadedBy : string)
| upload_progress_completed
| video_control_state (playbackState : gmap string JsValue)
| youtube_control_state (playbackState : gmap string JsValue)
| video_deleted.

Definition MediaEmit : Type := Target * MediaEvent.

(** [socket.on('upload-video', ...)].  Without a room under
    [currentRoomCode] the assignment to [room.video] throws and the handler's
    [catch] reports the failure to the caller. *)
Definition on_upload_video (env : Env) (sid : SocketId) (sk : Socket)
  (videoBase64 : string) (title : option string) (found : option RoomMedia)
  : option RoomMedia * list MediaEmit :=
  match inRoomAsOwner sk with
  | None => (found, [(SocketEmit sid, media_error NotAllowed)])
  | Some (rc, u) =>
      match found with
      | None => (None, [(SocketEmit sid, media_error UploadFailed)])
      | Some room =>
          let title' := default "Video"%string (js_or_null title) in
          (Some (mkRoomMedia
                   (Some (UploadedVideo videoBase64 title' (u_userName u) (now env)))
                   (rm_playbackState room)),
           [(IoTo rc, video_uploaded videoBase64 title' (u_userName u));
            (SocketEmit sid, upload_progress_completed)])
      end
  end.

(** [{ ...room.playbackState, ...controlData }] *)
Definition mergeControl (controlData playbackState : gmap string JsValue)
  : gmap string JsValue :=
  controlData ∪ playbackState.

(** [socket.on('video-control', ...)].  The handler has no [try]: without a
    room under [currentRoomCode] the read of [room.playbackState] throws out
    of the handler, which is the result [None]. *)
Definition on_video_control (sk : Socket) (controlData : gmap string JsValue)
  (found : option RoomMedia) : option (option RoomMedia * list MediaEmit) :=
  match inRoomAsOwner sk with
  | None => Some (found, [])
  | Some (rc, u) =>
      match found with
      | None => None
      | Some room =>
          let playbackState := mergeControl controlData (rm_playbackState room) in
          Some (Some (mkRoomMedia (rm_video room) playbackState),
                [(IoTo rc, video_control_state playbackState)])
      end
  end.

(** [socket.on('youtube-control', ...)]: as [video-control], sent to the
    room without the sender. *)
Definition on_youtube_control (sid : SocketId) (sk : Socket)
  (controlData : gmap string JsValue) (found : option RoomMedia)
  : option (option RoomMedia * list MediaEmit) :=
  match inRoomAsOwner sk with
  | None => Some (found, [])
  | Some (rc, u) =>
      match found with
      | None => None
      | Some room =>
          let playbackState := mergeControl controlData (rm_playbackState room) in
          Some (Some (mkRoomMedia (rm_video room) playbackState),
                [(SocketTo rc sid, youtube_control_state playbackState)])
      end
  end.

(** [socket.on('delete-video', ...)], without a [try] as well. *)
Definition on_delete_video (sk : Socket) (found : option RoomMedia)
  : option (option RoomMedia * list MediaEmit) :=
  match inRoomAsOwner sk with
  | None => Some (found, [])
  | Some (rc, u) =>
      match found with
      | None => None
      | Some room =>
          Some (Some (mkRoomMedia None initialPlayback), [(IoTo rc, video_deleted)])
      end
  end.

(** Ann opens a room and then joins it again from the same connection,
    spelling the code in lower case. *)
Definition owner_rejoins_in_lower_case : list (Env * Input) :=
  [at_time 0 (Connection "a");
   at_time_drawing 1 ["0.abc123xyz"]
     (Client "a" (create_room "Ann" None "room" None));
   at_time 2 (Client "a" (join_room "abc123" "Ann" None None))].

(** What [create-room] and [join-room] store for the caller: the record
    [newUser] builds when the name is made of ASCII characters, and for any
    name a record with these fields, a colour of the palette and the photo
    the client sent when it sent one. *)
Definition entered_as (sid : SocketId) (userName : string)
  (userPhoto : option string) (isOwner : bool) (user : User) : Prop :=
  u_id user = sid /\ u_userName user = userName /\ u_isOwner user = isOwner
  /\ u_userColor user ∈ colors
  /\ (forall photo, js_or_null userPhoto = Some photo ->
        u_userPhoto user = PhotoGiven photo)
  /\ (ascii_only userName = true -> user = newUser sid userName userPhoto isOwner).

(** A participant whose display name is [__proto__] opens a room and posts
    a message. *)
Definition proto_member : list (Env * Input) :=
  [at_time 0 (Connection "p");
   at_time_drawing 1 ["0.abc123xyz"]
     (Client "p" (create_room "__proto__" None "room" None));
   at_time_drawing 10 ["0.k3x9q7"]
     (Client "p" (post_message (Some "hello") None None None None))].

(** The grant of a room once the socket [sid] has left it:
    [if (room.screenSharing && room.screenSharing.socketId === socket.id)
       room.screenSharing = null;] *)
Definition grantAfterLeaving (sid : SocketId) (grant : option ScreenShareGrant)
  : option ScreenShareGrant :=
  match grant with
  | Some g => if bool_decide (g_socketId g = sid) then None else Some g
  | None => None
  end.

(** * Properties *)

(** ** The primitives on sample values *)

Example generateRoomCode_six : generateRoomCode "0.abc123xyz" = "ABC123"%string.
Proof. reflexivity. Qed.

Example generateRoomCode_short : generateRoomCode "0.i" = "I"%string.
Proof. reflexivity. Qed.

Example generateUserColor_Cy : generateUserColor "Cy" = "#96CEB4"%string.
Proof. reflexivity. Qed.

Example progressPercent_third : progressPercent 1 3 = Some 33.
Proof. vm_compute. reflexivity. Qed.

Example progressPercent_eighth : progressPercent 1 8 = Some 13.
Proof. vm_compute. reflexivity. Qed.

(** 29 / 200 * 100 is 14.499999999999998 in binary64. *)
Example progressPercent_binary64 : progressPercent 29 200 = Some 14.
Proof. vm_compute. reflexivity. Qed.

Example progressPercent_empty_room : progressPercent 1 0 = None.
Proof. vm_compute. reflexivity. Qed.

(** ** The insertion-ordered map *)

Section JsMapFacts.
Context {K V : Type} `{EqDecision K}.
Implicit Types (k : K) (v : V) (m : JsMap K V).

Lemma jm_get_set k k' v m :
  jm_get k' (jm_set k v m) = if decide (k = k') then Some v else jm_get k' m.
Proof.
  induction m as [|[k0 v0] m IH]; simpl.
  - destruct (decide (k' = k)), (decide (k = k')); congruence.
  - destruct (decide (k = k0)) as [->|Hk]; simpl.
    + destruct (decide (k' = k0)), (decide (k0 = k')); congruence.
    + destruct (decide (k' = k0)) as [->|Hk'].
      * destruct (decide (k = k0)); congruence.
      * exact IH.
Qed.

Lemma jm_get_set_eq k v m : jm_get k (jm_set k v m) = Some v.
Proof. rewrite jm_get_set. by destruct (decide (k = k)). Qed.

Lemma jm_get_set_ne k k' v m : k <> k' -> jm_get k' (jm_set k v m) = jm_get k' m.
Proof. intros. rewrite jm_get_set. by destruct (decide (k = k')). Qed.

Lemma jm_get_delete k k' m :
  jm_get k' (jm_delete k m) = if decide (k = k') then None else jm_get k' m.
Proof.
  induction m as [|[k0 v0] m IH]; simpl.
  - by destruct (decide (k = k')).
  - destruct (decide (k = k0)) as [->|Hk]; simpl.
    + rewrite IH. destruct (decide (k0 = k')), (decide (k' = k0)); congruence.
    + destruct (decide (k' = k0)) as [->|Hk'].
      * destruct (decide (k = k0)); congruence.
      * exact IH.
Qed.

Lemma jm_get_delete_eq k m : jm_get k (jm_delete k m) = None.
Proof. rewrite jm_get_delete. by destruct (decide (k = k)). Qed.

Lemma jm_get_delete_ne k k' m : k <> k' -> jm_get k' (jm_delete k m) = jm_get k' m.
Proof. intros. rewrite jm_get_delete. by destruct (decide (k = k')). Qed.

Lemma jm_set_same k v m : jm_get k m = Some v -> jm_set k v m = m.
Proof.
  induction m as [|[k0 v0] m IH]; simpl; [done|].
  destruct (decide (k = k0)) as [->|Hk]; [congruence|].
  intros E. by rewrite IH.
Qed.

Lemma jm_set_set k v v' m : jm_set k v (jm_set k v' m) = jm_set k v m.
Proof.
  induction m as [|[k0 v0] m IH]; simpl.
  - by destruct (decide (k = k)).
  - destruct (decide (k = k0)) as [->|Hk]; simpl.
    + by destruct (decide (k0 = k0)).
    + destruct (decide (k = k0)); [done|]. by rewrite IH.
Qed.

Lemma jm_get_keys k m : is_Some (jm_get k m) -> k ∈ jm_keys m.
Proof.
  induction m as [|[k0 v0] m IH]; simpl.
  - by intros [? ?].
  - destruct (decide (k = k0)) as [->|Hk]; intros Hs.
    + apply list_elem_of_here.
    + apply list_elem_of_further, IH, Hs.
Qed.

Lemma jm_has_true k m : jm_has k m = true <-> is_Some (jm_get k m).
Proof.
  unfold jm_has. destruct (jm_get k m); split; eauto; try done.
Qed.

Lemma jm_has_false k m : jm_has k m = false <-> jm_get k m = None.
Proof. unfold jm_has. destruct (jm_get k m); split; congruence. Qed.

End JsMapFacts.

(** Folding a per-key visit: if the visit of [k0] establishes [Q] from [P],
    other visits keep [P] or establish [Q], and nothing undoes [Q], the fold
    ends in [Q]. *)
Lemma fold_left_visit {S K} `{EqDecision K} (f : S -> K -> S) (P Q : S -> Prop)
  k0 keys s :
  (forall s k, k <> k0 -> P s -> P (f s k) \/ Q (f s k)) ->
  (forall s k, Q s -> Q (f s k)) ->
  (forall s, P s -> Q (f s k0)) ->
  k0 ∈ keys -> P s -> Q (fold_left f keys s).
Proof.
  intros HP HQ HPQ.
  assert (HQs : forall ks s', Q s' -> Q (fold_left f ks s')).
  { induction ks as [|k ks IH]; simpl; eauto. }
  revert s. induction keys as [|k keys IH]; intros s Hin Hs.
  - by apply elem_of_nil in Hin.
  - simpl. destruct (decide (k = k0)) as [->|Hne].
    + apply HQs, HPQ, Hs.
    + apply elem_of_cons in Hin as [Heq|Hin]; [congruence|].
      destruct (HP s k Hne Hs) as [HP'|HQ']; [by apply IH|by apply HQs].
Qed.

Lemma fold_left_keeps {S K} (f : S -> K -> S) (P : S -> Prop) keys s :
  (forall s k, P s -> P (f s k)) -> P s -> P (fold_left f keys s).
Proof.
  intros HP. revert s. induction keys as [|k keys IH]; simpl; eauto.
Qed.

(** ** Frame facts for [disconnect] *)

Lemma disconnectCall_frame sid st :
  let st' := (disconnectCall sid st).1 in
  rooms st' = rooms st /\ users st' = users st /\ messages st' = messages st
  /\ connectionMonitor st' = connectionMonitor st /\ sockets st' = sockets st
  /\ timeouts st' = timeouts st /\ userPlaylists st' = userPlaylists st
  /\ screenShareRequests st' = screenShareRequests st.
Proof. unfold disconnectCall. repeat case_match; simpl; auto 10. Qed.

Lemma disconnectScreenShare_frame v sid sk st :
  let st' := (disconnectScreenShare v sid sk st).1 in
  users st' = users st /\ messages st' = messages st
  /\ connectionMonitor st' = connectionMonitor st /\ sockets st' = sockets st
  /\ timeouts st' = timeouts st /\ activeCalls st' = activeCalls st
  /\ userPlaylists st' = userPlaylists st
  /\ screenShareRequests st' = screenShareRequests st.
Proof. unfold disconnectScreenShare. repeat case_match; simpl; auto 10. Qed.

Lemma disconnectRoom_frame env sid sk st :
  let st' := (disconnectRoom env sid sk st).1 in
  messages st' = messages st /\ connectionMonitor st' = connectionMonitor st
  /\ sockets st' = sockets st /\ activeCalls st' = activeCalls st
  /\ userPlaylists st' = userPlaylists st.
Proof. unfold disconnectRoom. repeat case_match; simpl; auto 10. Qed.

Lemma on_disconnect_frame v env sid sk st :
  let st' := (on_disconnect v env sid sk st).1 in
  connectionMonitor st' = jm_delete sid (connectionMonitor st)
  /\ sockets st' = jm_delete sid (sockets st)
  /\ messages st' = messages st
  /\ userPlaylists st' = userPlaylists st.
Proof.
  unfold on_disconnect.
  set (st1 := set_connectionMonitor _ _).
  pose proof (disconnectCall_frame sid st1) as H2.
  destruct (disconnectCall sid st1) as [st2 out2].
  pose proof (disconnectScreenShare_frame v sid sk st2) as H3.
  destruct (disconnectScreenShare v sid sk st2) as [st3 out3].
  pose proof (disconnectRoom_frame env sid sk st3) as H4.
  destruct (disconnectRoom env sid sk st3) as [st4 out4].
  simpl in *.
  destruct H2 as (_ & _ & M2 & C2 & S2 & _ & P2 & _).
  destruct H3 as (_ & M3 & C3 & S3 & _ & _ & P3 & _).
  destruct H4 as (M4 & C4 & S4 & _ & P4).
  rewrite C4, C3, C2, S4, S3, S2, M4, M3, M2, P4, P3, P2. done.
Qed.

(** ** The liveness monitor *)

Lemma healthCheckEntry_other v env acc k sid :
  k <> sid ->
  jm_get sid (connectionMonitor (healthCheckEntry v env acc k).1)
  = jm_get sid (connectionMonitor acc.1)
  /\ jm_get sid (sockets (healthCheckEntry v env acc k).1)
     = jm_get sid (sockets acc.1).
Proof.
  intros Hne. destruct acc as [st out]. unfold healthCheckEntry.
  destruct (jm_get k (connectionMonitor st)) as [conn|]; [|done].
  destruct (timedOut (now env) conn); [|done].
  destruct (jm_get k (sockets st)) as [sk|]; simpl.
  - pose proof (on_disconnect_frame v env k sk st) as (C & S & _).
    destruct (on_disconnect v env k sk st) as [st1 out1]; simpl in *.
    rewrite C, S, !jm_get_delete_ne by done. done.
  - by rewrite jm_get_delete_ne.
Qed.

Lemma healthCheckEntry_gone v env acc k sid :
  jm_get sid (connectionMonitor acc.1) = None ->
  jm_get sid (sockets acc.1) = None ->
  jm_get sid (connectionMonitor (healthCheckEntry v env acc k).1) = None
  /\ jm_get sid (sockets (healthCheckEntry v env acc k).1) = None.
Proof.
  intros Hc Hs. destruct (decide (k = sid)) as [->|Hne].
  - destruct acc as [st out]. unfold healthCheckEntry. simpl in *.
    by rewrite Hc.
  - destruct (healthCheckEntry_other v env acc k sid Hne) as [-> ->]. done.
Qed.

Lemma healthCheckEntry_reaps v env acc sid conn :
  jm_get sid (connectionMonitor acc.1) = Some conn ->
  timedOut (now env) conn = true ->
  jm_get sid (connectionMonitor (healthCheckEntry v env acc sid).1) = None
  /\ jm_get sid (sockets (healthCheckEntry v env acc sid).1) = None.
Proof.
  intros Hc Ht. destruct acc as [st out]. unfold healthCheckEntry. simpl in *.
  rewrite Hc, Ht.
  destruct (jm_get sid (sockets st)) as [sk|] eqn:Hs; simpl.
  - pose proof (on_disconnect_frame v env sid sk st) as (C & S & _).
    destruct (on_disconnect v env sid sk st) as [st1 out1]; simpl in *.
    rewrite C, S, !jm_get_delete_eq. done.
  - by rewrite jm_get_delete_eq.
Qed.

Lemma healthCheckEntry_spares v env acc k sid conn :
  jm_get sid (connectionMonitor acc.1) = Some conn ->
  timedOut (now env) conn = false ->
  jm_get sid (connectionMonitor (healthCheckEntry v env acc k).1) = Some conn
  /\ jm_get sid (sockets (healthCheckEntry v env acc k).1)
     = jm_get sid (sockets acc.1).
Proof.
  intros Hc Ht. destruct (decide (k = sid)) as [->|Hne].
  - destruct acc as [st out]. unfold healthCheckEntry. simpl in *.
    by rewrite Hc, Ht.
  - destruct (healthCheckEntry_other v env acc k sid Hne) as [-> ->]. done.
Qed.

Lemma nextHealthCheck_bounds boot t :
  t < nextHealthCheck boot t <= t + HEALTH_PERIOD.
Proof.
  unfold nextHealthCheck, HEALTH_PERIOD.
  pose proof (Z.div_mod (t - boot) 20000 ltac:(lia)).
  pose proof (Z.mod_pos_bound (t - boot) 20000 ltac:(lia)).
  lia.
Qed.

(** C1, as stated, fails: the heartbeat timer stamps the record every ten
    seconds whether or not the client answers.  A client that connects at
    time 0 and never acknowledges anything is still connected, with its
    record in place, after the sweeps at 60 s and 80 s. *)
Lemma C1_silent_client_survives :
  Forall (fun ei => forall sid, ei.2 <> Client sid pong) silent_client
  /\ exists st conn,
       run ServerJs silent_client init = Some st
       /\ jm_get "s1" (connectionMonitor st) = Some conn
       /\ h_connectedAt conn = Some 0
       /\ h_lastPing conn = Some 80000
       /\ is_Some (jm_get "s1" (sockets st)).
Proof.
  split.
  - unfold silent_client, at_time. repeat constructor; simpl; congruence.
  - eexists _, _. split; [vm_compute; reflexivity|].
    split; [vm_compute; reflexivity|].
    repeat split; eauto.
Qed.

(** C1, amended.  The time stamp of a heartbeat record is refreshed by the
    client's acknowledgment and also by every probe the server sends on a
    connected socket.  A record whose time stamp [lastPing] is not refreshed
    any more is removed, and its socket disconnected, by the first sweep
    after [lastPing + 40 s], which runs at most 20 s after that instant; a
    sweep that runs while the time stamp is at most 40 s old keeps the record
    and the socket. *)
Theorem C1_stale_record_reaped_by_next_sweep
  (v : Revision) (st : State) (sid : SocketId) (conn : ConnectionHealth)
  (lastPing boot : Z) (draws : list string) :
  jm_get sid (connectionMonitor st) = Some conn ->
  h_lastPing conn = Some lastPing ->
  boot <= lastPing ->
  let T := nextHealthCheck boot (lastPing + PING_TIMEOUT) in
  let swept t := (startConnectionHealthCheck v (mkEnv t draws) st).1 in
  (exists k, 1 <= k /\ T = boot + k * HEALTH_PERIOD)
  /\ lastPing + PING_TIMEOUT < T <= lastPing + PING_TIMEOUT + HEALTH_PERIOD
  /\ jm_get sid (connectionMonitor (swept T)) = None
  /\ jm_get sid (sockets (swept T)) = None
  /\ (forall t, t - lastPing <= PING_TIMEOUT ->
        jm_get sid (connectionMonitor (swept t)) = Some conn
        /\ jm_get sid (sockets (swept t)) = jm_get sid (sockets st))
  /\ (forall env,
        h_lastPing <$> jm_get sid (connectionMonitor (on_pong env sid st).1)
        = Some (Some (now env)))
  /\ (forall env, is_Some (jm_get sid (sockets st)) ->
        h_lastPing <$> jm_get sid (connectionMonitor (pingInterval env sid st).1)
        = Some (Some (now env))).
Proof.
  intros Hc Hlp Hboot T swept.
  pose proof (nextHealthCheck_bounds boot (lastPing + PING_TIMEOUT)) as HT.
  fold T in HT.
  assert (Hreap :
    jm_get sid (connectionMonitor (swept T)) = None
    /\ jm_get sid (sockets (swept T)) = None).
  { unfold swept, startConnectionHealthCheck.
    apply (fold_left_visit (healthCheckEntry v (mkEnv T draws))
             (fun acc => jm_get sid (connectionMonitor acc.1) = Some conn)
             (fun acc => jm_get sid (connectionMonitor acc.1) = None
                         /\ jm_get sid (sockets acc.1) = None) sid).
    - intros acc k Hne HP. left.
      by destruct (healthCheckEntry_other v (mkEnv T draws) acc k sid Hne) as [-> _].
    - intros acc k [HQ1 HQ2]. by apply healthCheckEntry_gone.
    - intros acc HP. eapply healthCheckEntry_reaps; [exact HP|].
      unfold timedOut. rewrite Hlp. simpl. apply Z.ltb_lt. lia.
    - apply jm_get_keys. by rewrite Hc.
    - exact Hc. }
  split; [|split; [exact HT|split; [apply Hreap|split; [apply Hreap|]]]].
  - exists ((lastPing + PING_TIMEOUT - boot) / HEALTH_PERIOD + 1). split.
    + assert (0 <= (lastPing + PING_TIMEOUT - boot) / HEALTH_PERIOD); [|lia].
      apply Z.div_pos; unfold PING_TIMEOUT, HEALTH_PERIOD; lia.
    + unfold T, nextHealthCheck. lia.
  - split; [|split].
    + intros t Ht. unfold swept, startConnectionHealthCheck.
      apply (fold_left_keeps (healthCheckEntry v (mkEnv t draws))
               (fun acc => jm_get sid (connectionMonitor acc.1) = Some conn
                           /\ jm_get sid (sockets acc.1) = jm_get sid (sockets st))).
      * intros acc k [HP1 HP2].
        destruct (healthCheckEntry_spares v (mkEnv t draws) acc k sid conn HP1)
          as [E1 E2].
        { unfold timedOut. rewrite Hlp. simpl. apply Z.ltb_ge. lia. }
        by rewrite E1, E2.
      * done.
    + intros env. unfold on_pong, refreshPing. simpl. rewrite Hc. simpl.
      by rewrite jm_get_set_eq.
    + intros env Hs. unfold pingInterval.
      apply jm_has_true in Hs. rewrite Hs. unfold refreshPing. simpl.
      rewrite Hc. simpl. by rewrite jm_get_set_eq.
Qed.

Lemma C1_stale_record_reaped_witness :
  let st := (on_connection (mkEnv 0 []) "s1" init).1 in
  jm_get "s1" (connectionMonitor
                 (startConnectionHealthCheck ServerJs (mkEnv 60000 []) st).1) = None
  /\ jm_get "s1" (sockets
                    (startConnectionHealthCheck ServerJs (mkEnv 60000 []) st).1) = None.
Proof.
  intros st.
  destruct (C1_stale_record_reaped_by_next_sweep ServerJs st "s1"
              (mkHealth "Anonymous" None (Some 0) (Some 0)) 0 0 [])
    as (_ & _ & Hc & Hs & _).
  - reflexivity.
  - reflexivity.
  - lia.
  - split; [exact Hc|exact Hs].
Defined.

(** ** Runs and reachable states *)

Lemma run_reachable v schedule st st' :
  reachable v st -> run v schedule st = Some st' -> reachable v st'.
Proof.
  revert st. induction schedule as [|[env i] schedule IH]; simpl; intros st Hr Hrun.
  - congruence.
  - destruct (step v env i st) as [[st1 out]|] eqn:Hstep; [|done].
    eapply IH; [|exact Hrun]. eapply reachable_step; eauto.
Qed.

(** ** The call index *)

Lemma dropCall_calls cd st k :
  jm_get k (activeCalls (dropCall cd st))
  = if decide (k = c_callerSocketId cd \/ k = c_targetSocketId cd) then None
    else jm_get k (activeCalls st).
Proof.
  unfold dropCall. simpl. rewrite !jm_get_delete.
  destruct (decide (c_targetSocketId cd = k)), (decide (c_callerSocketId cd = k)),
    (decide (k = c_callerSocketId cd \/ k = c_targetSocketId cd));
    try done; intuition congruence.
Qed.

Lemma dropCall_paired cd st :
  jm_get (c_callerSocketId cd) (activeCalls st) = Some cd
  \/ jm_get (c_targetSocketId cd) (activeCalls st) = Some cd ->
  calls_paired (activeCalls st) -> calls_paired (activeCalls (dropCall cd st)).
Proof.
  intros Hcd Hp k cd'. rewrite !dropCall_calls.
  case_decide as Hk; [done|]. intros Hget.
  destruct (Hp k cd' Hget) as (Hside & Hcaller & Htarget).
  assert (Hcd0 : jm_get (c_callerSocketId cd) (activeCalls st) = Some cd
                 /\ jm_get (c_targetSocketId cd) (activeCalls st) = Some cd).
  { destruct Hcd as [H|H]; destruct (Hp _ _ H) as (_ & ? & ?); done. }
  destruct Hcd0 as [Hc0 Ht0].
  assert (Hne : cd' <> cd).
  { intros ->. tauto. }
  split; [done|]. split.
  - case_decide as Hk'; [|done]. exfalso.
    destruct Hk' as [E|E]; rewrite E in Hcaller; congruence.
  - case_decide as Hk'; [|done]. exfalso.
    destruct Hk' as [E|E]; rewrite E in Htarget; congruence.
Qed.

(** C2, as stated, fails: [start-call] never looks at the index before it
    writes, so a second caller overwrites the entry of a callee who is
    already ringing.  In the reachable state below two different records
    name Bob's connection, and after Ann ends her call Cy's record is left
    without its counterpart. *)
Lemma C2_second_caller_leaves_half_call :
  let st := state_after ServerJs busy_callee in
  let st' :=
    state_after ServerJs (busy_callee ++ [at_time 6 (Client "a" (end_call None))]) in
  reachable ServerJs st
  /\ ((fun cd => (c_callerSocketId cd, c_targetSocketId cd))
       <$> jm_get "a" (activeCalls st)) = Some ("a", "b")
  /\ ((fun cd => (c_callerSocketId cd, c_targetSocketId cd))
       <$> jm_get "b" (activeCalls st)) = Some ("c", "b")
  /\ ((fun cd => (c_callerSocketId cd, c_targetSocketId cd))
       <$> jm_get "c" (activeCalls st)) = Some ("c", "b")
  /\ ~ calls_paired (activeCalls st)
  /\ reachable ServerJs st'
  /\ ((fun cd => (c_callerSocketId cd, c_targetSocketId cd))
       <$> jm_get "c" (activeCalls st')) = Some ("c", "b")
  /\ jm_get "b" (activeCalls st') = None
  /\ ~ calls_paired (activeCalls st').
Proof.
  intros st st'.
  assert (Hst : run ServerJs busy_callee init = Some st) by (vm_compute; reflexivity).
  assert (Hst' : run ServerJs
                   (busy_callee ++ [at_time 6 (Client "a" (end_call None))]) init
                 = Some st') by (vm_compute; reflexivity).
  split; [eapply run_reachable; [apply reachable_init|exact Hst]|].
  split; [vm_compute; reflexivity|].
  split; [vm_compute; reflexivity|].
  split; [vm_compute; reflexivity|].
  split.
  { intros Hp.
    destruct (Hp "a" (mkCallData "a" "Ann" "b" "Bob" "video" (Some "ABC123") 4
                        "ringing")) as (_ & _ & Hb); [vm_compute; reflexivity|].
    vm_compute in Hb. discriminate Hb. }
  split; [eapply run_reachable; [apply reachable_init|exact Hst']|].
  split; [vm_compute; reflexivity|].
  split; [vm_compute; reflexivity|].
  intros Hp.
  destruct (Hp "c" (mkCallData "c" "Cy" "b" "Bob" "video" (Some "ABC123") 5
                      "ringing")) as (_ & _ & Hb); [vm_compute; reflexivity|].
  vm_compute in Hb. discriminate Hb.
Qed.

(** C2, amended.  [end-call] and [reject-call], issued by a connection that
    has an entry in the call index, remove in one step the entries under both
    the caller's and the callee's identity of that entry's record and touch
    no other entry; if the index held whole calls only, it still does.
    (That the index holds whole calls only is not maintained by
    [start-call].) *)
Theorem C2_end_and_reject_clear_both_entries
  (env : Env) (sid : SocketId) (sk : Socket) (cd : CallData) (st : State)
  (targetSocketId : option string) (callerSocketId : string) :
  jm_get sid (activeCalls st) = Some cd ->
  forall st',
    st' = (on_end_call env sid sk targetSocketId st).1
    \/ st' = (on_reject_call env sid sk callerSocketId st).1 ->
    jm_get (c_callerSocketId cd) (activeCalls st') = None
    /\ jm_get (c_targetSocketId cd) (activeCalls st') = None
    /\ (forall k, k <> c_callerSocketId cd -> k <> c_targetSocketId cd ->
          jm_get k (activeCalls st') = jm_get k (activeCalls st))
    /\ (calls_paired (activeCalls st) -> calls_paired (activeCalls st')).
Proof.
  intros Hcd st' Hst'.
  assert (E : st' = dropCall cd st).
  { destruct Hst' as [->| ->]; unfold on_end_call, on_reject_call;
      rewrite Hcd; reflexivity. }
  subst st'. split; [|split; [|split]].
  - rewrite dropCall_calls. destruct (decide _); [done|tauto].
  - rewrite dropCall_calls. destruct (decide _); [done|tauto].
  - intros k H1 H2. rewrite dropCall_calls. destruct (decide _); [tauto|done].
  - intros Hp. apply dropCall_paired; [|done].
    destruct (Hp _ _ Hcd) as (_ & ? & ?). by left.
Qed.

Lemma C2_end_and_reject_clear_both_witness :
  let st := state_after ServerJs ringing in
  jm_get "a" (activeCalls (on_end_call (mkEnv 9 []) "a" (mkSocket None None) None st).1)
  = None
  /\ jm_get "b" (activeCalls (on_end_call (mkEnv 9 []) "a" (mkSocket None None) None st).1)
     = None.
Proof.
  intros st.
  destruct (C2_end_and_reject_clear_both_entries (mkEnv 9 []) "a"
              (mkSocket None None)
              (mkCallData "a" "Ann" "b" "Bob" "video" (Some "ABC123") 4 "ringing")
              st None "b") with
    (st' := (on_end_call (mkEnv 9 []) "a" (mkSocket None None) None st).1)
    as (Ha & Hb & _).
  - vm_compute. reflexivity.
  - left. reflexivity.
  - split; [exact Ha|exact Hb].
Defined.

(** ** The message store *)

Lemma set_messages_same st : set_messages (messages st) st = st.
Proof. by destruct st. Qed.

Lemma findIndex_Some {A} (p : A -> bool) l i :
  findIndex p l = Some i -> exists x, l !! i = Some x /\ p x = true.
Proof.
  revert i. induction l as [|y l IH]; simpl; intros i; [done|].
  destruct (p y) eqn:Hp.
  - intros [= <-]. eauto.
  - destruct (findIndex p l) as [j|]; simpl; [|done].
    intros [= <-]. simpl. eauto.
Qed.

(** Replacing an element by one the predicate judges alike does not move
    what [findIndex] finds. *)
Lemma findIndex_insert {A} (p : A -> bool) l i x y :
  l !! i = Some x -> p y = p x -> findIndex p (<[i := y]> l) = findIndex p l.
Proof.
  revert i. induction l as [|z l IH]; intros [|i]; simpl; try done.
  - intros [= ->] ->. done.
  - intros Hl Hp. by rewrite (IH i Hl Hp).
Qed.

Lemma addressed_Some rc messageId st i m :
  addressed rc messageId st = Some (i, m) <->
  findIndex (hasId messageId) (default [] (jm_get rc (messages st))) = Some i
  /\ default [] (jm_get rc (messages st)) !! i = Some m.
Proof.
  unfold addressed.
  destruct (findIndex _ _) as [j|] eqn:Hf; [|split; [done|by intros [? _]]].
  destruct (findIndex_Some _ _ _ Hf) as (x & Hx & _). rewrite Hx. simpl.
  split.
  - intros [= -> ->]. done.
  - intros [[= ->] E]. rewrite E in Hx. congruence.
Qed.

Lemma addressed_None rc messageId st :
  addressed rc messageId st = None <->
  findIndex (hasId messageId) (default [] (jm_get rc (messages st))) = None.
Proof.
  unfold addressed.
  destruct (findIndex _ _) as [j|] eqn:Hf; [|done].
  destruct (findIndex_Some _ _ _ Hf) as (x & Hx & _). rewrite Hx. done.
Qed.

Lemma addressed_log rc messageId st i m :
  addressed rc messageId st = Some (i, m) ->
  exists log, jm_get rc (messages st) = Some log /\ log !! i = Some m
              /\ m_id m = messageId.
Proof.
  intros Ha. apply addressed_Some in Ha as [Hf Hl].
  destruct (findIndex_Some _ _ _ Hf) as (x & Hx & Hp).
  assert (x = m) as -> by congruence.
  apply bool_decide_eq_true in Hp.
  destruct (jm_get rc (messages st)) as [log|]; simpl in *; [eauto|done].
Qed.

(** After a write-back that keeps the identifier, the same event addresses
    the written message. *)
Lemma addressed_storeAt rc messageId st i m m' :
  addressed rc messageId st = Some (i, m) -> m_id m' = m_id m ->
  addressed rc messageId (storeAt rc i m' st) = Some (i, m').
Proof.
  intros Ha Hid. apply addressed_Some in Ha as [Hf Hl].
  apply addressed_Some. unfold storeAt. simpl. rewrite jm_get_set_eq. simpl.
  split.
  - rewrite (findIndex_insert _ _ i m m'); [done|done|].
    unfold hasId. by rewrite Hid.
  - apply list_lookup_insert_eq. by eapply lookup_lt_Some.
Qed.

(** Writing a message back over a write-back is one write-back. *)
Lemma storeAt_storeAt rc i m1 m2 st :
  storeAt rc i m2 (storeAt rc i m1 st) = storeAt rc i m2 st.
Proof.
  unfold storeAt. simpl. rewrite jm_get_set_eq. simpl.
  rewrite list_insert_insert_eq, jm_set_set. done.
Qed.

Lemma storeAt_same rc messageId i m st :
  addressed rc messageId st = Some (i, m) -> storeAt rc i m st = st.
Proof.
  intros Ha. destruct (addressed_log _ _ _ _ _ Ha) as (log & Hlog & Hl & _).
  unfold storeAt. rewrite Hlog. simpl.
  rewrite list_insert_id by done. rewrite jm_set_same by done.
  apply set_messages_same.
Qed.

(** C3.  An [edit-message] or [delete-message] event from a participant of
    a room addresses the first message of that room's log carrying the
    given identifier.  If the participant's name equals the author name of
    that message the message is rewritten (new text, edited flag and edit
    time; or deleted flag and delete time) and nothing else changes; if the
    names differ, or no message carries the identifier, or the caller is in
    no room, the state is unchanged and nothing is sent. *)
Theorem C3_only_the_author_edits_or_deletes
  (env : Env) (sid : SocketId) (sk : Socket) (messageId newText : string)
  (st : State) :
  let edit := on_edit_message env sid sk messageId newText st in
  let del := on_delete_message env sid sk messageId st in
  (inRoom sk = None -> edit = (st, []) /\ del = (st, []))
  /\ forall rc u, inRoom sk = Some (rc, u) ->
      let log := default [] (jm_get rc (messages st)) in
      match findIndex (hasId messageId) log with
      | Some i =>
          exists m, log !! i = Some m /\ m_id m = messageId /\
            if decide (m_userName m = u_userName u) then
              (exists m',
                 edit.1 = set_messages (jm_set rc (<[i := m']> log) (messages st)) st
                 /\ m_text m' = Some newText /\ m_edited m' = true
                 /\ m_editTime m' = Some (now env)
                 /\ m_id m' = m_id m /\ m_userName m' = m_userName m
                 /\ m_deleted m' = m_deleted m /\ m_reactions m' = m_reactions m
                 /\ m_seenBy m' = m_seenBy m)
              /\ (exists m',
                    del.1 = set_messages (jm_set rc (<[i := m']> log) (messages st)) st
                    /\ m_deleted m' = true /\ m_deletedTime m' = Some (now env)
                    /\ m_text m' = m_text m /\ m_edited m' = m_edited m
                    /\ m_id m' = m_id m /\ m_userName m' = m_userName m
                    /\ m_reactions m' = m_reactions m /\ m_seenBy m' = m_seenBy m)
            else edit = (st, []) /\ del = (st, [])
      | None => edit = (st, []) /\ del = (st, [])
      end.
Proof.
  intros edit del. unfold edit, del, on_edit_message, on_delete_message.
  split; [by intros ->|].
  intros rc u Hin. rewrite Hin.
  set (log := default [] (jm_get rc (messages st))).
  destruct (findIndex (hasId messageId) log) as [i|] eqn:Hf.
  - destruct (findIndex_Some _ _ _ Hf) as (m & Hm & Hp).
    apply bool_decide_eq_true in Hp.
    assert (Ha : addressed rc messageId st = Some (i, m))
      by (apply addressed_Some; done).
    rewrite Ha. exists m. split; [done|]. split; [done|].
    destruct (decide (m_userName m = u_userName u)) as [Hn|Hn].
    + rewrite (bool_decide_eq_true_2 _ Hn). split.
      * exists (editMessage newText (now env) m). simpl. by repeat split.
      * exists (deleteMessage (now env) m). simpl. by repeat split.
    + rewrite (bool_decide_eq_false_2 _ Hn). done.
  - assert (Ha : addressed rc messageId st = None) by (by apply addressed_None).
    rewrite Ha. done.
Qed.

Lemma C3_only_the_author_edits_witness :
  let st := state_after ServerJs one_message in
  let sk := mkSocket (Some ann) (Some "ABC123") in
  let log := default [] (jm_get "ABC123" (messages st)) in
  inRoom sk = Some ("ABC123", ann)
  /\ exists m',
       (on_edit_message (mkEnv 20 []) "a" sk "10k3x9q" "hi" st).1
       = set_messages (jm_set "ABC123" (<[0%nat := m']> log) (messages st)) st
       /\ m_text m' = Some "hi" /\ m_edited m' = true.
Proof.
  intros st sk log. split; [reflexivity|].
  pose proof (proj2 (C3_only_the_author_edits_or_deletes (mkEnv 20 []) "a" sk
                       "10k3x9q" "hi" st) "ABC123" ann eq_refl) as H.
  cbv zeta in H. fold log in H.
  assert (Hf : findIndex (hasId "10k3x9q") log = Some 0%nat)
    by (vm_compute; reflexivity).
  rewrite Hf in H. destruct H as (m & Hm & _ & H).
  assert (Hn : m_userName m = u_userName ann).
  { assert (E : m_userName <$> log !! 0%nat = Some "Ann") by (vm_compute; reflexivity).
    rewrite Hm in E. simpl in E. injection E as E. exact E. }
  destruct (decide (m_userName m = u_userName ann)) as [_|Hne]; [|contradiction].
  destruct H as [(m' & He & Ht & Hed & _) _].
  exists m'. split; [exact He|]. split; [exact Ht|exact Hed].
Defined.

(** ** Reactions *)

Lemma toggleReaction_other userName reaction r other :
  other <> userName -> toggleReaction userName reaction r !! other = r !! other.
Proof.
  intros Hne. unfold toggleReaction.
  destruct (bool_decide _); [by rewrite lookup_delete_ne|].
  destruct (bool_decide _); [done|by rewrite lookup_insert_ne].
Qed.

Lemma toggleReaction_same userName reaction r :
  r !! userName = Some reaction ->
  toggleReaction userName reaction r = delete userName r.
Proof. intros H. unfold toggleReaction. by rewrite bool_decide_eq_true_2. Qed.

Lemma toggleReaction_different userName reaction r :
  userName <> "__proto__"%string ->
  r !! userName <> Some reaction ->
  toggleReaction userName reaction r = <[userName := reaction]> r.
Proof.
  intros Hname H. unfold toggleReaction.
  rewrite (bool_decide_eq_false_2 _ H).
  by rewrite bool_decide_eq_false_2 by tauto.
Qed.

Lemma toggleReaction_twice userName reaction r :
  userName <> "__proto__"%string ->
  r !! userName = Some reaction \/ r !! userName = None ->
  toggleReaction userName reaction (toggleReaction userName reaction r) = r.
Proof.
  intros Hname [H|H].
  - rewrite (toggleReaction_same _ _ r H).
    rewrite toggleReaction_different by (by rewrite ?lookup_delete_eq).
    by apply insert_delete_id.
  - rewrite (toggleReaction_different _ _ r) by (by rewrite ?H).
    rewrite toggleReaction_same by (by rewrite lookup_insert_eq).
    by apply delete_insert_id.
Qed.

(** Under the name [__proto__] nothing is recorded. *)
Lemma toggleReaction_proto reaction r :
  r !! "__proto__"%string = None -> toggleReaction "__proto__" reaction r = r.
Proof.
  intros H. unfold toggleReaction.
  rewrite bool_decide_eq_false_2 by (by rewrite H).
  by rewrite bool_decide_eq_true_2.
Qed.

Lemma setReactions_same m : setReactions (m_reactions m) m = m.
Proof. by destruct m. Qed.

Lemma setReactions_setReactions r1 r2 m :
  setReactions r2 (setReactions r1 m) = setReactions r2 m.
Proof. done. Qed.

(** C8.  The claim holds for every participant but one.  The reactions of
    a message are kept in a plain object, and for a participant whose display
    name is [__proto__] the assignment [reactions[userName] = reaction] is
    swallowed by the setter of [Object.prototype]: in the reachable state
    below that participant reacts to a message that has no reaction yet, and
    afterwards the message still has none, where the claim has the symbol
    recorded for the participant; the broadcast carries the empty map.  The
    seen-set of the same message, an array, does hold that name. *)
Lemma C8_proto_name_records_no_reaction :
  let st := state_after ServerJs proto_member in
  let sk := mkSocket (Some (newUser "p" "__proto__" None true)) (Some "ABC123"%string) in
  let reacted := on_message_reaction (mkEnv 30 []) "p" sk "10k3x9q" "+1" st in
  reachable ServerJs st
  /\ jm_get "p" (sockets st) = Some sk
  /\ (exists m, addressed "ABC123" "10k3x9q" st = Some (0%nat, m)
                /\ m_reactions m = ∅ /\ m_seenBy m = ["__proto__"%string])
  /\ (exists m1, addressed "ABC123" "10k3x9q" reacted.1 = Some (0%nat, m1)
                 /\ m_reactions m1 !! "__proto__"%string = None)
  /\ reacted.2 = [(IoTo "ABC123", message_reaction_updated "10k3x9q" ∅)].
Proof.
  intros st sk reacted.
  split.
  { apply (run_reachable ServerJs proto_member init); [apply reachable_init|].
    vm_compute. reflexivity. }
  split; [vm_compute; reflexivity|].
  split; [eexists; repeat split; vm_compute; reflexivity|].
  split; [eexists; split; vm_compute; reflexivity|].
  vm_compute. reflexivity.
Qed.

(** X28.  A [message-reaction] event from a participant of a room whose
    display name is not [__proto__], naming a message of the room's log,
    changes only that participant's entry in the message's reaction map.  If
    the entry already holds the symbol sent, the entry is removed, and
    sending the same event once more puts the store back as it was;
    otherwise the entry becomes the symbol sent, replacing any other symbol.
    In both cases the participant is left with at most the one symbol just
    sent. *)
Theorem reaction_toggles_or_replaces
  (env : Env) (sid : SocketId) (sk : Socket) (rc : string) (u : User)
  (messageId reaction : string) (i : nat) (m : Message) (st : State) :
  inRoom sk = Some (rc, u) ->
  addressed rc messageId st = Some (i, m) ->
  u_userName u <> "__proto__"%string ->
  let st1 := (on_message_reaction env sid sk messageId reaction st).1 in
  let st2 := (on_message_reaction env sid sk messageId reaction st1).1 in
  exists m1,
    addressed rc messageId st1 = Some (i, m1)
    /\ (forall other, other <> u_userName u ->
          m_reactions m1 !! other = m_reactions m !! other)
    /\ (m_reactions m !! u_userName u = Some reaction ->
          m_reactions m1 !! u_userName u = None /\ st2 = st)
    /\ (m_reactions m !! u_userName u <> Some reaction ->
          m_reactions m1 !! u_userName u = Some reaction)
    /\ (m_reactions m !! u_userName u = None -> st2 = st)
    /\ (forall s, m_reactions m1 !! u_userName u = Some s -> s = reaction).
Proof.
  intros Hin Ha Hname st1 st2.
  set (name := u_userName u) in *.
  set (m1 := setReactions (toggleReaction name reaction (m_reactions m)) m).
  assert (E1 : st1 = storeAt rc i m1 st).
  { unfold st1, on_message_reaction. rewrite Hin, Ha. reflexivity. }
  assert (Ha1 : addressed rc messageId st1 = Some (i, m1)).
  { rewrite E1. by apply (addressed_storeAt rc messageId st i m m1). }
  assert (E2 : st2 = storeAt rc i
                       (setReactions
                          (toggleReaction name reaction
                             (toggleReaction name reaction (m_reactions m))) m) st).
  { unfold st2, on_message_reaction. rewrite Hin, Ha1. simpl.
    rewrite E1, storeAt_storeAt. reflexivity. }
  assert (Hback : m_reactions m !! name = Some reaction \/ m_reactions m !! name = None ->
                  st2 = st).
  { intros H. rewrite E2, toggleReaction_twice by done.
    rewrite setReactions_same. by eapply storeAt_same. }
  exists m1. split; [exact Ha1|]. split; [|split; [|split; [|split]]].
  - intros other Hne. simpl. by apply toggleReaction_other.
  - intros H. split; [|by apply Hback; left].
    simpl. rewrite toggleReaction_same by done. apply lookup_delete_eq.
  - intros H. simpl. rewrite toggleReaction_different by done.
    apply lookup_insert_eq.
  - intros H. apply Hback. by right.
  - intros s. simpl.
    destruct (decide (m_reactions m !! name = Some reaction)) as [H|H].
    + rewrite toggleReaction_same by done. by rewrite lookup_delete_eq.
    + rewrite toggleReaction_different by done. rewrite lookup_insert_eq. congruence.
Qed.

Lemma reaction_toggles_witness :
  let st := state_after ServerJs one_message in
  let sk := mkSocket (Some bob) (Some "ABC123") in
  let st1 := (on_message_reaction (mkEnv 30 []) "b" sk "10k3x9q" "+1" st).1 in
  exists m1,
    addressed "ABC123" "10k3x9q" st1 = Some (0%nat, m1)
    /\ m_reactions m1 !! "Bob" = Some "+1".
Proof.
  intros st sk st1.
  assert (Hm : exists m, addressed "ABC123" "10k3x9q" st = Some (0%nat, m)
                         /\ m_reactions m = ∅).
  { eexists. split; vm_compute; reflexivity. }
  destruct Hm as (m & Ha & Hr).
  destruct (reaction_toggles_or_replaces (mkEnv 30 []) "b" sk "ABC123" bob
              "10k3x9q" "+1" 0 m st eq_refl Ha)
    as (m1 & Ha1 & _ & _ & Hset & _).
  - vm_compute. discriminate.
  - exists m1. split; [exact Ha1|].
    apply Hset. rewrite Hr. rewrite lookup_empty. discriminate.
Defined.

(** ** What each handler leaves alone *)

Ltac by_cases := intros; repeat case_match; simpl in *; try done.

(** From [h ... = (st', out)] to [st'] being the state [h] computes. *)
Ltac pin_state :=
  match goal with
  | H : _ = (?s, ?o) |- _ => apply (f_equal fst) in H; simpl in H; subst s
  end.

Lemma noteRoom_frame sid userName roomCode st :
  rooms (noteRoom sid userName roomCode st) = rooms st
  /\ messages (noteRoom sid userName roomCode st) = messages st.
Proof. done. Qed.

Lemma refreshPing_frame t sid st :
  rooms (refreshPing t sid st) = rooms st
  /\ messages (refreshPing t sid st) = messages st.
Proof. unfold refreshPing. by_cases. Qed.

Lemma on_connection_frame env sid st :
  rooms (on_connection env sid st).1 = rooms st
  /\ messages (on_connection env sid st).1 = messages st.
Proof. done. Qed.

Lemma pingInterval_frame env sid st :
  rooms (pingInterval env sid st).1 = rooms st
  /\ messages (pingInterval env sid st).1 = messages st.
Proof. unfold pingInterval. by_cases. apply refreshPing_frame. Qed.

Lemma on_create_room_messages env sid userName userPhoto roomName password st st' out :
  on_create_room env sid userName userPhoto roomName password st = Some (st', out) ->
  messages st' = messages st.
Proof. unfold on_create_room. by_cases. by simplify_eq. Qed.

Lemma on_join_room_messages env sid roomCode userName userPhoto password st :
  messages (on_join_room env sid roomCode userName userPhoto password st).1
  = messages st.
Proof. unfold on_join_room. by_cases. Qed.

Lemma on_request_screen_share_frame env sid sk st :
  rooms (on_request_screen_share env sid sk st).1 = rooms st
  /\ messages (on_request_screen_share env sid sk st).1 = messages st.
Proof. unfold on_request_screen_share. by_cases. Qed.

Lemma on_approve_screen_share_messages env sid sk requesterSocketId st :
  messages (on_approve_screen_share env sid sk requesterSocketId st).1 = messages st.
Proof. unfold on_approve_screen_share. by_cases. Qed.

Lemma on_reject_screen_share_frame env sid sk requesterSocketId st :
  rooms (on_reject_screen_share env sid sk requesterSocketId st).1 = rooms st
  /\ messages (on_reject_screen_share env sid sk requesterSocketId st).1 = messages st.
Proof. unfold on_reject_screen_share. by_cases. Qed.

Lemma on_stop_screen_share_messages env sid sk st :
  messages (on_stop_screen_share env sid sk st).1 = messages st.
Proof. unfold on_stop_screen_share. by_cases. Qed.

Lemma on_upload_playlist_music_frame env sid sk musicData fileName fileSize st :
  rooms (on_upload_playlist_music env sid sk musicData fileName fileSize st).1
  = rooms st
  /\ messages (on_upload_playlist_music env sid sk musicData fileName fileSize st).1
     = messages st.
Proof. unfold on_upload_playlist_music. by_cases. Qed.

Lemma on_request_delete_music_frame env sid sk targetUserName st :
  (on_request_delete_music env sid sk targetUserName st).1 = st.
Proof. unfold on_request_delete_music. by_cases. Qed.

Lemma on_confirm_delete_music_frame env sid sk requesterName st :
  rooms (on_confirm_delete_music env sid sk requesterName st).1 = rooms st
  /\ messages (on_confirm_delete_music env sid sk requesterName st).1 = messages st.
Proof. unfold on_confirm_delete_music. by_cases. Qed.

Lemma on_start_call_frame env sid sk targetUserName offer type callerName st :
  rooms (on_start_call env sid sk targetUserName offer type callerName st).1 = rooms st
  /\ messages (on_start_call env sid sk targetUserName offer type callerName st).1
     = messages st.
Proof. unfold on_start_call. by_cases. Qed.

Lemma on_reject_call_frame env sid sk callerSocketId st :
  rooms (on_reject_call env sid sk callerSocketId st).1 = rooms st
  /\ messages (on_reject_call env sid sk callerSocketId st).1 = messages st.
Proof. unfold on_reject_call. by_cases. Qed.

Lemma on_end_call_frame env sid sk targetSocketId st :
  rooms (on_end_call env sid sk targetSocketId st).1 = rooms st
  /\ messages (on_end_call env sid sk targetSocketId st).1 = messages st.
Proof. unfold on_end_call. by_cases. Qed.

Lemma on_message_rooms env sid sk text type fileUrl fileName fileSize st :
  rooms (on_message env sid sk text type fileUrl fileName fileSize st).1 = rooms st.
Proof. unfold on_message. by_cases. Qed.

Lemma on_edit_message_rooms env sid sk messageId newText st :
  rooms (on_edit_message env sid sk messageId newText st).1 = rooms st.
Proof. unfold on_edit_message. by_cases. Qed.

Lemma on_delete_message_rooms env sid sk messageId st :
  rooms (on_delete_message env sid sk messageId st).1 = rooms st.
Proof. unfold on_delete_message. by_cases. Qed.

Lemma on_message_reaction_rooms env sid sk messageId reaction st :
  rooms (on_message_reaction env sid sk messageId reaction st).1 = rooms st.
Proof. unfold on_message_reaction. by_cases. Qed.

Lemma on_message_seen_rooms env sid sk messageId st :
  rooms (on_message_seen env sid sk messageId st).1 = rooms st.
Proof. unfold on_message_seen. by_cases. Qed.

Lemma healthCheckEntry_messages v env acc k :
  messages (healthCheckEntry v env acc k).1 = messages acc.1.
Proof.
  destruct acc as [st out]. unfold healthCheckEntry.
  destruct (jm_get k (connectionMonitor st)) as [conn|]; [|done].
  destruct (timedOut (now env) conn); [|done].
  destruct (jm_get k (sockets st)) as [sk|]; [|done].
  pose proof (on_disconnect_frame v env k sk st) as (_ & _ & M & _).
  by destruct (on_disconnect v env k sk st).
Qed.

Lemma startConnectionHealthCheck_messages v env st :
  messages (startConnectionHealthCheck v env st).1 = messages st.
Proof.
  unfold startConnectionHealthCheck.
  apply (fold_left_keeps (healthCheckEntry v env)
           (fun acc => messages acc.1 = messages st)); [|done].
  intros acc k HP. by rewrite healthCheckEntry_messages.
Qed.

(** ** Authors stay in the seen-set of their messages *)

Lemma authors_seen_set ms rc log :
  authors_seen ms -> Forall author_seen log -> authors_seen (jm_set rc log ms).
Proof.
  intros Hms Hlog rc' log'. rewrite jm_get_set.
  destruct (decide (rc = rc')); [congruence|apply Hms].
Qed.

Lemma authors_seen_delete ms rc : authors_seen ms -> authors_seen (jm_delete rc ms).
Proof.
  intros Hms rc' log'. rewrite jm_get_delete.
  destruct (decide (rc = rc')); [done|apply Hms].
Qed.

Lemma authors_seen_log ms rc :
  authors_seen ms -> Forall author_seen (default [] (jm_get rc ms)).
Proof.
  intros Hms. destruct (jm_get rc ms) as [log|] eqn:E; simpl; [eauto|constructor].
Qed.

Lemma storeAt_authors_seen rc i m st :
  authors_seen (messages st) -> author_seen m ->
  authors_seen (messages (storeAt rc i m st)).
Proof.
  intros Hms Hm. unfold storeAt. simpl. apply authors_seen_set; [done|].
  apply Forall_insert; [|done]. by apply authors_seen_log.
Qed.

Lemma addressed_author_seen rc messageId st i m :
  authors_seen (messages st) -> addressed rc messageId st = Some (i, m) ->
  author_seen m.
Proof.
  intros Hms Ha. destruct (addressed_log _ _ _ _ _ Ha) as (log & Hlog & Hl & _).
  eapply Forall_lookup_1; [|exact Hl]. eauto.
Qed.

Lemma on_message_authors_seen env sid sk text type fileUrl fileName fileSize st :
  authors_seen (messages st) ->
  authors_seen (messages (on_message env sid sk text type fileUrl fileName fileSize st).1).
Proof.
  intros Hms. unfold on_message.
  destruct (inRoom sk) as [[rc u]|]; [|done]. simpl.
  apply authors_seen_set; [done|].
  assert (Forall author_seen
            (default [] (jm_get rc (messages st))
             ++ [mkMessage (freshId env) (u_userName u) (u_userPhoto u)
                   (u_userColor u) text (default "text"%string (js_or_null type))
                   fileUrl fileName fileSize (u_country u) (now env) false None
                   false None ∅ [u_userName u]])) as Hall.
  { apply Forall_app. split; [by apply authors_seen_log|].
    constructor; [|constructor]. unfold author_seen. simpl. apply list_elem_of_here. }
  destruct (_ <? _)%nat; [|done]. unfold slice_last. by apply Forall_drop.
Qed.

Lemma on_edit_message_authors_seen env sid sk messageId newText st :
  authors_seen (messages st) ->
  authors_seen (messages (on_edit_message env sid sk messageId newText st).1).
Proof.
  intros Hms. unfold on_edit_message.
  destruct (inRoom sk) as [[rc u]|]; [|done].
  destruct (addressed rc messageId st) as [[i m]|] eqn:Ha; [|done].
  destruct (bool_decide _); [|done]. simpl.
  apply storeAt_authors_seen; [done|].
  exact (addressed_author_seen _ _ _ _ _ Hms Ha).
Qed.

Lemma on_delete_message_authors_seen env sid sk messageId st :
  authors_seen (messages st) ->
  authors_seen (messages (on_delete_message env sid sk messageId st).1).
Proof.
  intros Hms. unfold on_delete_message.
  destruct (inRoom sk) as [[rc u]|]; [|done].
  destruct (addressed rc messageId st) as [[i m]|] eqn:Ha; [|done].
  destruct (bool_decide _); [|done]. simpl.
  apply storeAt_authors_seen; [done|].
  exact (addressed_author_seen _ _ _ _ _ Hms Ha).
Qed.

Lemma on_message_reaction_authors_seen env sid sk messageId reaction st :
  authors_seen (messages st) ->
  authors_seen (messages (on_message_reaction env sid sk messageId reaction st).1).
Proof.
  intros Hms. unfold on_message_reaction.
  destruct (inRoom sk) as [[rc u]|]; [|done].
  destruct (addressed rc messageId st) as [[i m]|] eqn:Ha; [|done]. simpl.
  apply storeAt_authors_seen; [done|].
  exact (addressed_author_seen _ _ _ _ _ Hms Ha).
Qed.

Lemma on_message_seen_authors_seen env sid sk messageId st :
  authors_seen (messages st) ->
  authors_seen (messages (on_message_seen env sid sk messageId st).1).
Proof.
  intros Hms. unfold on_message_seen.
  destruct (inRoom sk) as [[rc u]|]; [|done].
  destruct (addressed rc messageId st) as [[i m]|] eqn:Ha; [|done].
  destruct (bool_decide _); [done|]. simpl.
  apply storeAt_authors_seen; [done|].
  pose proof (addressed_author_seen _ _ _ _ _ Hms Ha) as Hm.
  unfold author_seen in *. simpl. apply elem_of_app. by left.
Qed.

Lemma emptyRoomTimeout_authors_seen v rc st :
  authors_seen (messages st) -> authors_seen (messages (emptyRoomTimeout v rc st)).
Proof.
  intros Hms. unfold emptyRoomTimeout.
  destruct (jm_get rc (rooms st)); [|done].
  destruct (_ =? _)%nat; [|done].
  destruct v; simpl; by apply authors_seen_delete.
Qed.

Lemma runTimeouts_authors_seen v env st :
  authors_seen (messages st) -> authors_seen (messages (runTimeouts v env st)).
Proof.
  intros Hms. unfold runTimeouts.
  apply (fold_left_keeps (fun s t => emptyRoomTimeout v t.2 s)
           (fun s => authors_seen (messages s))); [|done].
  intros s t. apply emptyRoomTimeout_authors_seen.
Qed.

Lemma periodicCleanup_authors_seen env st :
  authors_seen (messages st) -> authors_seen (messages (periodicCleanup env st)).
Proof.
  intros Hms. unfold periodicCleanup.
  apply (fold_left_keeps (cleanupRoom (now env))
           (fun s => authors_seen (messages s))).
  - intros s k Hs. unfold cleanupRoom.
    destruct (jm_get k (rooms s)); [|done].
    destruct (_ && _)%bool; [|done]. simpl. by apply authors_seen_delete.
  - apply (fold_left_keeps (cleanupRequest (now env))
             (fun s => authors_seen (messages s))); [|done].
    intros s k Hs. unfold cleanupRequest.
    destruct (jm_get k (screenShareRequests s)); [|done].
    by destruct (_ <? _).
Qed.

Lemma handle_authors_seen v env sid ev st st' out :
  handle v env sid ev st = Some (st', out) ->
  authors_seen (messages st) -> authors_seen (messages st').
Proof.
  unfold handle. intros Hh Hms.
  destruct (jm_get sid (sockets st)) as [sk|]; [|by simplify_eq].
  destruct ev; try destruct v; simplify_eq;
    try pin_state; simpl;
    rewrite ?on_join_room_messages, ?on_approve_screen_share_messages,
      ?on_stop_screen_share_messages, ?on_request_delete_music_frame;
    rewrite ?(proj2 (on_request_screen_share_frame _ _ _ _)),
      ?(proj2 (on_reject_screen_share_frame _ _ _ _ _)),
      ?(proj2 (on_upload_playlist_music_frame _ _ _ _ _ _ _)),
      ?(proj2 (on_confirm_delete_music_frame _ _ _ _ _)),
      ?(proj2 (on_start_call_frame _ _ _ _ _ _ _ _)),
      ?(proj2 (on_reject_call_frame _ _ _ _ _)),
      ?(proj2 (on_end_call_frame _ _ _ _ _)),
      ?(proj2 (refreshPing_frame _ _ _));
    try done;
    eauto using on_message_authors_seen, on_edit_message_authors_seen,
      on_delete_message_authors_seen, on_message_reaction_authors_seen,
      on_message_seen_authors_seen.
  all: try (erewrite on_create_room_messages; [exact Hms|eassumption]).
  all: try (pose proof (on_disconnect_frame ServerJs env sid sk st) as (_ & _ & M & _);
            rewrite M; exact Hms).
  all: try (pose proof (on_disconnect_frame WithCleanup env sid sk st) as (_ & _ & M & _);
            rewrite M; exact Hms).
Qed.

Lemma step_authors_seen v env i st st' out :
  step v env i st = Some (st', out) ->
  authors_seen (messages st) -> authors_seen (messages st').
Proof.
  destruct i; simpl; intros Hs Hms.
  - destruct (jm_has sid (sockets st)); simplify_eq; [done|]. by pin_state.
  - eapply handle_authors_seen; eauto.
  - simplify_eq. pin_state. by rewrite (proj2 (pingInterval_frame _ _ _)).
  - simplify_eq. pin_state. by rewrite startConnectionHealthCheck_messages.
  - destruct v; simplify_eq; [done|]. by apply periodicCleanup_authors_seen.
  - simplify_eq. by apply runTimeouts_authors_seen.
Qed.

Lemma reachable_authors_seen v st : reachable v st -> authors_seen (messages st).
Proof.
  induction 1 as [|st env i st' out Hr IH Hs].
  - intros rc log. done.
  - eapply step_authors_seen; eauto.
Qed.

Lemma last_slice_last {A} (n : nat) (l : list A) :
  (0 < n)%nat -> last (slice_last n l) = last l.
Proof.
  intros Hn. unfold slice_last. destruct l as [|x l]; [done|].
  rewrite !last_lookup, lookup_drop, length_drop. f_equal. simpl. lia.
Qed.

(** C10.  A message stored by the [message] event is the last entry of the
    room's log, carries the poster's name as author, and its seen-set is
    exactly that one name.  Since no handler removes a name from a seen-set
    or changes an author, in every reachable state every stored message has
    its author in its seen-set. *)
Theorem C10_new_message_seen_by_its_author_only
  (env : Env) (sid : SocketId) (sk : Socket) (rc : string) (u : User)
  (text type fileUrl fileName : option string) (fileSize : option Z) (st : State) :
  inRoom sk = Some (rc, u) ->
  let posted := on_message env sid sk text type fileUrl fileName fileSize st in
  (exists log m,
     jm_get rc (messages posted.1) = Some log
     /\ last log = Some m
     /\ posted.2 = [(IoTo rc, message m)]
     /\ m_id m = freshId env
     /\ m_userName m = u_userName u
     /\ m_seenBy m = [u_userName u])
  /\ (forall v st0, reachable v st0 -> authors_seen (messages st0)).
Proof.
  intros Hin posted. split; [|apply reachable_authors_seen].
  unfold posted, on_message. rewrite Hin. simpl.
  eexists _, _. split; [apply jm_get_set_eq|].
  split; [|repeat split].
  destruct (_ <? _)%nat.
  - rewrite last_slice_last by lia. apply last_snoc.
  - apply last_snoc.
Qed.

Lemma C10_new_message_seen_witness :
  let st := state_after ServerJs three_in_a_room in
  let sk := mkSocket (Some bob) (Some "ABC123") in
  exists log m,
    jm_get "ABC123"
      (messages (on_message (mkEnv 7 ["0.4fzzzxj"]) "b" sk (Some "hi") None None
                   None None st).1) = Some log
    /\ last log = Some m
    /\ m_userName m = "Bob"
    /\ m_seenBy m = ["Bob"].
Proof.
  intros st sk.
  destruct (C10_new_message_seen_by_its_author_only (mkEnv 7 ["0.4fzzzxj"]) "b" sk
              "ABC123" bob (Some "hi") None None None None st eq_refl)
    as [(log & m & Hlog & Hlast & _ & _ & Hname & Hseen) _].
  exists log, m. split; [exact Hlog|]. split; [exact Hlast|].
  split; [exact Hname|exact Hseen].
Defined.

(** ** Rooms stay under their own code *)

Lemma rooms_derive_refl rs : rooms_derive rs rs.
Proof. intros k room H. eauto. Qed.

Lemma rooms_derive_trans rs1 rs2 rs3 :
  rooms_derive rs1 rs2 -> rooms_derive rs2 rs3 -> rooms_derive rs1 rs3.
Proof.
  intros H12 H23 k room3 H3.
  destruct (H23 _ _ H3) as (room2 & H2 & E2).
  destruct (H12 _ _ H2) as (room1 & H1 & E1).
  exists room1. split; [done|congruence].
Qed.

Lemma rooms_derive_set rs k room room' :
  jm_get k rs = Some room -> r_code room' = r_code room ->
  rooms_derive rs (jm_set k room' rs).
Proof.
  intros Hk Hc k' r'. rewrite jm_get_set.
  destruct (decide (k = k')) as [<-|]; [|eauto].
  intros [= <-]. eauto.
Qed.

Lemma rooms_derive_delete rs k : rooms_derive rs (jm_delete k rs).
Proof.
  intros k' r'. rewrite jm_get_delete. destruct (decide (k = k')); [done|eauto].
Qed.

Lemma rooms_keyed_derive rs rs' :
  rooms_keyed rs -> rooms_derive rs rs' -> rooms_keyed rs'.
Proof.
  intros Hk Hd k room' H'. destruct (Hd _ _ H') as (room & H & E).
  rewrite E. eauto.
Qed.

Lemma upper_ascii_idem c : upper_ascii (upper_ascii c) = upper_ascii c.
Proof.
  unfold upper_ascii.
  destruct ((97 <=? nat_of_ascii c)%nat && (nat_of_ascii c <=? 122)%nat)%bool
    eqn:E; [|by rewrite E].
  apply andb_true_iff in E as [E1 E2].
  apply Nat.leb_le in E1. apply Nat.leb_le in E2.
  rewrite nat_ascii_embedding by lia.
  destruct (97 <=? nat_of_ascii c - 32)%nat eqn:E3; [|done].
  apply Nat.leb_le in E3. lia.
Qed.

Lemma toUpperCase_idem s : toUpperCase (toUpperCase s) = toUpperCase s.
Proof. induction s as [|c s IH]; simpl; [done|]. by rewrite upper_ascii_idem, IH. Qed.

Lemma on_join_room_rooms env sid roomCode userName userPhoto password st :
  rooms_derive (rooms st)
    (rooms (on_join_room env sid roomCode userName userPhoto password st).1).
Proof.
  unfold on_join_room.
  destruct (jm_get (toUpperCase roomCode) (rooms st)) as [room|] eqn:E;
    [|apply rooms_derive_refl].
  destruct (match r_password room with Some _ => _ | None => _ end);
    [apply rooms_derive_refl|].
  simpl. by eapply rooms_derive_set.
Qed.

Lemma on_approve_screen_share_rooms env sid sk requesterSocketId st :
  rooms_derive (rooms st)
    (rooms (on_approve_screen_share env sid sk requesterSocketId st).1).
Proof.
  unfold on_approve_screen_share.
  repeat case_match; simpl; try apply rooms_derive_refl.
  by eapply rooms_derive_set.
Qed.

Lemma on_stop_screen_share_rooms env sid sk st :
  rooms_derive (rooms st) (rooms (on_stop_screen_share env sid sk st).1).
Proof.
  unfold on_stop_screen_share.
  repeat case_match; simpl; try apply rooms_derive_refl.
  by eapply rooms_derive_set.
Qed.

Lemma disconnectScreenShare_rooms v sid sk st :
  rooms_derive (rooms st) (rooms (disconnectScreenShare v sid sk st).1).
Proof.
  unfold disconnectScreenShare.
  repeat case_match; simpl; try apply rooms_derive_refl.
  by eapply rooms_derive_set.
Qed.

Lemma disconnectRoom_rooms env sid sk st :
  rooms_derive (rooms st) (rooms (disconnectRoom env sid sk st).1).
Proof.
  unfold disconnectRoom.
  repeat case_match; simpl; try apply rooms_derive_refl;
    by eapply rooms_derive_set.
Qed.

Lemma on_disconnect_rooms v env sid sk st :
  rooms_derive (rooms st) (rooms (on_disconnect v env sid sk st).1).
Proof.
  unfold on_disconnect.
  set (st1 := set_connectionMonitor _ _).
  pose proof (disconnectCall_frame sid st1) as (R2 & _).
  destruct (disconnectCall sid st1) as [st2 out2].
  pose proof (disconnectScreenShare_rooms v sid sk st2) as R3.
  destruct (disconnectScreenShare v sid sk st2) as [st3 out3].
  pose proof (disconnectRoom_rooms env sid sk st3) as R4.
  destruct (disconnectRoom env sid sk st3) as [st4 out4].
  simpl in *. rewrite R2 in R3. eapply rooms_derive_trans; eauto.
Qed.

Lemma startConnectionHealthCheck_rooms v env st :
  rooms_derive (rooms st) (rooms (startConnectionHealthCheck v env st).1).
Proof.
  unfold startConnectionHealthCheck.
  apply (fold_left_keeps (healthCheckEntry v env)
           (fun acc => rooms_derive (rooms st) (rooms acc.1)));
    [|apply rooms_derive_refl].
  intros [s out] k HP. unfold healthCheckEntry.
  destruct (jm_get k (connectionMonitor s)) as [conn|]; [|done].
  destruct (timedOut (now env) conn); [|done].
  destruct (jm_get k (sockets s)) as [sk|]; [|done].
  pose proof (on_disconnect_rooms v env k sk s) as R.
  destruct (on_disconnect v env k sk s) as [s1 out1]. simpl in *.
  eapply rooms_derive_trans; eauto.
Qed.

Lemma emptyRoomTimeout_rooms v rc st :
  rooms_derive (rooms st) (rooms (emptyRoomTimeout v rc st)).
Proof.
  unfold emptyRoomTimeout.
  destruct (jm_get rc (rooms st)); [|apply rooms_derive_refl].
  destruct (_ =? _)%nat; [|apply rooms_derive_refl].
  destruct v; simpl; apply rooms_derive_delete.
Qed.

Lemma runTimeouts_rooms v env st :
  rooms_derive (rooms st) (rooms (runTimeouts v env st)).
Proof.
  unfold runTimeouts.
  apply (fold_left_keeps (fun s t => emptyRoomTimeout v t.2 s)
           (fun s => rooms_derive (rooms st) (rooms s)));
    [|apply rooms_derive_refl].
  intros s t HP. eapply rooms_derive_trans; [exact HP|apply emptyRoomTimeout_rooms].
Qed.

Lemma periodicCleanup_rooms env st :
  rooms_derive (rooms st) (rooms (periodicCleanup env st)).
Proof.
  unfold periodicCleanup.
  apply (fold_left_keeps (cleanupRoom (now env))
           (fun s => rooms_derive (rooms st) (rooms s))).
  - intros s k HP. eapply rooms_derive_trans; [exact HP|].
    unfold cleanupRoom.
    destruct (jm_get k (rooms s)); [|apply rooms_derive_refl].
    destruct (_ && _)%bool; [|apply rooms_derive_refl].
    simpl. apply rooms_derive_delete.
  - apply (fold_left_keeps (cleanupRequest (now env))
             (fun s => rooms_derive (rooms st) (rooms s)));
      [|apply rooms_derive_refl].
    intros s k HP. unfold cleanupRequest.
    destruct (jm_get k (screenShareRequests s)); [|done].
    by destruct (_ <? _).
Qed.

Lemma pickRoomCode_unused draws rs roomCode :
  pickRoomCode draws rs = Some roomCode ->
  jm_get roomCode rs = None
  /\ exists d, d ∈ draws /\ roomCode = generateRoomCode d.
Proof.
  induction draws as [|d draws IH]; simpl; [done|].
  destruct (jm_has (generateRoomCode d) rs) eqn:Hhas.
  - intros H. destruct (IH H) as (? & d' & ? & ?).
    split; [done|]. exists d'. split; [by apply list_elem_of_further|done].
  - intros [= <-]. split; [by apply jm_has_false|].
    exists d. split; [apply list_elem_of_here|done].
Qed.

Lemma pickRoomCode_completes draws rs :
  (exists d, d ∈ draws /\ jm_get (generateRoomCode d) rs = None)
  <-> is_Some (pickRoomCode draws rs).
Proof.
  split.
  - intros (d & Hin & Hfree). induction draws as [|d' draws IH]; simpl.
    + by apply elem_of_nil in Hin.
    + destruct (jm_has (generateRoomCode d') rs) eqn:Hhas; [|eauto].
      apply elem_of_cons in Hin as [->|Hin]; [|eauto].
      apply jm_has_false in Hfree. congruence.
  - intros [roomCode H]. destruct (pickRoomCode_unused _ _ _ H) as (? & d & ? & ->).
    eauto.
Qed.

Lemma on_create_room_rooms env sid userName userPhoto roomName password st st' out :
  on_create_room env sid userName userPhoto roomName password st = Some (st', out) ->
  exists roomCode room,
    pickRoomCode (rand env) (rooms st) = Some roomCode
    /\ rooms st' = jm_set roomCode room (rooms st)
    /\ r_code room = roomCode /\ r_owner room = sid
    /\ r_users room = [(sid, newUser sid userName userPhoto true)]
    /\ sockets st' = jm_set sid (mkSocket (Some (newUser sid userName userPhoto true))
                                   (Some roomCode)) (sockets st)
    /\ out = [(SocketEmit sid,
               room_created roomCode roomName true (generateUserColor userName))].
Proof.
  unfold on_create_room.
  destruct (pickRoomCode (rand env) (rooms st)) as [roomCode|]; [|done].
  intros [= <- <-]. eexists _, _. split; [done|]. simpl. by repeat split.
Qed.

Lemma rooms_keyed_set rs k room :
  rooms_keyed rs -> r_code room = k -> toUpperCase k = k ->
  rooms_keyed (jm_set k room rs).
Proof.
  intros Hk Hc Hup k' r'. rewrite jm_get_set.
  destruct (decide (k = k')) as [<-|]; [|apply Hk].
  intros [= <-]. done.
Qed.

Lemma handle_rooms_keyed v env sid ev st st' out :
  handle v env sid ev st = Some (st', out) ->
  rooms_keyed (rooms st) -> rooms_keyed (rooms st').
Proof.
  unfold handle. intros Hh Hk.
  destruct (jm_get sid (sockets st)) as [sk|]; [|by simplify_eq].
  destruct ev; try destruct v; simplify_eq; try pin_state; simpl;
    rewrite ?on_message_rooms, ?on_edit_message_rooms, ?on_delete_message_rooms,
      ?on_message_reaction_rooms, ?on_message_seen_rooms,
      ?on_request_delete_music_frame;
    rewrite ?(proj1 (on_request_screen_share_frame _ _ _ _)),
      ?(proj1 (on_reject_screen_share_frame _ _ _ _ _)),
      ?(proj1 (on_upload_playlist_music_frame _ _ _ _ _ _ _)),
      ?(proj1 (on_confirm_delete_music_frame _ _ _ _ _)),
      ?(proj1 (on_start_call_frame _ _ _ _ _ _ _ _)),
      ?(proj1 (on_reject_call_frame _ _ _ _ _)),
      ?(proj1 (on_end_call_frame _ _ _ _ _)),
      ?(proj1 (refreshPing_frame _ _ _));
    try done;
    try (eapply rooms_keyed_derive; [exact Hk|];
         solve [eauto using on_join_room_rooms, on_approve_screen_share_rooms,
                  on_stop_screen_share_rooms, on_disconnect_rooms]).
  all: destruct (on_create_room_rooms _ _ _ _ _ _ _ _ _ Hh)
         as (roomCode & room & Hpick & -> & Hc & _);
       destruct (pickRoomCode_unused _ _ _ Hpick) as (_ & d & _ & Hd);
       apply rooms_keyed_set; [done|done|];
       rewrite Hd; apply toUpperCase_idem.
Qed.

Lemma step_rooms_keyed v env i st st' out :
  step v env i st = Some (st', out) ->
  rooms_keyed (rooms st) -> rooms_keyed (rooms st').
Proof.
  destruct i; simpl; intros Hs Hk.
  - destruct (jm_has sid (sockets st)); simplify_eq; [done|]. by pin_state.
  - eapply handle_rooms_keyed; eauto.
  - simplify_eq. pin_state. by rewrite (proj1 (pingInterval_frame _ _ _)).
  - simplify_eq. pin_state.
    eapply rooms_keyed_derive; [exact Hk|apply startConnectionHealthCheck_rooms].
  - destruct v; simplify_eq; [done|].
    eapply rooms_keyed_derive; [exact Hk|apply periodicCleanup_rooms].
  - simplify_eq. eapply rooms_keyed_derive; [exact Hk|apply runTimeouts_rooms].
Qed.

Lemma reachable_rooms_keyed v st : reachable v st -> rooms_keyed (rooms st).
Proof.
  induction 1 as [|st env i st' out Hr IH Hs].
  - intros k room. done.
  - eapply step_rooms_keyed; eauto.
Qed.

Lemma generateUserColor_palette username : generateUserColor username ∈ colors.
Proof.
  unfold generateUserColor.
  set (index := if js_truthy username then charCodeSum username else 0%nat).
  destruct (colors !! (index mod length colors)%nat) as [c|] eqn:Hc.
  - simpl. by eapply list_elem_of_lookup_2.
  - apply lookup_ge_None in Hc.
    pose proof (Nat.mod_upper_bound index (length colors)) as Hlt.
    simpl in *. lia.
Qed.

(** C9.  [create-room] completes exactly when one of the random draws yields
    a code no existing room is stored under.  When it completes, the code it
    assigns was unused: no room was stored under it, the new room is stored
    under it and carries it, every other room is untouched, and (in a
    reachable state) no other room carries the same code.  The caller is
    told the code, with a colour of the palette. *)
Theorem C9_created_room_code_is_unused
  (v : Revision) (env : Env) (sid : SocketId) (sk : Socket)
  (userName : string) (userPhoto : option string) (roomName : string)
  (password : option string) (st : State) :
  jm_get sid (sockets st) = Some sk ->
  let created :=
    handle v env sid (create_room userName userPhoto roomName password) st in
  ((exists d, d ∈ rand env /\ jm_get (generateRoomCode d) (rooms st) = None)
   <-> is_Some created)
  /\ (forall st' out, created = Some (st', out) ->
        exists roomCode room colour,
          colour ∈ colors
          /\ out = [(SocketEmit sid, room_created roomCode roomName true colour)]
          /\ (currentRoomCode <$> jm_get sid (sockets st')) = Some (Some roomCode)
          /\ jm_get roomCode (rooms st') = Some room
          /\ r_code room = roomCode
          /\ r_owner room = sid
          /\ jm_get roomCode (rooms st) = None
          /\ (forall k, k <> roomCode -> jm_get k (rooms st') = jm_get k (rooms st))
          /\ (reachable v st ->
              forall k other, jm_get k (rooms st') = Some other -> k <> roomCode ->
                r_code other <> roomCode)).
Proof.
  intros Hsk created. unfold created, handle. rewrite Hsk. split.
  - rewrite pickRoomCode_completes. unfold on_create_room.
    destruct (pickRoomCode (rand env) (rooms st)); split; intros [? ?]; eauto; done.
  - intros st' out Hc.
    destruct (on_create_room_rooms _ _ _ _ _ _ _ _ _ Hc)
      as (roomCode & room & Hpick & Hrooms & Hcode & Howner & _ & Hsock & Hout).
    destruct (pickRoomCode_unused _ _ _ Hpick) as [Hfree _].
    exists roomCode, room, (generateUserColor userName). rewrite Hrooms, Hsock.
    split; [apply generateUserColor_palette|].
    split; [done|]. split; [by rewrite jm_get_set_eq|].
    split; [by rewrite jm_get_set_eq|]. split; [done|]. split; [done|].
    split; [done|]. split.
    + intros k Hk. by rewrite jm_get_set_ne.
    + intros Hr k other Hget Hk. rewrite jm_get_set_ne in Hget by done.
      rewrite (proj1 (reachable_rooms_keyed v st Hr k other Hget)). done.
Qed.

Lemma C9_created_room_code_witness :
  let st := state_after ServerJs three_in_a_room in
  let env := mkEnv 9 ["0.abc123k"; "0.zz9plq7"] in
  exists st' out roomCode,
    handle ServerJs env "b" (create_room "Bob" None "second" None) st
    = Some (st', out)
    /\ (currentRoomCode <$> jm_get "b" (sockets st')) = Some (Some roomCode)
    /\ jm_get roomCode (rooms st) = None.
Proof.
  intros st env.
  destruct (C9_created_room_code_is_unused ServerJs env "b"
              (mkSocket (Some bob) (Some "ABC123")) "Bob" None "second" None st)
    as [Hcompletes Hfresh].
  - vm_compute. reflexivity.
  - destruct (proj1 Hcompletes) as [[st' out] Hc].
    + exists "0.zz9plq7"%string. split; [|vm_compute; reflexivity].
      apply list_elem_of_further, list_elem_of_here.
    + destruct (Hfresh st' out Hc)
        as (roomCode & room & colour & _ & _ & Hcur & _ & _ & _ & Hfree & _).
      exists st', out, roomCode. split; [exact Hc|]. split; [exact Hcur|exact Hfree].
Defined.

(** ** The periodic cleanup *)

Lemma cleanupRequest_frame t st k :
  rooms (cleanupRequest t st k) = rooms st
  /\ messages (cleanupRequest t st k) = messages st.
Proof.
  unfold cleanupRequest.
  destruct (jm_get k (screenShareRequests st)); [|done]. by destruct (_ <? _).
Qed.

Lemma cleanupRoom_cases t st k :
  cleanupRoom t st k = st
  \/ exists room,
       jm_get k (rooms st) = Some room
       /\ jm_size (r_users room) = 0%nat
       /\ ONE_HOUR < t - r_createdAt room
       /\ rooms (cleanupRoom t st k) = jm_delete k (rooms st)
       /\ messages (cleanupRoom t st k) = jm_delete k (messages st).
Proof.
  unfold cleanupRoom.
  destruct (jm_get k (rooms st)) as [room|]; [|by left].
  destruct (_ =? _)%nat eqn:Hsize; simpl; [|by left].
  destruct (_ <? _) eqn:Hage; [|by left].
  right. exists room. apply Nat.eqb_eq in Hsize. apply Z.ltb_lt in Hage. done.
Qed.

(** C4, as stated, fails: the sweep compares the time of the sweep with the
    time the room was created, not with the time it became empty.  A room
    opened at 1 s whose only member leaves at 1 h 59 min 59 s is deleted
    by the sweep at 2 h, one second after it became empty. *)
Lemma C4_room_deleted_one_second_after_emptying :
  let occupied := state_after WithCleanup (removelast late_leaver) in
  let emptied := state_after WithCleanup late_leaver in
  let swept := state_after WithCleanup (late_leaver ++ [at_time 7200000 CleanupTimer]) in
  (jm_size ∘ r_users <$> jm_get "ABC123" (rooms occupied)) = Some 1%nat
  /\ (jm_size ∘ r_users <$> jm_get "ABC123" (rooms emptied)) = Some 0%nat
  /\ reachable WithCleanup emptied
  /\ 7200000 - 7199000 < ONE_HOUR
  /\ step WithCleanup (mkEnv 7200000 []) CleanupTimer emptied = Some (swept, [])
  /\ jm_get "ABC123" (rooms swept) = None.
Proof.
  intros occupied emptied swept.
  split; [vm_compute; reflexivity|].
  split; [vm_compute; reflexivity|].
  split.
  { apply (run_reachable WithCleanup late_leaver init); [apply reachable_init|].
    vm_compute. reflexivity. }
  split; [reflexivity|].
  split; vm_compute; reflexivity.
Qed.

(** C4, amended.  The periodic sweep deletes a room, together with its
    message log, if and only if the room has no member at the time of the
    sweep and was created more than one hour before the sweep; every other
    room, in particular every room with a member, is left as it is, with its
    log. *)
Theorem C4_cleanup_deletes_empty_rooms_older_than_an_hour
  (env : Env) (st : State) (rc : string) (room : Room) :
  jm_get rc (rooms st) = Some room ->
  let swept := periodicCleanup env st in
  step WithCleanup env CleanupTimer st = Some (swept, [])
  /\ (jm_size (r_users room) = 0%nat /\ ONE_HOUR < now env - r_createdAt room ->
      jm_get rc (rooms swept) = None /\ jm_get rc (messages swept) = None)
  /\ (~ (jm_size (r_users room) = 0%nat /\ ONE_HOUR < now env - r_createdAt room) ->
      jm_get rc (rooms swept) = Some room
      /\ jm_get rc (messages swept) = jm_get rc (messages st)).
Proof.
  intros Hroom swept. split; [done|].
  unfold swept, periodicCleanup.
  set (st1 := fold_left (cleanupRequest (now env)) _ st).
  assert (H1 : rooms st1 = rooms st /\ messages st1 = messages st).
  { unfold st1.
    apply (fold_left_keeps (cleanupRequest (now env))
             (fun s => rooms s = rooms st /\ messages s = messages st)); [|done].
    intros s k [Hr Hm]. destruct (cleanupRequest_frame (now env) s k) as [-> ->].
    done. }
  destruct H1 as [Hr1 Hm1]. split.
  - intros [Hsize Hage].
    apply (fold_left_visit (cleanupRoom (now env))
             (fun s => jm_get rc (rooms s) = Some room)
             (fun s => jm_get rc (rooms s) = None /\ jm_get rc (messages s) = None)
             rc).
    + intros s k Hne HP. left.
      destruct (cleanupRoom_cases (now env) s k) as [->|(r & _ & _ & _ & -> & _)];
        [done|]. by rewrite jm_get_delete_ne.
    + intros s k [HQ1 HQ2].
      destruct (cleanupRoom_cases (now env) s k) as [->|(r & _ & _ & _ & -> & ->)];
        [done|].
      rewrite !jm_get_delete. by destruct (decide (k = rc)).
    + intros s HP. unfold cleanupRoom. rewrite HP.
      rewrite (proj2 (Nat.eqb_eq _ _) Hsize), (proj2 (Z.ltb_lt _ _) Hage). simpl.
      by rewrite !jm_get_delete_eq.
    + apply jm_get_keys. rewrite Hr1, Hroom. eauto.
    + by rewrite Hr1.
  - intros Hnot.
    apply (fold_left_keeps (cleanupRoom (now env))
             (fun s => jm_get rc (rooms s) = Some room
                       /\ jm_get rc (messages s) = jm_get rc (messages st)));
      [|by rewrite Hr1, Hm1].
    intros s k [HP1 HP2].
    destruct (cleanupRoom_cases (now env) s k)
      as [->|(r & Hk & Hsize & Hage & -> & ->)]; [done|].
    destruct (decide (k = rc)) as [->|Hne].
    + exfalso. apply Hnot. assert (r = room) as -> by congruence. done.
    + by rewrite !jm_get_delete_ne.
Qed.

Lemma C4_cleanup_deletes_witness :
  let emptied := state_after WithCleanup late_leaver in
  jm_get "ABC123" (rooms (periodicCleanup (mkEnv 7200000 []) emptied)) = None
  /\ jm_get "ABC123" (messages (periodicCleanup (mkEnv 7200000 []) emptied)) = None.
Proof.
  intros emptied.
  destruct (C4_cleanup_deletes_empty_rooms_older_than_an_hour (mkEnv 7200000 [])
              emptied "ABC123" (mkRoom "ABC123" "room" None "a" [] None 1000))
    as (_ & Hdel & _).
  - vm_compute. reflexivity.
  - apply Hdel. split; [reflexivity|]. vm_compute. reflexivity.
Defined.

(** ** The empty-room timeout *)

Lemma emptyRoomTimeout_cases v st k :
  emptyRoomTimeout v k st = st
  \/ exists room,
       jm_get k (rooms st) = Some room
       /\ jm_size (r_users room) = 0%nat
       /\ rooms (emptyRoomTimeout v k st) = jm_delete k (rooms st)
       /\ messages (emptyRoomTimeout v k st) = jm_delete k (messages st).
Proof.
  unfold emptyRoomTimeout.
  destruct (jm_get k (rooms st)) as [room|]; [|by left].
  destruct (_ =? _)%nat eqn:Hsize; [|by left].
  right. exists room. apply Nat.eqb_eq in Hsize. by destruct v.
Qed.

Lemma disconnectScreenShare_members v sid sk st k room :
  jm_get k (rooms st) = Some room ->
  exists room',
    jm_get k (rooms (disconnectScreenShare v sid sk st).1) = Some room'
    /\ r_users room' = r_users room.
Proof.
  intros Hk. unfold disconnectScreenShare.
  destruct (js_or_null (currentRoomCode sk)) as [rc|]; [|eauto].
  destruct (jm_get rc (rooms st)) as [r|] eqn:Hrc; [|eauto].
  destruct (r_screenSharing r); [|eauto].
  destruct (bool_decide _); [|eauto]. simpl.
  rewrite jm_get_set. destruct (decide (rc = k)) as [->|]; [|eauto].
  assert (r = room) as -> by congruence. eauto.
Qed.

(** The disconnect of the last member of a room arms the timeout, ten
    minutes ahead. *)
Lemma on_disconnect_arms_timeout v env sid sk st rc u room :
  inRoom sk = Some (rc, u) ->
  jm_get rc (rooms st) = Some room ->
  jm_delete sid (r_users room) = [] ->
  (now env + GRACE_PERIOD, rc) ∈ timeouts (on_disconnect v env sid sk st).1.
Proof.
  intros Hin Hroom Hlast. unfold on_disconnect.
  set (st1 := set_connectionMonitor _ _).
  pose proof (disconnectCall_frame sid st1) as (R2 & _).
  destruct (disconnectCall sid st1) as [st2 out2]. simpl in R2.
  assert (Hroom2 : jm_get rc (rooms st2) = Some room) by (by rewrite R2).
  destruct (disconnectScreenShare_members v sid sk st2 rc room Hroom2)
    as (room3 & Hroom3 & Husers).
  destruct (disconnectScreenShare v sid sk st2) as [st3 out3]. simpl in Hroom3.
  unfold disconnectRoom. rewrite Hin, Hroom3. simpl.
  rewrite Husers, Hlast. simpl. apply elem_of_app. right. apply list_elem_of_here.
Qed.

(** C7, as stated, fails: the timeout armed when the room first became
    empty is never cancelled and only looks at the membership at the moment
    it fires.  Bob rejoins during the grace period and leaves again; the
    first timeout then deletes the room and its log 410 s after the room
    last became empty. *)
Lemma C7_rejoin_and_leave_loses_the_room :
  let rejoined := state_after ServerJs (removelast brief_return) in
  let left_again := state_after ServerJs brief_return in
  let fired := state_after ServerJs (brief_return ++ [at_time 610000 TimeoutsDue]) in
  (jm_keys ∘ r_users <$> jm_get "ABC123" (rooms rejoined)) = Some ["b"]
  /\ (length <$> jm_get "ABC123" (messages rejoined)) = Some 1%nat
  /\ timeouts left_again = [(610000, "ABC123"); (800000, "ABC123")]
  /\ reachable ServerJs left_again
  /\ step ServerJs (mkEnv 610000 []) TimeoutsDue left_again = Some (fired, [])
  /\ jm_get "ABC123" (rooms fired) = None
  /\ jm_get "ABC123" (messages fired) = None.
Proof.
  intros rejoined left_again fired.
  split; [vm_compute; reflexivity|].
  split; [vm_compute; reflexivity|].
  split; [vm_compute; reflexivity|].
  split.
  { apply (run_reachable ServerJs brief_return init); [apply reachable_init|].
    vm_compute. reflexivity. }
  split; [vm_compute; reflexivity|].
  split; vm_compute; reflexivity.
Qed.

(** C7, amended.  The disconnect that takes the last member out of a room
    arms a timeout ten minutes ahead.  When a timeout armed for a room
    fires, the room and its chat log are deleted if the room has no member
    at that moment, and the room and its log are left as they are if it has
    a member at that moment (for instance a participant who rejoined and is
    still there). *)
Theorem C7_timeout_decides_on_membership_when_it_fires
  (v : Revision) (env : Env) (st : State) (rc : string) (room : Room)
  (deadline : Z) :
  jm_get rc (rooms st) = Some room ->
  (deadline, rc) ∈ timeouts st ->
  deadline <= now env ->
  let fired := runTimeouts v env st in
  step v env TimeoutsDue st = Some (fired, [])
  /\ (jm_size (r_users room) = 0%nat ->
      jm_get rc (rooms fired) = None /\ jm_get rc (messages fired) = None)
  /\ (jm_size (r_users room) <> 0%nat ->
      jm_get rc (rooms fired) = Some room
      /\ jm_get rc (messages fired) = jm_get rc (messages st))
  /\ (forall env0 sid sk u st0 room0,
        inRoom sk = Some (rc, u) ->
        jm_get rc (rooms st0) = Some room0 ->
        jm_delete sid (r_users room0) = [] ->
        (now env0 + GRACE_PERIOD, rc) ∈ timeouts (on_disconnect v env0 sid sk st0).1).
Proof.
  intros Hroom Hdue Hpast fired. split; [done|].
  split; [|split; [|intros; by eapply on_disconnect_arms_timeout]].
  - intros Hsize. unfold fired, runTimeouts.
    apply (fold_left_visit (fun s t => emptyRoomTimeout v t.2 s)
             (fun s => jm_get rc (rooms s) = Some room)
             (fun s => jm_get rc (rooms s) = None /\ jm_get rc (messages s) = None)
             (deadline, rc)).
    + intros s [d k] _ HP. simpl.
      destruct (emptyRoomTimeout_cases v s k) as [->|(r & _ & _ & -> & ->)];
        [by left|].
      rewrite !jm_get_delete. destruct (decide (k = rc)); [by right|by left].
    + intros s [d k] [HQ1 HQ2]. simpl.
      destruct (emptyRoomTimeout_cases v s k) as [->|(r & _ & _ & -> & ->)];
        [done|].
      rewrite !jm_get_delete. by destruct (decide (k = rc)).
    + intros s HP. simpl.
      destruct (emptyRoomTimeout_cases v s rc) as [E|(r & _ & _ & -> & ->)].
      * exfalso. unfold emptyRoomTimeout in E. rewrite HP, Hsize in E. simpl in E.
        assert (Hgone : jm_get rc (rooms s) = None).
        { rewrite <- E. destruct v; simpl; apply jm_get_delete_eq. }
        congruence.
      * by rewrite !jm_get_delete_eq.
    + apply list_elem_of_filter. done.
    + done.
  - intros Hsize. unfold fired, runTimeouts.
    apply (fold_left_keeps (fun s t => emptyRoomTimeout v t.2 s)
             (fun s => jm_get rc (rooms s) = Some room
                       /\ jm_get rc (messages s) = jm_get rc (messages st)));
      [|done].
    intros s [d k] [HP1 HP2]. simpl.
    destruct (emptyRoomTimeout_cases v s k) as [->|(r & Hk & Hr & -> & ->)];
      [done|].
    destruct (decide (k = rc)) as [->|Hne].
    + exfalso. assert (r = room) as -> by congruence. done.
    + by rewrite !jm_get_delete_ne.
Qed.

Lemma C7_timeout_decides_witness :
  let left_again := state_after ServerJs brief_return in
  jm_get "ABC123" (rooms (runTimeouts ServerJs (mkEnv 610000 []) left_again)) = None
  /\ jm_get "ABC123" (messages (runTimeouts ServerJs (mkEnv 610000 []) left_again))
     = None.
Proof.
  intros left_again.
  destruct (C7_timeout_decides_on_membership_when_it_fires ServerJs
              (mkEnv 610000 []) left_again "ABC123"
              (mkRoom "ABC123" "room" None "a" [] None 1000) 610000)
    as (_ & Hdel & _).
  - vm_compute. reflexivity.
  - vm_compute. apply list_elem_of_here.
  - simpl. lia.
  - apply Hdel. reflexivity.
Defined.

(** ** Playlist progress *)

(** What the two handlers put in [uploadProgress]: after an upload the
    number of keys of the room playlist, after a confirmed deletion the
    number of keys whose list is not empty, each over the room's size. *)
Lemma playlist_progress_counts env sid sk rc u room st :
  inRoom sk = Some (rc, u) ->
  jm_get rc (rooms st) = Some room ->
  (forall musicData fileName fileSize,
     exists roomPlaylist,
       jm_get rc (userPlaylists
                    (on_upload_playlist_music env sid sk musicData fileName fileSize
                       st).1) = Some roomPlaylist
       /\ uploadProgressOf
            (on_upload_playlist_music env sid sk musicData fileName fileSize st).2
          = [progressPercent (length (jm_keys roomPlaylist)) (jm_size (r_users room))])
  /\ (forall requesterName roomPlaylist,
        jm_get rc (userPlaylists st) = Some roomPlaylist ->
        jm_has (u_userName u) roomPlaylist = true ->
        uploadProgressOf (on_confirm_delete_music env sid sk requesterName st).2
        = [progressPercent
             (length (usersWithTracks (jm_set (u_userName u) [] roomPlaylist)))
             (jm_size (r_users room))]).
Proof.
  intros Hin Hroom. split.
  - intros musicData fileName fileSize. unfold on_upload_playlist_music.
    rewrite Hin, Hroom. simpl. eexists. split; [apply jm_get_set_eq|done].
  - intros requesterName roomPlaylist Hpl Hhas. unfold on_confirm_delete_music.
    rewrite Hin, Hpl, Hhas, Hroom. simpl.
    destruct (jm_last_match _ _) as [r|]; [destruct (js_truthy r)|]; done.
Qed.

(** C5 fails on [upload-playlist-music]: the handler counts every name that
    has a list, also a list emptied by [confirm-delete-music].  With Ann
    and Bob in the room and Ann's list emptied, Bob's upload broadcasts 100
    although only one of the two members owns a track (which would be 50). *)
Lemma C5_upload_counts_emptied_lists :
  let st := state_after ServerJs emptied_list in
  let upload :=
    step ServerJs (mkEnv 30 ["0.q1w2e3r"])
      (Client "b" (upload_playlist_music "data:b" "second.mp3" 2)) st in
  reachable ServerJs st
  /\ (jm_keys ∘ r_users <$> jm_get "ABC123" (rooms st)) = Some ["a"; "b"]
  /\ (trackOwnersOf ∘ snd <$> upload) = Some [["Bob"]]
  /\ (uploadProgressOf ∘ snd <$> upload) = Some [Some 100]
  /\ progressPercent 1 2 = Some 50.
Proof.
  intros st upload.
  split.
  { apply (run_reachable ServerJs emptied_list init); [apply reachable_init|].
    vm_compute. reflexivity. }
  repeat split; vm_compute; reflexivity.
Qed.

(** ** The owner flag of a connected socket *)

Lemma rooms_keep_refl stays rs : rooms_keep stays rs rs.
Proof. intros k room sid H1 H2 _. eauto. Qed.

Lemma rooms_keep_trans stays rs1 rs2 rs3 :
  rooms_keep stays rs1 rs2 -> rooms_keep stays rs2 rs3 -> rooms_keep stays rs1 rs3.
Proof.
  intros H12 H23 k room sid Hk Hm Hs.
  destruct (H12 _ _ _ Hk Hm Hs) as (room2 & Hk2 & Ho2 & Hm2).
  destruct (H23 _ _ _ Hk2 Hm2 Hs) as (room3 & Hk3 & Ho3 & Hm3).
  exists room3. split; [done|]. split; [congruence|done].
Qed.

Lemma rooms_keep_set stays rs k room room' :
  jm_get k rs = Some room ->
  r_owner room' = r_owner room ->
  (forall sid, stays sid -> is_Some (jm_get sid (r_users room)) ->
               is_Some (jm_get sid (r_users room'))) ->
  rooms_keep stays rs (jm_set k room' rs).
Proof.
  intros Hk Ho Hm k' r sid Hk' Hmem Hs. rewrite jm_get_set.
  destruct (decide (k = k')) as [<-|]; [|eauto].
  assert (r = room) as -> by congruence. eauto.
Qed.

Lemma rooms_keep_add stays rs k room :
  jm_get k rs = None -> rooms_keep stays rs (jm_set k room rs).
Proof.
  intros Hk k' r sid Hk' Hmem Hs. rewrite jm_get_set.
  destruct (decide (k = k')) as [<-|]; [congruence|eauto].
Qed.

Lemma rooms_keep_delete_empty stays rs k room :
  jm_get k rs = Some room -> jm_size (r_users room) = 0%nat ->
  rooms_keep stays rs (jm_delete k rs).
Proof.
  intros Hk Hsize k' r sid Hk' Hmem Hs. rewrite jm_get_delete.
  destruct (decide (k = k')) as [<-|]; [|eauto].
  assert (r = room) as -> by congruence.
  destruct (r_users room); [|done]. by destruct Hmem.
Qed.

Lemma sockets_in_rooms_next stays st st' :
  sockets_in_rooms st ->
  rooms_keep stays (rooms st) (rooms st') ->
  (forall sid sk, jm_get sid (sockets st') = Some sk ->
     (jm_get sid (sockets st) = Some sk /\ stays sid) \/ socket_ok st' sid sk) ->
  sockets_in_rooms st'.
Proof.
  intros Hinv Hkeep Hsock sid sk Hsk.
  destruct (Hsock sid sk Hsk) as [[Hold Hs]|Hok]; [|done].
  intros u rc Hu Hrc.
  destruct (Hinv sid sk Hold u rc Hu Hrc) as (room & Hroom & Hmem & Hflag).
  destruct (Hkeep _ _ _ Hroom Hmem Hs) as (room' & Hroom' & Ho & Hmem').
  exists room'. rewrite Ho. done.
Qed.

(** A step that leaves [sockets] alone and keeps every room's owner and
    members keeps the invariant. *)
Lemma sockets_in_rooms_frame st st' :
  sockets st' = sockets st ->
  rooms_keep (fun _ => True) (rooms st) (rooms st') ->
  sockets_in_rooms st -> sockets_in_rooms st'.
Proof.
  intros Hs Hr Hinv. apply (sockets_in_rooms_next (fun _ => True) st); [done|done|].
  intros sid sk Hsk. left. by rewrite <- Hs.
Qed.

Lemma same_rooms_keep st st' :
  rooms st' = rooms st -> rooms_keep (fun _ => True) (rooms st) (rooms st').
Proof. intros ->. apply rooms_keep_refl. Qed.

Lemma on_approve_screen_share_keep env sid sk requesterSocketId st :
  sockets (on_approve_screen_share env sid sk requesterSocketId st).1 = sockets st
  /\ rooms_keep (fun _ => True) (rooms st)
       (rooms (on_approve_screen_share env sid sk requesterSocketId st).1).
Proof.
  unfold on_approve_screen_share.
  repeat case_match; simpl; (split; [done|]); try apply rooms_keep_refl.
  by eapply rooms_keep_set.
Qed.

Lemma on_stop_screen_share_keep env sid sk st :
  sockets (on_stop_screen_share env sid sk st).1 = sockets st
  /\ rooms_keep (fun _ => True) (rooms st) (rooms (on_stop_screen_share env sid sk st).1).
Proof.
  unfold on_stop_screen_share.
  repeat case_match; simpl; (split; [done|]); try apply rooms_keep_refl.
  by eapply rooms_keep_set.
Qed.

Lemma disconnectScreenShare_keep stays v sid sk st :
  rooms_keep stays (rooms st) (rooms (disconnectScreenShare v sid sk st).1).
Proof.
  unfold disconnectScreenShare.
  repeat case_match; simpl; try apply rooms_keep_refl.
  by eapply rooms_keep_set.
Qed.

Lemma disconnectRoom_keep env sid sk st :
  rooms_keep (fun s => s <> sid) (rooms st) (rooms (disconnectRoom env sid sk st).1).
Proof.
  unfold disconnectRoom.
  destruct (inRoom sk) as [[rc u]|]; [|apply rooms_keep_refl].
  destruct (jm_get rc (rooms st)) as [room|] eqn:Hroom; [|apply rooms_keep_refl].
  assert (rooms_keep (fun s => s <> sid) (rooms st)
            (jm_set rc (setRoomUsers (jm_delete sid (r_users room)) room) (rooms st))).
  { eapply rooms_keep_set; [done|done|].
    intros s Hs Hmem. simpl. by rewrite jm_get_delete_ne. }
  by destruct (_ =? _)%nat.
Qed.

Lemma on_disconnect_keep v env sid sk st :
  rooms_keep (fun s => s <> sid) (rooms st) (rooms (on_disconnect v env sid sk st).1).
Proof.
  unfold on_disconnect.
  set (st1 := set_connectionMonitor _ _).
  pose proof (disconnectCall_frame sid st1) as (R2 & _).
  destruct (disconnectCall sid st1) as [st2 out2].
  pose proof (disconnectScreenShare_keep (fun s => s <> sid) v sid sk st2) as R3.
  destruct (disconnectScreenShare v sid sk st2) as [st3 out3].
  pose proof (disconnectRoom_keep env sid sk st3) as R4.
  destruct (disconnectRoom env sid sk st3) as [st4 out4].
  simpl in *. rewrite R2 in R3. eapply rooms_keep_trans; eauto.
Qed.

Lemma on_disconnect_sockets_in_rooms v env sid sk st :
  sockets_in_rooms st -> sockets_in_rooms (on_disconnect v env sid sk st).1.
Proof.
  intros Hinv.
  apply (sockets_in_rooms_next (fun s => s <> sid) st);
    [done|apply on_disconnect_keep|].
  intros sid' sk'. rewrite (proj1 (proj2 (on_disconnect_frame v env sid sk st))).
  rewrite jm_get_delete. destruct (decide (sid = sid')); [done|]. intros H. left. eauto.
Qed.

Lemma emptyRoomTimeout_sockets_in_rooms v rc st :
  sockets_in_rooms st -> sockets_in_rooms (emptyRoomTimeout v rc st).
Proof.
  intros Hinv. unfold emptyRoomTimeout.
  destruct (jm_get rc (rooms st)) as [room|] eqn:Hroom; [|done].
  destruct (_ =? _)%nat eqn:Hsize; [|done]. apply Nat.eqb_eq in Hsize.
  apply (sockets_in_rooms_frame st); [by destruct v| |done].
  destruct v; simpl; by eapply rooms_keep_delete_empty.
Qed.

Lemma cleanupRoom_sockets_in_rooms t st k :
  sockets_in_rooms st -> sockets_in_rooms (cleanupRoom t st k).
Proof.
  intros Hinv. unfold cleanupRoom.
  destruct (jm_get k (rooms st)) as [room|] eqn:Hroom; [|done].
  destruct (_ =? _)%nat eqn:Hsize; [|done]. apply Nat.eqb_eq in Hsize.
  destruct (_ <? _); [|done]. simpl.
  apply (sockets_in_rooms_frame st); [done| |done].
  simpl. by eapply rooms_keep_delete_empty.
Qed.

Lemma cleanupRequest_sockets_in_rooms t st k :
  sockets_in_rooms st -> sockets_in_rooms (cleanupRequest t st k).
Proof.
  intros Hinv. unfold cleanupRequest.
  destruct (jm_get k (screenShareRequests st)); [|done]. by destruct (_ <? _).
Qed.

Lemma on_create_room_sockets_in_rooms
  env sid userName userPhoto roomName password st st' out :
  on_create_room env sid userName userPhoto roomName password st = Some (st', out) ->
  sockets_in_rooms st -> sockets_in_rooms st'.
Proof.
  intros Hc Hinv.
  destruct (on_create_room_rooms _ _ _ _ _ _ _ _ _ Hc)
    as (roomCode & room & Hpick & Hrooms & Hcode & Howner & Husers & Hsock & _).
  destruct (pickRoomCode_unused _ _ _ Hpick) as (Hfree & d & _ & Hd).
  apply (sockets_in_rooms_next (fun _ => True) st); [done| |].
  - rewrite Hrooms. by apply rooms_keep_add.
  - intros sid' sk'. rewrite Hsock, jm_get_set.
    destruct (decide (sid = sid')) as [<-|]; [|by left].
    intros [= <-]. right. intros u rc [= <-] [= <-].
    assert (Hup : toUpperCase roomCode = roomCode)
      by (rewrite Hd; apply toUpperCase_idem).
    exists room. rewrite Hrooms, Hup, jm_get_set_eq.
    split; [done|]. rewrite Husers, Howner. simpl.
    destruct (decide (sid = sid)); [|done]. split; [eauto|].
    by rewrite bool_decide_eq_true_2.
Qed.

Lemma on_join_room_cases env sid roomCode userName userPhoto password st :
  (on_join_room env sid roomCode userName userPhoto password st).1 = st
  \/ exists room,
       let user := newUser sid userName userPhoto (bool_decide (r_owner room = sid)) in
       let st' := (on_join_room env sid roomCode userName userPhoto password st).1 in
       jm_get (toUpperCase roomCode) (rooms st) = Some room
       /\ rooms st'
          = jm_set (toUpperCase roomCode)
              (setRoomUsers (jm_set sid user (r_users room)) room) (rooms st)
       /\ sockets st' = jm_set sid (mkSocket (Some user) (Some roomCode)) (sockets st).
Proof.
  unfold on_join_room.
  destruct (jm_get (toUpperCase roomCode) (rooms st)) as [room|] eqn:E; [|by left].
  destruct (match r_password room with Some _ => _ | None => _ end); [by left|].
  right. exists room. done.
Qed.

Lemma on_join_room_sockets_in_rooms env sid roomCode userName userPhoto password st :
  sockets_in_rooms st ->
  sockets_in_rooms (on_join_room env sid roomCode userName userPhoto password st).1.
Proof.
  intros Hinv.
  destruct (on_join_room_cases env sid roomCode userName userPhoto password st)
    as [->|(room & Hroom & Hrooms & Hsock)]; [done|].
  apply (sockets_in_rooms_next (fun _ => True) st); [done| |].
  - rewrite Hrooms. eapply rooms_keep_set; [done|done|].
    intros s _ Hmem. simpl. rewrite jm_get_set. by destruct (decide (sid = s)).
  - intros sid' sk'. rewrite Hsock, jm_get_set.
    destruct (decide (sid = sid')) as [<-|]; [|by left].
    intros [= <-]. right. intros u rc [= <-] [= <-].
    eexists. rewrite Hrooms, jm_get_set_eq. split; [done|]. simpl.
    rewrite jm_get_set_eq. eauto.
Qed.

Ltac unfold_plain_handlers :=
  unfold on_message, on_edit_message, on_delete_message, on_message_reaction,
    on_message_seen, on_request_screen_share, on_reject_screen_share,
    on_upload_playlist_music, on_request_delete_music, on_confirm_delete_music,
    on_start_call, on_reject_call, on_end_call, on_pong, pingInterval,
    refreshPing, dropCall, storeAt.

Lemma handle_sockets_in_rooms v env sid ev st st' out :
  handle v env sid ev st = Some (st', out) ->
  sockets_in_rooms st -> sockets_in_rooms st'.
Proof.
  unfold handle. intros Hh Hinv.
  destruct (jm_get sid (sockets st)) as [sk|]; [|by simplify_eq].
  destruct ev; try destruct v; simplify_eq; try pin_state;
    eauto using on_create_room_sockets_in_rooms, on_join_room_sockets_in_rooms,
      on_disconnect_sockets_in_rooms;
    try (unfold_plain_handlers; repeat case_match; exact Hinv).
  all: apply (sockets_in_rooms_frame st); [| |done];
    first [apply on_approve_screen_share_keep|apply on_stop_screen_share_keep].
Qed.

Lemma healthCheckEntry_sockets_in_rooms v env acc k :
  sockets_in_rooms acc.1 -> sockets_in_rooms (healthCheckEntry v env acc k).1.
Proof.
  destruct acc as [st out]. simpl. intros Hinv. unfold healthCheckEntry.
  destruct (jm_get k (connectionMonitor st)) as [conn|]; [|done].
  destruct (timedOut (now env) conn); [|done].
  destruct (jm_get k (sockets st)) as [sk|]; [|done].
  pose proof (on_disconnect_sockets_in_rooms v env k sk st Hinv) as H.
  by destruct (on_disconnect v env k sk st).
Qed.

Lemma step_sockets_in_rooms v env i st st' out :
  step v env i st = Some (st', out) ->
  sockets_in_rooms st -> sockets_in_rooms st'.
Proof.
  destruct i; simpl; intros Hs Hinv.
  - destruct (jm_has sid (sockets st)); simplify_eq; [done|]. pin_state.
    apply (sockets_in_rooms_next (fun _ => True) st);
      [done|apply rooms_keep_refl|].
    intros sid' sk'. simpl. rewrite jm_get_set.
    destruct (decide (sid = sid')) as [<-|]; [|by left].
    intros [= <-]. right. intros u rc Hu. done.
  - eapply handle_sockets_in_rooms; eauto.
  - simplify_eq. pin_state. unfold_plain_handlers. by repeat case_match.
  - simplify_eq. pin_state. unfold startConnectionHealthCheck.
    apply (fold_left_keeps (healthCheckEntry v env)
             (fun acc => sockets_in_rooms acc.1)); [|done].
    intros acc k. apply healthCheckEntry_sockets_in_rooms.
  - destruct v; simplify_eq; [done|]. unfold periodicCleanup.
    apply (fold_left_keeps (cleanupRoom (now env)) sockets_in_rooms).
    + intros s k. apply cleanupRoom_sockets_in_rooms.
    + apply (fold_left_keeps (cleanupRequest (now env)) sockets_in_rooms); [|done].
      intros s k. apply cleanupRequest_sockets_in_rooms.
  - simplify_eq. unfold runTimeouts.
    apply (fold_left_keeps (fun s t => emptyRoomTimeout v t.2 s) sockets_in_rooms);
      [|done].
    intros s t. apply emptyRoomTimeout_sockets_in_rooms.
Qed.

Lemma reachable_sockets_in_rooms v st : reachable v st -> sockets_in_rooms st.
Proof.
  induction 1 as [|st env i st' out Hr IH Hs].
  - intros sid sk. done.
  - eapply step_sockets_in_rooms; eauto.
Qed.

Lemma inRoom_Some sk rc u :
  inRoom sk = Some (rc, u) ->
  currentRoomCode sk = Some rc /\ currentUser sk = Some u /\ js_truthy rc = true.
Proof.
  unfold inRoom. destruct (currentRoomCode sk) as [rc'|]; [|done].
  destruct (currentUser sk) as [u'|]; [|done].
  destruct (js_truthy rc') eqn:E; [|done]. by intros [= <- <-].
Qed.

(** In a reachable state a connected socket whose current room exists is a
    member of it, and its owner flag is set exactly when it is the room's
    recorded owner. *)
Lemma reachable_owner_flag v st sid sk rc u room :
  reachable v st ->
  jm_get sid (sockets st) = Some sk ->
  inRoom sk = Some (rc, u) ->
  jm_get rc (rooms st) = Some room ->
  is_Some (jm_get sid (r_users room))
  /\ (u_isOwner u = true <-> r_owner room = sid).
Proof.
  intros Hr Hsk Hin Hroom.
  destruct (inRoom_Some _ _ _ Hin) as (Hrc & Hu & _).
  destruct (reachable_rooms_keyed v st Hr rc room Hroom) as [_ Hup].
  destruct (reachable_sockets_in_rooms v st Hr sid sk Hsk u rc Hu Hrc)
    as (room' & Hroom' & Hmem & Hflag).
  rewrite Hup in Hroom'. assert (room' = room) as -> by congruence.
  split; [done|]. rewrite Hflag. apply bool_decide_eq_true.
Qed.

(** ** Screen-share requests *)

(** C6, as stated, fails: the handlers test the owner flag of the caller and
    never compare the room recorded in the request with the caller's room.
    Xena, who owns another room, approves Bob's request made in Ann's room:
    the request is consumed and the grant lands in Xena's room. *)
Lemma C6_owner_of_another_room_consumes_the_request :
  let requested := state_after ServerJs foreign_owner in
  let approved :=
    state_after ServerJs
      (foreign_owner ++ [at_time 11 (Client "x" (approve_screen_share "b"))]) in
  let rejected :=
    state_after ServerJs
      (foreign_owner ++ [at_time 11 (Client "x" (reject_screen_share "b"))]) in
  reachable ServerJs requested
  /\ (q_roomCode <$> jm_get "b" (screenShareRequests requested)) = Some "ABC123"
  /\ (r_owner <$> jm_get "ABC123" (rooms requested)) = Some "a"
  /\ (jm_keys ∘ r_users <$> jm_get "ABC123" (rooms requested)) = Some ["a"; "b"]
  /\ jm_get "b" (screenShareRequests approved) = None
  /\ (r_screenSharing <$> jm_get "XYZ789" (rooms approved))
     = Some (Some (mkGrant "Bob" "b" 11))
  /\ (r_screenSharing <$> jm_get "ABC123" (rooms approved)) = Some None
  /\ jm_get "b" (screenShareRequests rejected) = None.
Proof.
  intros requested approved rejected.
  split.
  { apply (run_reachable ServerJs foreign_owner init); [apply reachable_init|].
    vm_compute. reflexivity. }
  repeat split; vm_compute; reflexivity.
Qed.

(** C6, amended.  An [approve-screen-share] or [reject-screen-share] has an
    effect only when the caller's participant record carries the owner flag
    and a request is pending under the identity it names.  In a reachable
    state the flag is set exactly when the caller is the recorded owner of
    the room it is itself in; the room recorded in the request plays no
    part.  Reject then removes the request and nothing else; approve removes
    the request and installs the grant in the caller's own current room.
    From a caller without the owner flag, or for a requester with no pending
    request, the whole state is unchanged and nothing is sent. *)
Theorem C6_owner_flag_gates_approve_and_reject
  (env : Env) (sid : SocketId) (sk : Socket) (requesterSocketId : SocketId)
  (st : State) :
  let approve := on_approve_screen_share env sid sk requesterSocketId st in
  let reject := on_reject_screen_share env sid sk requesterSocketId st in
  (inRoomAsOwner sk = None -> approve = (st, []) /\ reject = (st, []))
  /\ (jm_get requesterSocketId (screenShareRequests st) = None ->
      approve = (st, []) /\ reject = (st, []))
  /\ (forall rc u request,
        inRoomAsOwner sk = Some (rc, u) ->
        jm_get requesterSocketId (screenShareRequests st) = Some request ->
        reject
        = (set_screenShareRequests
             (jm_delete requesterSocketId (screenShareRequests st)) st,
           [(IoTo requesterSocketId, screen_share_rejected)])
        /\ forall room, jm_get rc (rooms st) = Some room ->
             screenShareRequests approve.1
             = jm_delete requesterSocketId (screenShareRequests st)
             /\ jm_get rc (rooms approve.1)
                = Some (setScreenSharing
                          (Some (mkGrant (q_requesterName request) requesterSocketId
                                   (now env))) room)
             /\ (forall k, k <> rc -> jm_get k (rooms approve.1) = jm_get k (rooms st))
             /\ approve.2
                = [(IoTo requesterSocketId, screen_share_approved);
                   (IoTo rc, screen_share_started (q_requesterName request))])
  /\ (forall v rc u room,
        reachable v st ->
        jm_get sid (sockets st) = Some sk ->
        inRoom sk = Some (rc, u) ->
        jm_get rc (rooms st) = Some room ->
        (inRoomAsOwner sk = Some (rc, u) <-> r_owner room = sid)).
Proof.
  intros approve reject.
  unfold approve, reject, on_approve_screen_share, on_reject_screen_share.
  split; [|split; [|split]].
  - intros ->. done.
  - intros ->. by destruct (inRoomAsOwner sk) as [[rc u]|].
  - intros rc u request -> ->. split; [done|].
    intros room ->. simpl. split; [done|]. split; [by rewrite jm_get_set_eq|].
    split; [|done]. intros k Hk. by rewrite jm_get_set_ne.
  - intros v rc u room Hr Hsk Hin Hroom.
    destruct (reachable_owner_flag v st sid sk rc u room Hr Hsk Hin Hroom)
      as [_ <-].
    unfold inRoomAsOwner. rewrite Hin. destruct (u_isOwner u); split; done.
Qed.

Lemma C6_owner_flag_gates_witness :
  let requested := state_after ServerJs foreign_owner in
  let sk := mkSocket (Some xena) (Some "XYZ789") in
  screenShareRequests (on_approve_screen_share (mkEnv 11 []) "x" sk "b" requested).1
  = jm_delete "b" (screenShareRequests requested)
  /\ on_approve_screen_share (mkEnv 11 []) "b" (mkSocket (Some bob) (Some "ABC123"))
       "b" requested = (requested, []).
Proof.
  intros requested sk.
  destruct (C6_owner_flag_gates_approve_and_reject (mkEnv 11 []) "x" sk "b" requested)
    as (_ & _ & Hx & _).
  destruct (C6_owner_flag_gates_approve_and_reject (mkEnv 11 []) "b"
              (mkSocket (Some bob) (Some "ABC123")) "b" requested)
    as (Hb & _).
  split.
  - destruct (Hx "XYZ789" xena (mkRequest "Bob" "b" "ABC123" 10)) as [_ Ha].
    + reflexivity.
    + vm_compute. reflexivity.
    + destruct (Ha (mkRoom "XYZ789" "other" None "x" [("x", xena)] None 3))
        as [Hreq _]; [vm_compute; reflexivity|exact Hreq].
  - apply Hb. reflexivity.
Defined.

(** * Further properties *)

(** ** How logs change *)

Lemma rewritten_refl_seen m s :
  m_seenBy m ⊆ s -> rewritten m (setSeenBy s m).
Proof. intros H. by repeat split. Qed.

Lemma log_evolves_set (ms : JsMap string (list Message)) (rc rc' : string) new new' :
  jm_get rc' (jm_set rc new ms) = Some new' ->
  log_evolves (jm_get rc ms) new ->
  log_evolves (jm_get rc' ms) new'.
Proof.
  rewrite jm_get_set. destruct (decide (rc = rc')) as [<-|].
  - by intros [= <-].
  - intros H _. by left.
Qed.

Lemma log_evolves_delete (ms : JsMap string (list Message)) (rc rc' : string) new' :
  jm_get rc' (jm_delete rc ms) = Some new' -> log_evolves (jm_get rc' ms) new'.
Proof.
  rewrite jm_get_delete. destruct (decide (rc = rc')); [done|]. intros H. by left.
Qed.

Lemma storeAt_log_evolves rc messageId i m m' st rc' new' :
  addressed rc messageId st = Some (i, m) -> rewritten m m' ->
  jm_get rc' (messages (storeAt rc i m' st)) = Some new' ->
  log_evolves (jm_get rc' (messages st)) new'.
Proof.
  intros Ha Hrw Hget. destruct (addressed_log _ _ _ _ _ Ha) as (log & Hlog & Hl & _).
  unfold storeAt in Hget. simpl in Hget. rewrite Hlog in Hget. simpl in Hget.
  eapply log_evolves_set; [exact Hget|].
  right. left. exists log, i, m, m'. done.
Qed.

Lemma handle_log_evolves v env sid ev st st' out rc new :
  handle v env sid ev st = Some (st', out) ->
  jm_get rc (messages st') = Some new ->
  log_evolves (jm_get rc (messages st)) new.
Proof.
  unfold handle. intros Hh.
  destruct (jm_get sid (sockets st)) as [sk|];
    [|simplify_eq; intros H; by left].
  destruct ev; try destruct v; simplify_eq; try pin_state; simpl;
    rewrite ?on_join_room_messages, ?on_approve_screen_share_messages,
      ?on_stop_screen_share_messages, ?on_request_delete_music_frame;
    rewrite ?(proj2 (on_request_screen_share_frame _ _ _ _)),
      ?(proj2 (on_reject_screen_share_frame _ _ _ _ _)),
      ?(proj2 (on_upload_playlist_music_frame _ _ _ _ _ _ _)),
      ?(proj2 (on_confirm_delete_music_frame _ _ _ _ _)),
      ?(proj2 (on_start_call_frame _ _ _ _ _ _ _ _)),
      ?(proj2 (on_reject_call_frame _ _ _ _ _)),
      ?(proj2 (on_end_call_frame _ _ _ _ _)),
      ?(proj2 (refreshPing_frame _ _ _));
    try (intros H; by left).
  all: try (erewrite on_create_room_messages by eassumption; intros H; by left).
  all: try (rewrite (proj1 (proj2 (proj2 (on_disconnect_frame _ env sid sk st))));
            intros H; by left).
  all: unfold on_message, on_edit_message, on_delete_message, on_message_reaction,
         on_message_seen;
       destruct (inRoom sk) as [[rc0 u]|]; try (intros H; by left).
  all: try (destruct (addressed rc0 _ st) as [[i m]|] eqn:Ha;
            [|intros H; by left]).
  all: try (destruct (bool_decide _); try (intros H; by left)).
  all: try (simpl; apply (storeAt_log_evolves rc0 _ i m _ st rc new Ha);
            repeat split; try done; simpl; set_solver).
  all: simpl; intros Hget; eapply log_evolves_set; [exact Hget|];
       right; right; eexists; repeat split; reflexivity.
Qed.

Lemma step_log_evolves v env i st st' out rc new :
  step v env i st = Some (st', out) ->
  jm_get rc (messages st') = Some new ->
  log_evolves (jm_get rc (messages st)) new.
Proof.
  destruct i; simpl; intros Hs.
  - destruct (jm_has sid (sockets st)); simplify_eq; [|pin_state]; intros H; by left.
  - by eapply handle_log_evolves.
  - simplify_eq. pin_state. rewrite (proj2 (pingInterval_frame _ _ _)).
    intros H; by left.
  - simplify_eq. pin_state. rewrite startConnectionHealthCheck_messages.
    intros H; by left.
  - destruct v; simplify_eq; [intros H; by left|]. unfold periodicCleanup.
    apply (fold_left_keeps (cleanupRoom (now env))
             (fun s => jm_get rc (messages s) = Some new ->
                       log_evolves (jm_get rc (messages st)) new)).
    + intros s k HP.
      destruct (cleanupRoom_cases (now env) s k) as [->|(r & _ & _ & _ & _ & ->)];
        [done|].
      rewrite jm_get_delete. destruct (decide (k = rc)); [done|exact HP].
    + apply (fold_left_keeps (cleanupRequest (now env))
               (fun s => jm_get rc (messages s) = Some new ->
                         log_evolves (jm_get rc (messages st)) new));
        [|intros H; by left].
      intros s k HP. by rewrite (proj2 (cleanupRequest_frame (now env) s k)).
  - simplify_eq. unfold runTimeouts.
    apply (fold_left_keeps (fun s t => emptyRoomTimeout v t.2 s)
             (fun s => jm_get rc (messages s) = Some new ->
                       log_evolves (jm_get rc (messages st)) new));
      [|intros H; by left].
    intros s [d k] HP. simpl.
    destruct (emptyRoomTimeout_cases v s k) as [->|(r & _ & _ & _ & ->)]; [done|].
    rewrite jm_get_delete. destruct (decide (k = rc)); [done|exact HP].
Qed.

Lemma retained_length l : (length (retained l) <= 100)%nat.
Proof.
  unfold retained. destruct (100 <? length l)%nat eqn:E.
  - unfold slice_last. rewrite length_drop. lia.
  - apply Nat.ltb_ge in E. lia.
Qed.

Lemma retained_snoc (old : list Message) m :
  (length old <= 100)%nat ->
  retained (old ++ [m])
  = (if (length old <? 100)%nat then old else drop 1 old) ++ [m].
Proof.
  intros Hlen. unfold retained, slice_last. rewrite length_app. simpl.
  destruct (length old <? 100)%nat eqn:E.
  - apply Nat.ltb_lt in E.
    by rewrite (proj2 (Nat.ltb_ge 100 (length old + 1)) ltac:(lia)).
  - apply Nat.ltb_ge in E.
    rewrite (proj2 (Nat.ltb_lt 100 (length old + 1)) ltac:(lia)).
    replace (length old + 1 - 100)%nat with 1%nat by lia.
    destruct old; [simpl in *; lia|done].
Qed.

(** X1.  [message-seen] is idempotent: sent a second time it changes nothing
    and sends nothing.  The first time it adds the caller's name to the
    seen-set of the addressed message unless it is there already, and it
    removes no name. *)
Theorem message_seen_is_idempotent
  (env env' : Env) (sid : SocketId) (sk : Socket) (messageId : string) (st : State) :
  let once := on_message_seen env sid sk messageId st in
  let twice := on_message_seen env' sid sk messageId once.1 in
  twice = (once.1, [])
  /\ forall rc u i m,
       inRoom sk = Some (rc, u) -> addressed rc messageId st = Some (i, m) ->
       exists m1,
         addressed rc messageId once.1 = Some (i, m1)
         /\ u_userName u ∈ m_seenBy m1
         /\ m_seenBy m ⊆ m_seenBy m1
         /\ (u_userName u ∈ m_seenBy m -> once = (st, []))
         /\ (u_userName u ∉ m_seenBy m ->
             m_seenBy m1 = m_seenBy m ++ [u_userName u]
             /\ once.2 = [(IoTo rc, message_seen_updated messageId (m_seenBy m1))]).
Proof.
  intros once twice. unfold twice, once, on_message_seen.
  destruct (inRoom sk) as [[rc u]|] eqn:Hin; [|split; [done|by intros]].
  destruct (addressed rc messageId st) as [[i m]|] eqn:Ha.
  - destruct (decide (u_userName u ∈ m_seenBy m)) as [Hseen|Hnot].
    + rewrite (bool_decide_eq_true_2 _ Hseen). simpl. rewrite Ha.
      rewrite (bool_decide_eq_true_2 _ Hseen). split; [done|].
      intros rc' u' i' m' [= <- <-] Ha'. rewrite Ha in Ha'.
      injection Ha' as <- <-. exists m. by repeat split.
    + rewrite (bool_decide_eq_false_2 _ Hnot). simpl.
      set (m1 := setSeenBy (m_seenBy m ++ [u_userName u]) m).
      assert (Ha1 : addressed rc messageId (storeAt rc i m1 st) = Some (i, m1))
        by (by apply (addressed_storeAt rc messageId st i m m1)).
      rewrite Ha1.
      assert (Hin1 : u_userName u ∈ m_seenBy m1).
      { simpl. apply elem_of_app. right. apply list_elem_of_here. }
      rewrite (bool_decide_eq_true_2 _ Hin1). split; [done|].
      intros rc' u' i' m' [= <- <-] Ha'. rewrite Ha in Ha'.
      injection Ha' as <- <-. exists m1.
      split; [done|]. split; [done|].
      split; [intros x Hx; simpl; apply elem_of_app; by left|].
      split; [intros H; contradiction|]. intros _. split; reflexivity.
  - simpl. rewrite Ha. split; [done|].
    intros rc' u' i' m' [= <- <-] Ha'. congruence.
Qed.

Lemma message_seen_is_idempotent_witness :
  let st := state_after ServerJs one_message in
  let sk := mkSocket (Some bob) (Some "ABC123") in
  exists m1,
    addressed "ABC123" "10k3x9q"
      (on_message_seen (mkEnv 40 []) "b" sk "10k3x9q" st).1 = Some (0%nat, m1)
    /\ m_seenBy m1 = ["Ann"; "Bob"].
Proof.
  intros st sk.
  assert (Hm : exists m, addressed "ABC123" "10k3x9q" st = Some (0%nat, m)
                         /\ m_seenBy m = ["Ann"]).
  { eexists. split; vm_compute; reflexivity. }
  destruct Hm as (m & Ha & Hs).
  destruct (proj2 (message_seen_is_idempotent (mkEnv 40 []) (mkEnv 41 []) "b" sk
                     "10k3x9q" st) "ABC123" bob 0%nat m eq_refl Ha)
    as (m1 & Ha1 & _ & _ & _ & Hadd).
  exists m1. split; [exact Ha1|].
  destruct Hadd as [-> _].
  - rewrite Hs. simpl. intros H. apply list_elem_of_singleton in H. discriminate H.
  - rewrite Hs. reflexivity.
Defined.

(** X2.  In every reachable state every message log holds at most 100
    messages. *)
Theorem message_logs_hold_at_most_100 (v : Revision) (st : State) :
  reachable v st -> logs_capped (messages st).
Proof.
  induction 1 as [|st env i st' out Hr IH Hs]; [by intros rc log|].
  intros rc new Hnew.
  destruct (step_log_evolves v env i st st' out rc new Hs Hnew)
    as [Hsame|[(log & j & m & m' & Hold & _ & _ & ->)|(m & _ & _ & _ & _ & ->)]].
  - by eapply IH.
  - rewrite length_insert. by eapply IH.
  - apply retained_length.
Qed.

Lemma message_logs_hold_at_most_100_witness :
  logs_capped (messages (state_after ServerJs one_message)).
Proof.
  apply (message_logs_hold_at_most_100 ServerJs).
  apply (run_reachable ServerJs one_message init); [apply reachable_init|].
  vm_compute. reflexivity.
Defined.

(** X3.  Posting a message appends it to the log of the poster's room, and
    when the log already holds 100 messages the oldest one is dropped; the
    logs of other rooms are untouched and the message is broadcast to the
    room. *)
Theorem posting_appends_and_evicts_the_oldest
  (env : Env) (sid : SocketId) (sk : Socket) (rc : string) (u : User)
  (text type fileUrl fileName : option string) (fileSize : option Z) (st : State) :
  inRoom sk = Some (rc, u) ->
  let old := default [] (jm_get rc (messages st)) in
  (length old <= 100)%nat ->
  let posted := on_message env sid sk text type fileUrl fileName fileSize st in
  exists m,
    jm_get rc (messages posted.1)
    = Some ((if (length old <? 100)%nat then old else drop 1 old) ++ [m])
    /\ m_text m = text /\ m_timestamp m = now env
    /\ m_edited m = false /\ m_deleted m = false /\ m_reactions m = ∅
    /\ posted.2 = [(IoTo rc, message m)]
    /\ (forall rc', rc' <> rc ->
          jm_get rc' (messages posted.1) = jm_get rc' (messages st)).
Proof.
  intros Hin old Hlen posted. unfold posted, on_message. rewrite Hin. simpl.
  eexists. split.
  - rewrite jm_get_set_eq. f_equal. apply (retained_snoc old _ Hlen).
  - repeat split. intros rc' Hne. by rewrite jm_get_set_ne.
Qed.

Lemma posting_appends_witness :
  let st := state_after ServerJs one_message in
  let sk := mkSocket (Some bob) (Some "ABC123") in
  exists m,
    (length <$> jm_get "ABC123"
       (messages (on_message (mkEnv 50 ["0.zz81k0"]) "b" sk (Some "second") None
                    None None None st).1)) = Some 2%nat
    /\ (on_message (mkEnv 50 ["0.zz81k0"]) "b" sk (Some "second") None None None
          None st).2 = [(IoTo "ABC123", message m)]
    /\ m_text m = Some "second".
Proof.
  intros st sk.
  destruct (posting_appends_and_evicts_the_oldest (mkEnv 50 ["0.zz81k0"]) "b" sk
              "ABC123" bob (Some "second") None None None None st eq_refl)
    as (m & Hlog & Ht & _ & _ & _ & _ & Hout & _).
  - vm_compute. lia.
  - exists m. split; [|split; [exact Hout|exact Ht]].
    rewrite Hlog. vm_compute. reflexivity.
Defined.

(** ** Rewrites in place *)

Lemma jm_keys_set_present {K V} `{EqDecision K} (k : K) (v : V) (m : JsMap K V) :
  is_Some (jm_get k m) -> jm_keys (jm_set k v m) = jm_keys m.
Proof.
  induction m as [|[k0 v0] m IH]; simpl; [by intros [? ?]|].
  destruct (decide (k = k0)) as [->|Hne]; [done|].
  intros Hs. unfold jm_keys in *. simpl. f_equal. by apply IH.
Qed.

Lemma storeAt_map {A} (f : Message -> A) rc messageId i m m' st rc' :
  addressed rc messageId st = Some (i, m) -> f m' = f m ->
  map f <$> jm_get rc' (messages (storeAt rc i m' st))
  = map f <$> jm_get rc' (messages st).
Proof.
  intros Ha Hf. destruct (addressed_log _ _ _ _ _ Ha) as (log & Hlog & Hl & _).
  unfold storeAt. simpl. rewrite Hlog, jm_get_set. simpl.
  destruct (decide (rc = rc')) as [<-|]; [|done].
  rewrite Hlog. simpl. f_equal.
  rewrite list_fmap_insert, Hf. apply list_insert_id. by rewrite list_lookup_fmap, Hl.
Qed.

Lemma storeAt_keys rc messageId i m m' st :
  addressed rc messageId st = Some (i, m) ->
  jm_keys (messages (storeAt rc i m' st)) = jm_keys (messages st).
Proof.
  intros Ha. destruct (addressed_log _ _ _ _ _ Ha) as (log & Hlog & _).
  unfold storeAt. simpl. apply jm_keys_set_present. by rewrite Hlog.
Qed.

(** X4.  Editing, soft-deleting, reacting to and marking a message seen
    never add, remove or reorder messages: every log keeps its messages'
    identifiers, authors and time stamps in the same order, and no log
    appears or disappears.  A soft delete, a reaction and a seen mark also
    keep every text. *)
Theorem rewrites_keep_every_message_in_place
  (env : Env) (sid : SocketId) (sk : Socket) (messageId newText reaction : string)
  (st : State) :
  let edit := (on_edit_message env sid sk messageId newText st).1 in
  let del := (on_delete_message env sid sk messageId st).1 in
  let react := (on_message_reaction env sid sk messageId reaction st).1 in
  let seen := (on_message_seen env sid sk messageId st).1 in
  (forall st', st' = edit \/ st' = del \/ st' = react \/ st' = seen ->
     jm_keys (messages st') = jm_keys (messages st)
     /\ forall rc, identities <$> jm_get rc (messages st')
                   = identities <$> jm_get rc (messages st))
  /\ (forall st', st' = del \/ st' = react \/ st' = seen ->
        forall rc, map m_text <$> jm_get rc (messages st')
                   = map m_text <$> jm_get rc (messages st)).
Proof.
  intros edit del react seen.
  unfold edit, del, react, seen, on_edit_message, on_delete_message,
    on_message_reaction, on_message_seen, identities.
  destruct (inRoom sk) as [[rc0 u]|]; [|split; intros st' H; intuition (by subst)].
  destruct (addressed rc0 messageId st) as [[i m]|] eqn:Ha;
    [|split; intros st' H; intuition (by subst)].
  destruct (bool_decide (m_userName m = u_userName u)),
    (bool_decide (u_userName u ∈ m_seenBy m)); simpl;
    (split; intros st' H;
     [split; [|intros rc]|intros rc]);
    repeat (destruct H as [H|H]); subst st'; simpl;
    try done;
    try (by apply (storeAt_keys rc0 messageId i m _ st Ha));
    by apply (storeAt_map _ rc0 messageId i m _ st rc Ha).
Qed.

Lemma rewrites_keep_every_message_witness :
  let st := state_after ServerJs one_message in
  let sk := mkSocket (Some ann) (Some "ABC123") in
  identities <$> jm_get "ABC123"
    (messages (on_delete_message (mkEnv 60 []) "a" sk "10k3x9q" st).1)
  = Some [("10k3x9q"%string, "Ann"%string, 10)]
  /\ map m_text <$> jm_get "ABC123"
       (messages (on_delete_message (mkEnv 60 []) "a" sk "10k3x9q" st).1)
     = Some [Some "hello"%string].
Proof.
  intros st sk.
  destruct (rewrites_keep_every_message_in_place (mkEnv 60 []) "a" sk "10k3x9q"
              "" "" st) as [Hid Htext].
  destruct (Hid (on_delete_message (mkEnv 60 []) "a" sk "10k3x9q" st).1) as [_ Hrc].
  - right. left. reflexivity.
  - split.
    + rewrite Hrc. vm_compute. reflexivity.
    + rewrite Htext by (left; reflexivity). vm_compute. reflexivity.
Defined.

(** ** Joining a room *)

Lemma jm_size_set {K V} `{EqDecision K} (k : K) (v : V) (m : JsMap K V) :
  jm_size (jm_set k v m)
  = if jm_has k m then jm_size m else S (jm_size m).
Proof.
  unfold jm_has, jm_size. induction m as [|[k0 v0] m IH]; simpl; [done|].
  destruct (decide (k = k0)) as [->|Hne]; simpl; [done|].
  rewrite IH. by destruct (jm_get k m).
Qed.

(** X5.  A [join-room] that fails changes nothing and answers the caller
    alone, for a code made of ASCII characters: with [RoomNotFound] when no
    room is stored under the upper-cased code, with [WrongPassword] when the
    room has a password and the one sent differs from it (an absent password
    included). *)
Theorem failed_join_changes_nothing
  (env : Env) (sid : SocketId) (roomCode userName : string)
  (userPhoto password : option string) (st : State) :
  ascii_only roomCode = true ->
  let joined := on_join_room env sid roomCode userName userPhoto password st in
  (jm_get (toUpperCase roomCode) (rooms st) = None ->
   joined = (st, [(SocketEmit sid, error RoomNotFound)]))
  /\ (forall room p,
        jm_get (toUpperCase roomCode) (rooms st) = Some room ->
        r_password room = Some p -> js_truthy p = true -> password <> Some p ->
        joined = (st, [(SocketEmit sid, error WrongPassword)])).
Proof.
  intros _ joined. unfold joined, on_join_room. split.
  - by intros ->.
  - intros room p -> -> -> Hne. by rewrite (bool_decide_eq_false_2 _ Hne).
Qed.

Lemma failed_join_changes_nothing_witness :
  let st := state_after ServerJs three_in_a_room in
  on_join_room (mkEnv 9 []) "z" "nosuch" "Zed" None None st
  = (st, [(SocketEmit "z", error RoomNotFound)]).
Proof.
  intros st.
  apply (proj1 (failed_join_changes_nothing (mkEnv 9 []) "z" "nosuch" "Zed" None
                  None st eq_refl)).
  vm_compute. reflexivity.
Defined.

Lemma newUser_entered_as sid userName userPhoto isOwner :
  entered_as sid userName userPhoto isOwner (newUser sid userName userPhoto isOwner).
Proof.
  split; [done|]. split; [done|]. split; [done|].
  split; [apply generateUserColor_palette|]. split; [|done].
  intros photo Hphoto. simpl. unfold photoOrDefault. by rewrite Hphoto.
Qed.

(** X6.  A [join-room] that finds the room, and whose password is accepted
    (the room has none, or the one sent equals it), adds the caller to the
    room's members without removing or changing any other member.  The
    record it stores for the caller, in the room, in [users] and as the
    socket's current user, carries the caller's identity and name, the owner
    flag exactly when the caller is the room's recorded owner, a colour of
    the palette and the photo sent, if any; for a name of ASCII characters it
    is the record [newUser] builds.  The caller is answered with that colour
    and the last 50 messages of the log stored under the code as sent, and
    every other room is left alone.  The membership grows by one unless the
    caller was already a member. *)
Theorem successful_join_adds_the_caller
  (env : Env) (sid : SocketId) (roomCode userName : string)
  (userPhoto password : option string) (room : Room) (st : State) :
  jm_get (toUpperCase roomCode) (rooms st) = Some room ->
  r_password room = None \/ r_password room = password ->
  let joined := on_join_room env sid roomCode userName userPhoto password st in
  exists room' user,
    entered_as sid userName userPhoto (bool_decide (r_owner room = sid)) user
    /\ jm_get (toUpperCase roomCode) (rooms joined.1) = Some room'
    /\ jm_get sid (r_users room') = Some user
    /\ (forall s, s <> sid -> jm_get s (r_users room') = jm_get s (r_users room))
    /\ jm_size (r_users room')
       = (if jm_has sid (r_users room) then jm_size (r_users room)
          else S (jm_size (r_users room)))
    /\ r_owner room' = r_owner room /\ r_code room' = r_code room
    /\ r_screenSharing room' = r_screenSharing room
    /\ (forall k, k <> toUpperCase roomCode ->
          jm_get k (rooms joined.1) = jm_get k (rooms st))
    /\ jm_get sid (sockets joined.1) = Some (mkSocket (Some user) (Some roomCode))
    /\ jm_get sid (users joined.1) = Some (mkUserEntry roomCode user)
    /\ exists previousMessages,
         head joined.2
         = Some (SocketEmit sid,
                 room_joined (r_code room) (r_name room)
                   (bool_decide (r_owner room = sid)) (u_userColor user)
                   previousMessages (r_screenSharing room))
         /\ previousMessages
            = slice_last 50 (default [] (jm_get roomCode (messages st)))
         /\ (length previousMessages <= 50)%nat.
Proof.
  intros Hroom Hpw joined. unfold joined, on_join_room. rewrite Hroom.
  assert (Hok : match r_password room with
                | Some p => js_truthy p && negb (bool_decide (password = Some p))
                | None => false
                end = false).
  { destruct Hpw as [->|Hp]; [done|].
    destruct (r_password room) as [p|]; [|done].
    rewrite (bool_decide_eq_true_2 _ (eq_sym Hp)). apply andb_false_r. }
  rewrite Hok. simpl.
  eexists _, (newUser sid userName userPhoto (bool_decide (r_owner room = sid))).
  split; [apply newUser_entered_as|].
  rewrite !jm_get_set_eq.
  split; [done|]. simpl. rewrite jm_get_set_eq.
  split; [done|]. split; [intros s Hs; by rewrite jm_get_set_ne|].
  split; [apply jm_size_set|]. split; [done|]. split; [done|]. split; [done|].
  split; [intros k Hk; by rewrite jm_get_set_ne|]. split; [done|]. split; [done|].
  eexists. split; [reflexivity|]. split; [done|].
  unfold slice_last. rewrite length_drop. lia.
Qed.

Lemma successful_join_adds_the_caller_witness :
  let st := state_after ServerJs one_message in
  exists room',
    jm_get "ABC123"
      (rooms (on_join_room (mkEnv 70 []) "z" "ABC123" "Zed" None None st).1)
    = Some room'
    /\ jm_size (r_users room') = 4%nat.
Proof.
  intros st.
  destruct (successful_join_adds_the_caller (mkEnv 70 []) "z" "ABC123" "Zed" None
              None
              (mkRoom "ABC123" "room" None "a"
                 [("a", ann); ("b", bob); ("c", newUser "c" "Cy" None false)]
                 None 1) st)
    as (room' & user & _ & Hroom' & _ & _ & Hsize & _).
  - vm_compute. reflexivity.
  - left. reflexivity.
  - exists room'. split; [exact Hroom'|]. rewrite Hsize. reflexivity.
Defined.

(** X7.  Creating a room and then joining it.  A second connection that
    joins under the code just assigned, with an accepted password, leaves
    the room with exactly two members: the creator, flagged owner, and the
    joiner, not flagged, each with the record stored for it on entering; the
    creator is told the code with the colour of its record.  A join with a
    password that differs from the non-empty password given at creation is
    refused; a room created with an empty password accepts any. *)
Theorem create_then_join
  (env0 env : Env) (sid0 sid : SocketId)
  (nameA nameB : string) (photoA photoB : option string) (roomName : string)
  (p pw : option string) (st st1 : State) (out1 : list Emit) :
  on_create_room env0 sid0 nameA photoA roomName p st = Some (st1, out1) ->
  sid <> sid0 ->
  exists roomCode creator,
    entered_as sid0 nameA photoA true creator
    /\ out1 = [(SocketEmit sid0,
                room_created roomCode roomName true (u_userColor creator))]
    /\ let joined := on_join_room env sid roomCode nameB photoB pw st1 in
       (js_or_null p = None \/ js_or_null p = pw ->
        exists joiner,
          entered_as sid nameB photoB false joiner
          /\ (r_users <$> jm_get roomCode (rooms joined.1))
             = Some [(sid0, creator); (sid, joiner)])
       /\ (forall q, js_or_null p = Some q -> pw <> Some q ->
             joined = (st1, [(SocketEmit sid, error WrongPassword)])).
Proof.
  intros Hc Hne. unfold on_create_room in Hc.
  destruct (pickRoomCode (rand env0) (rooms st)) as [roomCode|] eqn:Hpick; [|done].
  injection Hc as <- <-. exists roomCode, (newUser sid0 nameA photoA true).
  split; [apply newUser_entered_as|]. split; [done|].
  destruct (pickRoomCode_unused _ _ _ Hpick) as (_ & d & _ & Hd).
  assert (Hup : toUpperCase roomCode = roomCode)
    by (rewrite Hd; apply toUpperCase_idem).
  unfold on_join_room. simpl. rewrite Hup, jm_get_set_eq. simpl. split.
  - intros Hpw.
    assert (Hok : match js_or_null p with
                  | Some q => js_truthy q && negb (bool_decide (pw = Some q))
                  | None => false
                  end = false).
    { destruct Hpw as [->|Hp]; [done|].
      destruct (js_or_null p) as [q|]; [|done].
      rewrite (bool_decide_eq_true_2 _ (eq_sym Hp)). apply andb_false_r. }
    rewrite Hok. simpl. rewrite jm_get_set_eq. simpl.
    exists (newUser sid nameB photoB false).
    split; [apply newUser_entered_as|].
    destruct (decide (sid = sid0)); [done|].
    by rewrite (bool_decide_eq_false_2 (sid0 = sid)) by congruence.
  - intros q Hq Hpw. rewrite Hq.
    assert (Htruthy : js_truthy q = true).
    { unfold js_or_null in Hq. destruct p as [s|]; [|done].
      destruct (js_truthy s) eqn:E; [|done]. congruence. }
    by rewrite Htruthy, (bool_decide_eq_false_2 _ Hpw).
Qed.

Lemma create_then_join_witness :
  let st := (on_connection (mkEnv 0 []) "a" init).1 in
  exists st1 out1 roomCode,
    on_create_room (mkEnv 1 ["0.q7w8e9r"]) "a" "Ann" None "den" (Some "s3cret") st
    = Some (st1, out1)
    /\ on_join_room (mkEnv 2 []) "b" roomCode "Bob" None (Some "guess") st1
       = (st1, [(SocketEmit "b", error WrongPassword)]).
Proof.
  intros st.
  destruct (on_create_room (mkEnv 1 ["0.q7w8e9r"]) "a" "Ann" None "den"
              (Some "s3cret") st) as [[st1 out1]|] eqn:Hc;
    [|vm_compute in Hc; discriminate Hc].
  destruct (create_then_join (mkEnv 1 ["0.q7w8e9r"]) (mkEnv 2 []) "a" "b" "Ann" "Bob"
              None None "den" (Some "s3cret") (Some "guess") st st1 out1 Hc)
    as (roomCode & creator & _ & _ & _ & Hwrong).
  - discriminate.
  - exists st1, out1, roomCode. split; [reflexivity|].
    apply (Hwrong "s3cret"%string); [reflexivity|discriminate].
Defined.

(** ** Where rooms come from *)

Lemma same_room_refl room : same_room room room.
Proof. by repeat split. Qed.

Lemma rooms_descend_refl rs : rooms_descend rs rs.
Proof. intros k room H. eauto using same_room_refl. Qed.

Lemma rooms_descend_trans rs1 rs2 rs3 :
  rooms_descend rs1 rs2 -> rooms_descend rs2 rs3 -> rooms_descend rs1 rs3.
Proof.
  intros H12 H23 k room3 H3.
  destruct (H23 _ _ H3) as (room2 & H2 & E2).
  destruct (H12 _ _ H2) as (room1 & H1 & E1).
  exists room1. split; [done|].
  destruct E1 as (? & ? & ? & ? & ?), E2 as (? & ? & ? & ? & ?).
  repeat split; congruence.
Qed.

Lemma rooms_descend_set rs k room room' :
  jm_get k rs = Some room -> same_room room room' ->
  rooms_descend rs (jm_set k room' rs).
Proof.
  intros Hk Hs k' r'. rewrite jm_get_set.
  destruct (decide (k = k')) as [<-|]; [|eauto using same_room_refl].
  intros [= <-]. eauto.
Qed.

Lemma rooms_descend_delete rs k : rooms_descend rs (jm_delete k rs).
Proof.
  intros k' r'. rewrite jm_get_delete.
  destruct (decide (k = k')); [done|eauto using same_room_refl].
Qed.

Lemma on_join_room_descend env sid roomCode userName userPhoto password st :
  rooms_descend (rooms st)
    (rooms (on_join_room env sid roomCode userName userPhoto password st).1).
Proof.
  destruct (on_join_room_cases env sid roomCode userName userPhoto password st)
    as [->|(room & Hroom & -> & _)]; [apply rooms_descend_refl|].
  eapply rooms_descend_set; [done|]. by repeat split.
Qed.

Lemma on_approve_screen_share_descend env sid sk requesterSocketId st :
  rooms_descend (rooms st)
    (rooms (on_approve_screen_share env sid sk requesterSocketId st).1).
Proof.
  unfold on_approve_screen_share.
  repeat case_match; simpl; try apply rooms_descend_refl.
  eapply rooms_descend_set; [done|]. by repeat split.
Qed.

Lemma on_stop_screen_share_descend env sid sk st :
  rooms_descend (rooms st) (rooms (on_stop_screen_share env sid sk st).1).
Proof.
  unfold on_stop_screen_share.
  repeat case_match; simpl; try apply rooms_descend_refl.
  eapply rooms_descend_set; [done|]. by repeat split.
Qed.

Lemma on_disconnect_descend v env sid sk st :
  rooms_descend (rooms st) (rooms (on_disconnect v env sid sk st).1).
Proof.
  unfold on_disconnect.
  set (st1 := set_connectionMonitor _ _).
  pose proof (disconnectCall_frame sid st1) as (R2 & _).
  destruct (disconnectCall sid st1) as [st2 out2]. simpl in R2.
  assert (R3 : rooms_descend (rooms st2) (rooms (disconnectScreenShare v sid sk st2).1)).
  { unfold disconnectScreenShare.
    repeat case_match; simpl; try apply rooms_descend_refl.
    eapply rooms_descend_set; [done|]. by repeat split. }
  destruct (disconnectScreenShare v sid sk st2) as [st3 out3]. simpl in R3.
  assert (R4 : rooms_descend (rooms st3) (rooms (disconnectRoom env sid sk st3).1)).
  { unfold disconnectRoom.
    repeat case_match; simpl; try apply rooms_descend_refl;
      (eapply rooms_descend_set; [done|]; by repeat split). }
  destruct (disconnectRoom env sid sk st3) as [st4 out4]. simpl in *.
  rewrite R2 in R3. eapply rooms_descend_trans; eauto.
Qed.

Lemma startConnectionHealthCheck_descend v env st :
  rooms_descend (rooms st) (rooms (startConnectionHealthCheck v env st).1).
Proof.
  unfold startConnectionHealthCheck.
  apply (fold_left_keeps (healthCheckEntry v env)
           (fun acc => rooms_descend (rooms st) (rooms acc.1)));
    [|apply rooms_descend_refl].
  intros [s out] k HP. unfold healthCheckEntry.
  destruct (jm_get k (connectionMonitor s)) as [conn|]; [|done].
  destruct (timedOut (now env) conn); [|done].
  destruct (jm_get k (sockets s)) as [sk|]; [|done].
  pose proof (on_disconnect_descend v env k sk s) as R.
  destruct (on_disconnect v env k sk s) as [s1 out1]. simpl in *.
  eapply rooms_descend_trans; eauto.
Qed.

Lemma runTimeouts_descend v env st :
  rooms_descend (rooms st) (rooms (runTimeouts v env st)).
Proof.
  unfold runTimeouts.
  apply (fold_left_keeps (fun s t => emptyRoomTimeout v t.2 s)
           (fun s => rooms_descend (rooms st) (rooms s)));
    [|apply rooms_descend_refl].
  intros s [d k] HP. eapply rooms_descend_trans; [exact HP|]. simpl.
  destruct (emptyRoomTimeout_cases v s k) as [->|(r & _ & _ & -> & _)];
    [apply rooms_descend_refl|apply rooms_descend_delete].
Qed.

Lemma periodicCleanup_descend env st :
  rooms_descend (rooms st) (rooms (periodicCleanup env st)).
Proof.
  unfold periodicCleanup.
  apply (fold_left_keeps (cleanupRoom (now env))
           (fun s => rooms_descend (rooms st) (rooms s))).
  - intros s k HP. eapply rooms_descend_trans; [exact HP|].
    destruct (cleanupRoom_cases (now env) s k) as [->|(r & _ & _ & _ & -> & _)];
      [apply rooms_descend_refl|apply rooms_descend_delete].
  - apply (fold_left_keeps (cleanupRequest (now env))
             (fun s => rooms_descend (rooms st) (rooms s)));
      [|apply rooms_descend_refl].
    intros s k HP. by rewrite (proj1 (cleanupRequest_frame (now env) s k)).
Qed.

Lemma on_create_room_origin
  env sid userName userPhoto roomName password st st' out k room' :
  on_create_room env sid userName userPhoto roomName password st = Some (st', out) ->
  jm_get k (rooms st') = Some room' ->
  (exists room, jm_get k (rooms st) = Some room /\ same_room room room')
  \/ (jm_get k (rooms st) = None
      /\ (exists d, d ∈ rand env /\ k = generateRoomCode d)
      /\ r_code room' = k /\ r_createdAt room' = now env
      /\ r_owner room' = sid
      /\ r_users room' = [(sid, newUser sid userName userPhoto true)]).
Proof.
  unfold on_create_room.
  destruct (pickRoomCode (rand env) (rooms st)) as [roomCode|] eqn:Hpick; [|done].
  intros [= <- <-]. simpl. rewrite jm_get_set.
  destruct (pickRoomCode_unused _ _ _ Hpick) as (Hfree & d & Hin & Hd).
  destruct (decide (roomCode = k)) as [<-|]; [|left; eauto using same_room_refl].
  intros [= <-]. right. simpl. split; [done|]. split; [eauto|]. done.
Qed.

(** A room found after a step was there before the step, or the step was
    the [create-room] that made it. *)
Lemma step_rooms_origin v env i st st' out k room' :
  step v env i st = Some (st', out) ->
  jm_get k (rooms st') = Some room' ->
  (exists room, jm_get k (rooms st) = Some room /\ same_room room room')
  \/ (jm_get k (rooms st) = None
      /\ (exists d, d ∈ rand env /\ k = generateRoomCode d)
      /\ r_code room' = k /\ r_createdAt room' = now env
      /\ exists sid userName userPhoto,
           r_owner room' = sid
           /\ r_users room' = [(sid, newUser sid userName userPhoto true)]).
Proof.
  intros Hs Hk.
  assert (Hd : rooms_descend (rooms st) (rooms st') -> 
               exists room, jm_get k (rooms st) = Some room /\ same_room room room')
    by (intros Hd; by apply Hd).
  destruct i; simpl in Hs.
  - left. apply Hd. destruct (jm_has sid (sockets st)); simplify_eq;
      [|pin_state]; apply rooms_descend_refl.
  - unfold handle in Hs.
    destruct (jm_get sid (sockets st)) as [sk|];
      [|simplify_eq; left; apply Hd, rooms_descend_refl].
    destruct ev; try destruct v; simplify_eq; try pin_state;
      try (left; apply Hd; simpl;
           rewrite ?on_message_rooms, ?on_edit_message_rooms,
             ?on_delete_message_rooms, ?on_message_reaction_rooms,
             ?on_message_seen_rooms, ?on_request_delete_music_frame;
           rewrite ?(proj1 (on_request_screen_share_frame _ _ _ _)),
             ?(proj1 (on_reject_screen_share_frame _ _ _ _ _)),
             ?(proj1 (on_upload_playlist_music_frame _ _ _ _ _ _ _)),
             ?(proj1 (on_confirm_delete_music_frame _ _ _ _ _)),
             ?(proj1 (on_start_call_frame _ _ _ _ _ _ _ _)),
             ?(proj1 (on_reject_call_frame _ _ _ _ _)),
             ?(proj1 (on_end_call_frame _ _ _ _ _)),
             ?(proj1 (refreshPing_frame _ _ _));
           solve [eauto using rooms_descend_refl, on_join_room_descend,
                    on_approve_screen_share_descend, on_stop_screen_share_descend,
                    on_disconnect_descend]).
    all: destruct (on_create_room_origin _ _ _ _ _ _ _ _ _ _ _ Hs Hk)
           as [?|(? & ? & ? & ? & ? & ?)]; [by left|right; eauto 10].
  - left. apply Hd. simplify_eq. pin_state.
    rewrite (proj1 (pingInterval_frame _ _ _)). apply rooms_descend_refl.
  - left. apply Hd. simplify_eq. pin_state. apply startConnectionHealthCheck_descend.
  - left. apply Hd. destruct v; simplify_eq;
      [apply rooms_descend_refl|apply periodicCleanup_descend].
  - left. apply Hd. simplify_eq. apply runTimeouts_descend.
Qed.

Lemma toUpperCase_length s : String.length (toUpperCase s) = String.length s.
Proof. induction s as [|c s IH]; simpl; [done|]. by rewrite IH. Qed.

Lemma substring_length_le n m s : (String.length (substring n m s) <= m)%nat.
Proof.
  revert n m. induction s as [|c s IH]; intros [|n] [|m]; simpl; try lia.
  - specialize (IH 0%nat m). lia.
  - apply IH.
  - apply IH.
Qed.

Lemma substring_length_exact n m s :
  (n + m <= String.length s)%nat -> String.length (substring n m s) = m.
Proof.
  revert n m. induction s as [|c s IH]; intros [|n] [|m]; simpl; try lia.
  - intros H. rewrite (IH 0%nat m); lia.
  - intros H. apply IH. lia.
  - intros H. apply IH. lia.
Qed.

(** X8.  A room code is made of at most six characters, exactly six when the
    random text has at least eight, and upper-casing leaves it as it is; in
    every reachable state every room is stored under such a code and
    carries it. *)
Theorem room_codes_are_short_and_upper_case :
  (forall d,
     (String.length (generateRoomCode d) <= 6)%nat
     /\ ((8 <= String.length d)%nat -> String.length (generateRoomCode d) = 6%nat)
     /\ toUpperCase (generateRoomCode d) = generateRoomCode d)
  /\ (forall v st k room,
        reachable v st -> jm_get k (rooms st) = Some room ->
        r_code room = k /\ toUpperCase k = k /\ (String.length k <= 6)%nat).
Proof.
  assert (Hgen : forall d,
     (String.length (generateRoomCode d) <= 6)%nat
     /\ ((8 <= String.length d)%nat -> String.length (generateRoomCode d) = 6%nat)
     /\ toUpperCase (generateRoomCode d) = generateRoomCode d).
  { intros d. unfold generateRoomCode, substr. rewrite toUpperCase_length.
    split; [apply substring_length_le|].
    split; [intros H; apply substring_length_exact; lia|apply toUpperCase_idem]. }
  split; [exact Hgen|].
  intros v st k room Hr. revert k room.
  induction Hr as [|st env i st' out Hr IH Hs]; [done|].
  intros k room' Hk.
  destruct (step_rooms_origin v env i st st' out k room' Hs Hk)
    as [(room & Hroom & Hcode & _)|(_ & (d & _ & ->) & Hcode & _)].
  - rewrite Hcode. by apply IH.
  - destruct (Hgen d) as (Hlen & _ & Hup). done.
Qed.

Lemma room_codes_are_short_witness :
  let room :=
    mkRoom "ABC123" "room" None "a"
      [("a", ann); ("b", bob); ("c", newUser "c" "Cy" None false)] None 1 in
  jm_get "ABC123" (rooms (state_after ServerJs three_in_a_room)) = Some room
  /\ r_code room = "ABC123"%string /\ toUpperCase "ABC123" = "ABC123"%string
  /\ (String.length "ABC123" <= 6)%nat.
Proof.
  intros room.
  assert (Hk : jm_get "ABC123" (rooms (state_after ServerJs three_in_a_room))
               = Some room) by (vm_compute; reflexivity).
  split; [exact Hk|].
  apply (proj2 room_codes_are_short_and_upper_case ServerJs
           (state_after ServerJs three_in_a_room) "ABC123" room); [|exact Hk].
  apply (run_reachable ServerJs three_in_a_room init); [apply reachable_init|].
  vm_compute. reflexivity.
Defined.

(** X9.  No step changes the owner, the code, the name, the password or
    the creation time of a room: a room found under the same key before and
    after a step agrees on all five.  In particular the disconnect of the
    owner does not pass ownership on. *)
Theorem a_room_keeps_its_owner_and_password
  (v : Revision) (env : Env) (i : Input) (st st' : State) (out : list Emit)
  (k : string) (room room' : Room) :
  step v env i st = Some (st', out) ->
  jm_get k (rooms st) = Some room ->
  jm_get k (rooms st') = Some room' ->
  r_owner room' = r_owner room /\ r_code room' = r_code room
  /\ r_name room' = r_name room /\ r_password room' = r_password room
  /\ r_createdAt room' = r_createdAt room.
Proof.
  intros Hs Hk Hk'.
  destruct (step_rooms_origin v env i st st' out k room' Hs Hk')
    as [(room0 & Hroom0 & Hc & Hn & Hp & Ho & Ht)|(Hnone & _)]; [|congruence].
  assert (room0 = room) as -> by congruence. done.
Qed.

Lemma a_room_keeps_its_owner_witness :
  let st := state_after ServerJs three_in_a_room in
  let st' := state_after ServerJs (three_in_a_room ++ [at_time 8 (Client "a" disconnect)]) in
  exists out room',
    step ServerJs (mkEnv 8 []) (Client "a" disconnect) st = Some (st', out)
    /\ jm_get "ABC123" (rooms st') = Some room'
    /\ r_owner room' = "a"%string /\ jm_get "a" (r_users room') = None.
Proof.
  intros st st'.
  destruct (step ServerJs (mkEnv 8 []) (Client "a" disconnect) st)
    as [[st1 out]|] eqn:Hs; [|vm_compute in Hs; discriminate Hs].
  assert (Hst : st1 = st').
  { assert (E : fst <$> step ServerJs (mkEnv 8 []) (Client "a" disconnect) st
                = Some st') by (vm_compute; reflexivity).
    rewrite Hs in E. simpl in E. by injection E. }
  subst st1.
  set (room' := mkRoom "ABC123" "room" None "a"
                  [("b", bob); ("c", newUser "c" "Cy" None false)] None 1).
  assert (Hk' : jm_get "ABC123" (rooms st') = Some room') by (vm_compute; reflexivity).
  exists out, room'. split; [reflexivity|]. split; [exact Hk'|].
  split; [|reflexivity].
  destruct (a_room_keeps_its_owner_and_password ServerJs (mkEnv 8 [])
              (Client "a" disconnect) st st' out "ABC123"
              (mkRoom "ABC123" "room" None "a"
                 [("a", ann); ("b", bob); ("c", newUser "c" "Cy" None false)]
                 None 1) room' Hs) as (Ho & _).
  - vm_compute. reflexivity.
  - exact Hk'.
  - exact Ho.
Defined.

(** ** A join under a code in another case *)

Lemma on_disconnect_without_room v env sid sk st rc u :
  inRoom sk = Some (rc, u) -> jm_get rc (rooms st) = None ->
  let st' := (on_disconnect v env sid sk st).1 in
  rooms st' = rooms st /\ users st' = users st /\ timeouts st' = timeouts st
  /\ screenShareRequests st' = screenShareRequests st.
Proof.
  intros Hin Hnone. destruct (inRoom_Some _ _ _ Hin) as (Hrc & Hu & Htruthy).
  unfold on_disconnect.
  set (st1 := set_connectionMonitor _ _).
  pose proof (disconnectCall_frame sid st1) as (R2 & U2 & _ & _ & _ & T2 & _ & Q2).
  destruct (disconnectCall sid st1) as [st2 out2]. simpl in R2, U2, T2, Q2.
  assert (Hnone2 : jm_get rc (rooms st2) = None) by (by rewrite R2).
  assert (E3 : disconnectScreenShare v sid sk st2 = (st2, [])).
  { unfold disconnectScreenShare, js_or_null. by rewrite Hrc, Htruthy, Hnone2. }
  assert (E4 : disconnectRoom env sid sk st2 = (st2, [])).
  { unfold disconnectRoom. by rewrite Hin, Hnone2. }
  rewrite E3, E4. simpl. by rewrite R2, U2, T2, Q2.
Qed.

(** X10.  [join-room] looks the room up under the upper-cased code but
    keeps the code as sent in [currentRoomCode].  For a socket that, in a
    reachable state, is in a room under a code of ASCII characters that is
    not in upper case, no room is stored under [currentRoomCode]: its
    [request-screen-share], [stop-screen-share] and [approve-screen-share]
    do nothing, and its disconnect leaves [rooms], [users] and the pending
    timeouts untouched, so that it stays listed as a member of the room it
    joined.  ([reject-screen-share] never looks at the room and is not among
    the events that do nothing.) *)
Theorem member_joined_under_another_case_is_never_removed
  (v : Revision) (env : Env) (sid : SocketId) (sk : Socket) (rc : string) (u : User)
  (st : State) :
  reachable v st ->
  jm_get sid (sockets st) = Some sk ->
  inRoom sk = Some (rc, u) ->
  ascii_only rc = true ->
  toUpperCase rc <> rc ->
  let st' := (on_disconnect v env sid sk st).1 in
  jm_get rc (rooms st) = None
  /\ on_request_screen_share env sid sk st = (st, [])
  /\ on_stop_screen_share env sid sk st = (st, [])
  /\ (forall requester, on_approve_screen_share env sid sk requester st = (st, []))
  /\ rooms st' = rooms st /\ users st' = users st /\ timeouts st' = timeouts st
  /\ exists room,
       jm_get (toUpperCase rc) (rooms st') = Some room
       /\ is_Some (jm_get sid (r_users room)).
Proof.
  intros Hr Hsk Hin _ Hcase st'.
  destruct (inRoom_Some _ _ _ Hin) as (Hrc & Hu & Htruthy).
  assert (Hnone : jm_get rc (rooms st) = None).
  { destruct (jm_get rc (rooms st)) as [room|] eqn:E; [|done].
    destruct (reachable_rooms_keyed v st Hr rc room E) as [_ Hup]. done. }
  destruct (on_disconnect_without_room v env sid sk st rc u Hin Hnone)
    as (HR & HU & HT & _).
  destruct (reachable_sockets_in_rooms v st Hr sid sk Hsk u rc Hu Hrc)
    as (room & Hroom & Hmem & _).
  split; [done|].
  split; [unfold on_request_screen_share; by rewrite Hin, Hnone|].
  split; [unfold on_stop_screen_share; by rewrite Hrc, Htruthy, Hnone|].
  split.
  { intros requester. unfold on_approve_screen_share, inRoomAsOwner.
    rewrite Hin. destruct (u_isOwner u); [|done].
    destruct (jm_get requester (screenShareRequests st)); [|done].
    by rewrite Hnone. }
  split; [done|]. split; [done|]. split; [done|].
  exists room. unfold st'. by rewrite HR.
Qed.

Lemma member_joined_under_another_case_witness :
  let st := state_after ServerJs lower_case_join in
  let sk := mkSocket (Some bob) (Some "abc123") in
  exists room,
    jm_get "ABC123" (rooms (on_disconnect ServerJs (mkEnv 5 []) "b" sk st).1)
    = Some room
    /\ is_Some (jm_get "b" (r_users room)).
Proof.
  intros st sk.
  destruct (member_joined_under_another_case_is_never_removed ServerJs (mkEnv 5 [])
              "b" sk "abc123" bob st)
    as (_ & _ & _ & _ & _ & _ & _ & room & Hroom & Hmem).
  - apply (run_reachable ServerJs lower_case_join init); [apply reachable_init|].
    vm_compute. reflexivity.
  - vm_compute. reflexivity.
  - reflexivity.
  - reflexivity.
  - vm_compute. discriminate.
  - exists room. split; [exact Hroom|exact Hmem].
Defined.

(** ** Members stay while they are connected *)

Lemma rooms_keep_weaken (stays stays' : SocketId -> Prop) rs rs' :
  (forall s, stays' s -> stays s) ->
  rooms_keep stays rs rs' -> rooms_keep stays' rs rs'.
Proof. intros Hw Hk k room s H1 H2 H3. eauto. Qed.

Lemma rooms_keep_then (stays1 stays2 stays : SocketId -> Prop) rs1 rs2 rs3 :
  (forall s, stays s -> stays1 s /\ stays2 s) ->
  rooms_keep stays1 rs1 rs2 -> rooms_keep stays2 rs2 rs3 ->
  rooms_keep stays rs1 rs3.
Proof.
  intros Hw H12 H23.
  eapply rooms_keep_trans; eapply rooms_keep_weaken; try eassumption;
    intros s Hs; by apply Hw.
Qed.

Lemma on_join_room_keep env sid roomCode userName userPhoto password st :
  rooms_keep (fun _ => True) (rooms st)
    (rooms (on_join_room env sid roomCode userName userPhoto password st).1).
Proof.
  destruct (on_join_room_cases env sid roomCode userName userPhoto password st)
    as [->|(room & Hroom & -> & _)]; [apply rooms_keep_refl|].
  eapply rooms_keep_set; [done|done|].
  intros s _ Hmem. simpl. rewrite jm_get_set. by destruct (decide (sid = s)).
Qed.

Lemma handle_rooms_keep v env sid ev st st' out :
  handle v env sid ev st = Some (st', out) ->
  rooms_keep (fun s => is_Some (jm_get s (sockets st'))) (rooms st) (rooms st').
Proof.
  unfold handle. intros Hh.
  destruct (jm_get sid (sockets st)) as [sk|];
    [|simplify_eq; apply rooms_keep_refl].
  destruct ev; try destruct v; simplify_eq; try pin_state;
    try (simpl;
         rewrite ?on_message_rooms, ?on_edit_message_rooms,
           ?on_delete_message_rooms, ?on_message_reaction_rooms,
           ?on_message_seen_rooms, ?on_request_delete_music_frame;
         rewrite ?(proj1 (on_request_screen_share_frame _ _ _ _)),
           ?(proj1 (on_reject_screen_share_frame _ _ _ _ _)),
           ?(proj1 (on_upload_playlist_music_frame _ _ _ _ _ _ _)),
           ?(proj1 (on_confirm_delete_music_frame _ _ _ _ _)),
           ?(proj1 (on_start_call_frame _ _ _ _ _ _ _ _)),
           ?(proj1 (on_reject_call_frame _ _ _ _ _)),
           ?(proj1 (on_end_call_frame _ _ _ _ _)),
           ?(proj1 (refreshPing_frame _ _ _));
         solve [apply rooms_keep_refl]);
    try (eapply rooms_keep_weaken;
         [|solve [apply on_join_room_keep
                 |apply on_approve_screen_share_keep
                 |apply on_stop_screen_share_keep]]; done).
  all: try (eapply rooms_keep_weaken; [|apply on_disconnect_keep];
            intros s; simpl;
            rewrite (proj1 (proj2 (on_disconnect_frame _ env sid sk st)));
            rewrite jm_get_delete; destruct (decide (sid = s)); [by intros [? ?]|];
            congruence).
  all: destruct (on_create_room_rooms _ _ _ _ _ _ _ _ _ Hh)
         as (roomCode & room & Hpick & -> & _);
       apply rooms_keep_add; by destruct (pickRoomCode_unused _ _ _ Hpick).
Qed.

Lemma step_rooms_keep v env i st st' out :
  step v env i st = Some (st', out) ->
  rooms_keep (fun s => is_Some (jm_get s (sockets st'))) (rooms st) (rooms st').
Proof.
  destruct i; simpl; intros Hs.
  - destruct (jm_has sid (sockets st)); simplify_eq; [|pin_state];
      apply rooms_keep_refl.
  - by eapply handle_rooms_keep.
  - simplify_eq. pin_state. rewrite (proj1 (pingInterval_frame _ _ _)).
    apply rooms_keep_refl.
  - simplify_eq. pin_state. unfold startConnectionHealthCheck.
    apply (fold_left_keeps (healthCheckEntry v env)
             (fun acc => rooms_keep (fun s => is_Some (jm_get s (sockets acc.1)))
                           (rooms st) (rooms acc.1)));
      [|apply rooms_keep_refl].
    intros [s out0] k HP. unfold healthCheckEntry. simpl in HP.
    destruct (jm_get k (connectionMonitor s)) as [conn|]; [|done].
    destruct (timedOut (now env) conn); [|done].
    destruct (jm_get k (sockets s)) as [sk|]; [|done].
    pose proof (on_disconnect_keep v env k sk s) as R.
    pose proof (on_disconnect_frame v env k sk s) as (_ & S & _).
    destruct (on_disconnect v env k sk s) as [s1 out1]. simpl in *.
    eapply (rooms_keep_then _ _ _ _ _ _ _ HP R). Unshelve.
    intros x. rewrite S, jm_get_delete. destruct (decide (k = x)); [by intros [? ?]|].
    intros Hx. split; [done|congruence].
  - destruct v; simplify_eq; [apply rooms_keep_refl|]. unfold periodicCleanup.
    apply (rooms_keep_weaken (fun _ => True)); [done|].
    apply (fold_left_keeps (cleanupRoom (now env))
             (fun s => rooms_keep (fun _ => True) (rooms st) (rooms s))).
    + intros s k HP. eapply rooms_keep_trans; [exact HP|].
      destruct (cleanupRoom_cases (now env) s k) as [->|(r & ? & ? & _ & -> & _)];
        [apply rooms_keep_refl|by eapply rooms_keep_delete_empty].
    + apply (fold_left_keeps (cleanupRequest (now env))
               (fun s => rooms_keep (fun _ => True) (rooms st) (rooms s)));
        [|apply rooms_keep_refl].
      intros s k HP. by rewrite (proj1 (cleanupRequest_frame (now env) s k)).
  - simplify_eq. unfold runTimeouts.
    apply (rooms_keep_weaken (fun _ => True)); [done|].
    apply (fold_left_keeps (fun s t => emptyRoomTimeout v t.2 s)
             (fun s => rooms_keep (fun _ => True) (rooms st) (rooms s)));
      [|apply rooms_keep_refl].
    intros s [d k] HP. eapply rooms_keep_trans; [exact HP|]. simpl.
    destruct (emptyRoomTimeout_cases v s k) as [->|(r & ? & ? & -> & _)];
      [apply rooms_keep_refl|by eapply rooms_keep_delete_empty].
Qed.

(** X11.  A member of a room is taken out of it only by its own disconnect,
    and a room is never deleted while it has a member: whoever is a member
    of a room before a step and is still connected after it, is a member of
    the same room after it. *)
Theorem members_stay_while_connected
  (v : Revision) (env : Env) (i : Input) (st st' : State) (out : list Emit)
  (k : string) (room : Room) (sid : SocketId) :
  step v env i st = Some (st', out) ->
  jm_get k (rooms st) = Some room ->
  is_Some (jm_get sid (r_users room)) ->
  is_Some (jm_get sid (sockets st')) ->
  exists room',
    jm_get k (rooms st') = Some room' /\ is_Some (jm_get sid (r_users room')).
Proof.
  intros Hs Hk Hmem Hconn.
  destruct (step_rooms_keep v env i st st' out Hs k room sid Hk Hmem Hconn)
    as (room' & Hk' & _ & Hmem').
  eauto.
Qed.

Lemma members_stay_while_connected_witness :
  let before := state_after ServerJs (removelast brief_return) in
  exists room',
    jm_get "ABC123" (rooms (runTimeouts ServerJs (mkEnv 610000 []) before))
    = Some room'
    /\ is_Some (jm_get "b" (r_users room')).
Proof.
  intros before.
  apply (members_stay_while_connected ServerJs (mkEnv 610000 []) TimeoutsDue before
           (runTimeouts ServerJs (mkEnv 610000 []) before) [] "ABC123"
           (mkRoom "ABC123" "room" None "a" [("b", bob)] None 1000) "b").
  - reflexivity.
  - vm_compute. reflexivity.
  - vm_compute. eauto.
  - vm_compute. eauto.
Defined.

(** ** Starting a call *)

Lemma jm_last_match_from {K V} (p : K -> V -> bool) (m : JsMap K V) acc :
  fold_left (fun acc kv => if p kv.1 kv.2 then Some kv.1 else acc) m acc
  = match jm_last_match p m with
    | Some k => Some k
    | None => acc
    end.
Proof.
  unfold jm_last_match. revert acc.
  induction m as [|[k v] m IH]; intros acc; simpl; [done|].
  destruct (p k v).
  - rewrite (IH (Some k)). by destruct (fold_left _ m None).
  - apply IH.
Qed.

Lemma jm_last_match_app {K V} (p : K -> V -> bool) (m1 m2 : JsMap K V) :
  jm_last_match p (m1 ++ m2)
  = match jm_last_match p m2 with
    | Some k => Some k
    | None => jm_last_match p m1
    end.
Proof.
  unfold jm_last_match at 1. rewrite fold_left_app.
  apply jm_last_match_from.
Qed.

Lemma jm_last_match_None {K V} (p : K -> V -> bool) (m : JsMap K V) :
  jm_last_match p m = None <-> forall k v, (k, v) ∈ m -> p k v = false.
Proof.
  induction m as [|[k v] m IH] using rev_ind.
  - split; [intros _ k v H; by apply elem_of_nil in H|done].
  - rewrite jm_last_match_app. unfold jm_last_match at 1. simpl.
    destruct (p k v) eqn:Hp.
    + split; [done|]. intros H. rewrite (H k v) in Hp; [done|].
      apply elem_of_app. right. apply list_elem_of_here.
    + rewrite IH. split.
      * intros H k' v' Hin. apply elem_of_app in Hin as [Hin|Hin]; [eauto|].
        apply list_elem_of_singleton in Hin. by injection Hin as -> ->.
      * intros H k' v' Hin. apply H. apply elem_of_app. by left.
Qed.

Lemma jm_last_match_Some {K V} (p : K -> V -> bool) (m : JsMap K V) k :
  jm_last_match p m = Some k ->
  exists m1 v m2,
    m = m1 ++ (k, v) :: m2 /\ p k v = true
    /\ forall k' v', (k', v') ∈ m2 -> p k' v' = false.
Proof.
  induction m as [|[k0 v0] m IH] using rev_ind; [done|].
  rewrite jm_last_match_app. unfold jm_last_match at 1. simpl.
  destruct (p k0 v0) eqn:Hp.
  - intros [= <-]. exists m, v0, []. split; [done|]. split; [done|].
    intros k' v' H. by apply elem_of_nil in H.
  - intros H. destruct (IH H) as (m1 & v & m2 & -> & Hpk & Hrest).
    exists m1, v, (m2 ++ [(k0, v0)]). split; [by rewrite <- app_assoc|].
    split; [done|]. intros k' v' Hin.
    apply elem_of_app in Hin as [Hin|Hin]; [eauto|].
    apply list_elem_of_singleton in Hin. by injection Hin as -> ->.
Qed.

(** The test [start-call] applies to an entry of [users]. *)
Lemma start_call_unknown env sid sk targetUserName offer type callerName st :
  (forall s ue, (s, ue) ∈ users st ->
     ~ (u_userName (ue_user ue) = targetUserName
        /\ Some (ue_roomCode ue) = currentRoomCode sk)) ->
  on_start_call env sid sk targetUserName offer type callerName st
  = (st, [(SocketEmit sid, call_error CallTargetMissing)]).
Proof.
  intros Hnone. unfold on_start_call.
  rewrite (proj2 (jm_last_match_None _ (users st))); [done|].
  intros s ue Hin. apply bool_decide_eq_false. exact (Hnone s ue Hin).
Qed.

(** X12.  [start-call] rings a connection whose entry in [users] carries
    the target name and the caller's current room, the last such entry when
    there are several.  It then stores one and the same record, with status
    ringing, under the caller's and the callee's identity, touches no other
    entry of the call index, and sends the offer with the caller's identity
    to the callee.  When no entry qualifies, the state is unchanged and the
    caller alone is told. *)
Theorem start_call_rings_a_roommate_or_fails
  (env : Env) (sid : SocketId) (sk : Socket)
  (targetUserName offer type callerName : string) (st : State) :
  let started := on_start_call env sid sk targetUserName offer type callerName st in
  let qualifies (ue : UserEntry) :=
    u_userName (ue_user ue) = targetUserName
    /\ Some (ue_roomCode ue) = currentRoomCode sk in
  ((forall s ue, (s, ue) ∈ users st -> ~ qualifies ue) ->
   started = (st, [(SocketEmit sid, call_error CallTargetMissing)]))
  /\ ((exists s ue, (s, ue) ∈ users st /\ qualifies ue) ->
      exists before t ue after,
        users st = before ++ (t, ue) :: after
        /\ qualifies ue
        /\ (forall s' ue', (s', ue') ∈ after -> ~ qualifies ue')
        /\ (js_truthy t = true ->
            let callData :=
              mkCallData sid callerName t targetUserName type
                (currentRoomCode sk) (now env) "ringing" in
            jm_get t (activeCalls started.1) = Some callData
            /\ (t <> sid -> jm_get sid (activeCalls started.1) = Some callData)
            /\ (forall k, k <> sid -> k <> t ->
                  jm_get k (activeCalls started.1) = jm_get k (activeCalls st))
            /\ started.2
               = [(IoTo t, ice_servers);
                  (IoTo t, incoming_call offer callerName type sid)])).
Proof.
  intros started qualifies. split; [apply start_call_unknown|].
  intros (s & ue & Hin & Hq).
  unfold started, on_start_call.
  destruct (jm_last_match _ (users st)) as [t|] eqn:Hlast.
  - destruct (jm_last_match_Some _ _ _ Hlast) as (before & ue' & after & Hsplit & Hp & Hrest).
    apply bool_decide_eq_true in Hp.
    exists before, t, ue', after. split; [done|]. split; [done|].
    split.
    { intros s' ue0 Hin0. specialize (Hrest s' ue0 Hin0).
      by apply bool_decide_eq_false in Hrest. }
    intros ->. simpl. rewrite jm_get_set_eq. split; [done|].
    split; [intros Hne; by rewrite jm_get_set_ne, jm_get_set_eq|].
    split; [|done]. intros k Hk1 Hk2. by rewrite !jm_get_set_ne.
  - exfalso. pose proof (proj1 (jm_last_match_None _ _) Hlast s ue Hin) as Hf.
    apply bool_decide_eq_false in Hf. by apply Hf.
Qed.

Lemma start_call_rings_a_roommate_witness :
  let st := state_after ServerJs three_in_a_room in
  let sk := mkSocket (Some ann) (Some "ABC123") in
  on_start_call (mkEnv 4 []) "a" sk "Nobody" "offer" "audio" "Ann" st
  = (st, [(SocketEmit "a", call_error CallTargetMissing)]).
Proof.
  intros st sk.
  apply (proj1 (start_call_rings_a_roommate_or_fails (mkEnv 4 []) "a" sk "Nobody"
                  "offer" "audio" "Ann" st)).
  intros s ue Hin [Hname _]. vm_compute in Hin.
  repeat (apply elem_of_cons in Hin as [Hin|Hin];
          [injection Hin as -> ->; discriminate Hname|]).
  by apply elem_of_nil in Hin.
Defined.

(** X13.  A call started while neither the caller nor anyone carrying the
    target name has an entry in the call index keeps the index whole: every
    entry still sits under one of the two identities of its record, and the
    record under both. *)
Theorem start_call_between_free_parties_keeps_calls_paired
  (env : Env) (sid : SocketId) (sk : Socket)
  (targetUserName offer type callerName : string) (st : State) :
  calls_paired (activeCalls st) ->
  jm_get sid (activeCalls st) = None ->
  (forall t ue, (t, ue) ∈ users st -> u_userName (ue_user ue) = targetUserName ->
                jm_get t (activeCalls st) = None) ->
  calls_paired
    (activeCalls (on_start_call env sid sk targetUserName offer type callerName st).1).
Proof.
  intros Hp Hsid Hfree. unfold on_start_call.
  destruct (jm_last_match _ (users st)) as [t|] eqn:Hlast; [|done].
  destruct (js_truthy t); [|done]. simpl.
  destruct (jm_last_match_Some _ _ _ Hlast) as (before & ue & after & Hsplit & Hq & _).
  apply bool_decide_eq_true in Hq. destruct Hq as [Hname _].
  assert (Ht : jm_get t (activeCalls st) = None).
  { apply (Hfree t ue); [|done]. rewrite Hsplit. apply elem_of_app. right.
    apply list_elem_of_here. }
  intros k cd'. rewrite !jm_get_set.
  destruct (decide (t = k)) as [<-|Hkt].
  - intros [= <-]. simpl. split; [by right|].
    split; repeat destruct (decide _); congruence.
  - destruct (decide (sid = k)) as [<-|Hks].
    + intros [= <-]. simpl. split; [by left|].
      split; repeat destruct (decide _); congruence.
    + intros Hk. destruct (Hp k cd' Hk) as (Hside & Hc & Ht').
      split; [done|].
      destruct (decide (t = c_callerSocketId cd')) as [E|]; [congruence|].
      destruct (decide (sid = c_callerSocketId cd')) as [E|]; [congruence|].
      destruct (decide (t = c_targetSocketId cd')) as [E|]; [congruence|].
      destruct (decide (sid = c_targetSocketId cd')) as [E|]; [congruence|].
      done.
Qed.

Lemma start_call_between_free_parties_witness :
  calls_paired (activeCalls (state_after ServerJs ringing)).
Proof.
  assert (E : state_after ServerJs ringing
              = (on_start_call (mkEnv 4 []) "a" (mkSocket (Some ann) (Some "ABC123"))
                   "Bob" "offer" "video" "Ann"
                   (state_after ServerJs three_in_a_room)).1)
    by (vm_compute; reflexivity).
  rewrite E.
  apply start_call_between_free_parties_keeps_calls_paired.
  - intros k cd H. vm_compute in H. discriminate H.
  - vm_compute. reflexivity.
  - intros t ue Hin Hname. vm_compute. reflexivity.
Defined.

(** ** Entries of the call index and their parties *)

Lemma jm_delete_comm {K V} `{EqDecision K} (a b : K) (m : JsMap K V) :
  jm_delete a (jm_delete b m) = jm_delete b (jm_delete a m).
Proof.
  induction m as [|[k v] m IH]; simpl; [done|].
  destruct (decide (b = k)), (decide (a = k)); simpl;
    repeat destruct (decide _); congruence.
Qed.

Lemma calls_shrink_refl calls : calls_shrink calls calls.
Proof. by intros k cd. Qed.

Lemma calls_shrink_delete calls k : calls_shrink calls (jm_delete k calls).
Proof.
  intros k' cd. rewrite jm_get_delete. by destruct (decide (k = k')).
Qed.

Lemma calls_shrink_delete2 calls a b :
  calls_shrink calls (jm_delete a (jm_delete b calls)).
Proof. intros k cd H. by do 2 apply calls_shrink_delete in H. Qed.

Lemma calls_sided_shrink calls calls' :
  calls_shrink calls calls' -> calls_sided calls -> calls_sided calls'.
Proof. intros Hs Hc k cd H. apply Hc, Hs, H. Qed.

Lemma disconnectCall_calls sid st :
  activeCalls (disconnectCall sid st).1
  = match jm_get sid (activeCalls st) with
    | Some cd =>
        if js_truthy (otherParty sid cd)
        then jm_delete sid (jm_delete (otherParty sid cd) (activeCalls st))
        else jm_delete sid (activeCalls st)
    | None => activeCalls st
    end.
Proof. unfold disconnectCall. by repeat case_match. Qed.

Lemma on_disconnect_calls v env sid sk st :
  activeCalls (on_disconnect v env sid sk st).1 = activeCalls (disconnectCall sid st).1.
Proof.
  rewrite disconnectCall_calls. unfold on_disconnect.
  set (st1 := set_connectionMonitor _ _).
  pose proof (disconnectCall_calls sid st1) as H2.
  destruct (disconnectCall sid st1) as [st2 out2].
  pose proof (disconnectScreenShare_frame v sid sk st2) as H3.
  destruct (disconnectScreenShare v sid sk st2) as [st3 out3].
  pose proof (disconnectRoom_frame env sid sk st3) as H4.
  destruct (disconnectRoom env sid sk st3) as [st4 out4].
  simpl in *.
  destruct H3 as (_ & _ & _ & _ & _ & C3 & _).
  destruct H4 as (_ & _ & _ & C4 & _).
  by rewrite C4, C3, H2.
Qed.

Lemma on_disconnect_calls_shrink v env sid sk st :
  calls_shrink (activeCalls st) (activeCalls (on_disconnect v env sid sk st).1).
Proof.
  rewrite on_disconnect_calls, disconnectCall_calls.
  repeat case_match;
    auto using calls_shrink_refl, calls_shrink_delete, calls_shrink_delete2.
Qed.

Lemma on_start_call_sided env sid sk targetUserName offer type callerName st :
  calls_sided (activeCalls st) ->
  calls_sided
    (activeCalls (on_start_call env sid sk targetUserName offer type callerName st).1).
Proof.
  intros Hc. unfold on_start_call. repeat case_match; try done. simpl.
  intros k cd. rewrite !jm_get_set.
  repeat destruct (decide _); try (intros [= <-]; simpl; auto; fail).
  apply Hc.
Qed.

Lemma handle_calls_sided v env sid ev st st' out :
  handle v env sid ev st = Some (st', out) ->
  calls_sided (activeCalls st) -> calls_sided (activeCalls st').
Proof.
  unfold handle. intros Hh Hinv.
  destruct (jm_get sid (sockets st)) as [sk|]; [|by simplify_eq].
  destruct ev; try destruct v; simplify_eq; try pin_state;
    try (apply on_start_call_sided; exact Hinv);
    try (apply (calls_sided_shrink (activeCalls st));
         [apply on_disconnect_calls_shrink|exact Hinv]);
    try (unfold_plain_handlers; unfold on_join_room, on_approve_screen_share,
           on_stop_screen_share;
         repeat case_match; simpl;
         solve [exact Hinv
               |apply (calls_sided_shrink (activeCalls st));
                [apply calls_shrink_delete2|exact Hinv]]).
  all: unfold on_create_room in Hh; repeat case_match; simplify_eq; exact Hinv.
Qed.

Lemma healthCheckEntry_calls_shrink v env acc k :
  calls_shrink (activeCalls acc.1) (activeCalls (healthCheckEntry v env acc k).1).
Proof.
  destruct acc as [st out]. simpl. unfold healthCheckEntry.
  destruct (jm_get k (connectionMonitor st)) as [conn|]; [|apply calls_shrink_refl].
  destruct (timedOut (now env) conn); [|apply calls_shrink_refl].
  destruct (jm_get k (sockets st)) as [sk|]; [|apply calls_shrink_refl].
  pose proof (on_disconnect_calls_shrink v env k sk st) as H.
  by destruct (on_disconnect v env k sk st).
Qed.

Lemma step_calls_sided v env i st st' out :
  step v env i st = Some (st', out) ->
  calls_sided (activeCalls st) -> calls_sided (activeCalls st').
Proof.
  destruct i; simpl; intros Hs Hinv.
  - destruct (jm_has sid (sockets st)); simplify_eq; [done|]. by pin_state.
  - eapply handle_calls_sided; eauto.
  - simplify_eq. pin_state. unfold_plain_handlers. by repeat case_match.
  - simplify_eq. pin_state. unfold startConnectionHealthCheck.
    apply (fold_left_keeps (healthCheckEntry v env)
             (fun acc => calls_sided (activeCalls acc.1))); [|done].
    intros acc k H. eapply calls_sided_shrink; [|exact H].
    apply healthCheckEntry_calls_shrink.
  - destruct v; simplify_eq; [done|]. unfold periodicCleanup.
    apply (fold_left_keeps (cleanupRoom (now env))
             (fun s => calls_sided (activeCalls s))).
    + intros s k. unfold cleanupRoom. by repeat case_match.
    + apply (fold_left_keeps (cleanupRequest (now env))
               (fun s => calls_sided (activeCalls s))); [|done].
      intros s k. unfold cleanupRequest. by repeat case_match.
  - simplify_eq. unfold runTimeouts.
    apply (fold_left_keeps (fun s t => emptyRoomTimeout v t.2 s)
             (fun s => calls_sided (activeCalls s))); [|done].
    intros s t. unfold emptyRoomTimeout. by repeat case_match.
Qed.

Lemma reachable_calls_sided v st : reachable v st -> calls_sided (activeCalls st).
Proof.
  induction 1 as [|st env i st' out Hr IH Hs].
  - intros k cd. done.
  - eapply step_calls_sided; eauto.
Qed.

(** X14.  In every reachable state an entry of the call index sits under the
    identity of the caller or of the callee of the record it holds: a record
    is never filed under a third connection. *)
Theorem call_records_are_filed_under_their_parties (v : Revision) (st : State)
  (k : SocketId) (cd : CallData) :
  reachable v st ->
  jm_get k (activeCalls st) = Some cd ->
  k = c_callerSocketId cd \/ k = c_targetSocketId cd.
Proof. intros Hr. apply (reachable_calls_sided v st Hr). Qed.

Lemma call_records_are_filed_witness :
  "b"%string = "c"%string \/ "b"%string = "b"%string.
Proof.
  apply (call_records_are_filed_under_their_parties ServerJs
           (state_after ServerJs busy_callee) "b"
           (mkCallData "c" "Cy" "b" "Bob" "video" (Some "ABC123"%string) 5 "ringing")).
  - apply (run_reachable ServerJs busy_callee init); [apply reachable_init|].
    vm_compute. reflexivity.
  - vm_compute. reflexivity.
Defined.

(** X15.  When a connection that holds a call record drops, [disconnect]
    leaves the call index exactly as [end-call] from that connection would:
    the entries of both parties are gone and no other entry is touched.  The
    counterpart is told by both, by [disconnect] under the system name and
    with the reason connection_lost. *)
Theorem disconnect_clears_the_call_as_end_call_does
  (v : Revision) (env : Env) (sid : SocketId) (sk : Socket)
  (targetSocketId : option string) (cd : CallData) (st : State) :
  reachable v st ->
  jm_get sid (activeCalls st) = Some cd ->
  js_truthy (otherParty sid cd) = true ->
  let gone := on_disconnect v env sid sk st in
  let ended := on_end_call env sid sk targetSocketId st in
  activeCalls gone.1 = activeCalls ended.1
  /\ jm_get sid (activeCalls gone.1) = None
  /\ jm_get (otherParty sid cd) (activeCalls gone.1) = None
  /\ (forall k, k <> sid -> k <> otherParty sid cd ->
        jm_get k (activeCalls gone.1) = jm_get k (activeCalls st))
  /\ head gone.2
     = Some (IoTo (otherParty sid cd),
             call_ended (Some "Sistem (bağlantı kesildi)"%string)
               (Some "connection_lost"%string))
  /\ head ended.2
     = Some (IoTo (otherParty sid cd),
             call_ended (u_userName <$> currentUser sk) None).
Proof.
  intros Hr Hcd Hother gone ended.
  pose proof (reachable_calls_sided v st Hr sid cd Hcd) as Hside.
  assert (Hgone : activeCalls gone.1
                  = jm_delete sid (jm_delete (otherParty sid cd) (activeCalls st))).
  { unfold gone. by rewrite on_disconnect_calls, disconnectCall_calls, Hcd, Hother. }
  assert (Hended : activeCalls ended.1
                   = jm_delete (c_targetSocketId cd)
                       (jm_delete (c_callerSocketId cd) (activeCalls st))).
  { unfold ended, on_end_call. by rewrite Hcd. }
  split.
  { rewrite Hgone, Hended. unfold otherParty.
    destruct (bool_decide_reflect (c_callerSocketId cd = sid)) as [E|E].
    - rewrite <- E. apply jm_delete_comm.
    - destruct Hside as [E'|E']; [congruence|]. by rewrite <- E'. }
  rewrite Hgone. split; [apply jm_get_delete_eq|].
  split.
  { rewrite jm_get_delete. destruct (decide _); [done|apply jm_get_delete_eq]. }
  split.
  { intros k Hk1 Hk2. by rewrite !jm_get_delete_ne. }
  split.
  - unfold gone, on_disconnect.
    set (st1 := set_connectionMonitor _ _).
    assert (H2 : (disconnectCall sid st1).2
                 = [(IoTo (otherParty sid cd),
                     call_ended (Some "Sistem (bağlantı kesildi)"%string)
                       (Some "connection_lost"%string))]).
    { unfold disconnectCall. simpl. by rewrite Hcd, Hother. }
    destruct (disconnectCall sid st1) as [st2 out2].
    destruct (disconnectScreenShare v sid sk st2) as [st3 out3].
    destruct (disconnectRoom env sid sk st3) as [st4 out4].
    simpl in *. by rewrite H2.
  - unfold ended, on_end_call. by rewrite Hcd, Hother.
Qed.

Lemma disconnect_clears_the_call_witness :
  let st := state_after ServerJs ringing in
  let sk := mkSocket (Some ann) (Some "ABC123"%string) in
  activeCalls (on_disconnect ServerJs (mkEnv 5 []) "a" sk st).1 = []
  /\ activeCalls (on_end_call (mkEnv 5 []) "a" sk None st).1 = [].
Proof.
  intros st sk.
  destruct (disconnect_clears_the_call_as_end_call_does ServerJs (mkEnv 5 []) "a" sk
              None
              (mkCallData "a" "Ann" "b" "Bob" "video" (Some "ABC123"%string) 4 "ringing")
              st) as (Heq & _).
  - apply (run_reachable ServerJs ringing init); [apply reachable_init|].
    vm_compute. reflexivity.
  - vm_compute. reflexivity.
  - vm_compute. reflexivity.
  - split; [|vm_compute; reflexivity].
    rewrite Heq. vm_compute. reflexivity.
Defined.

(** ** What a disconnect unwinds *)

Lemma disconnectCall_clears sid st :
  jm_get sid (activeCalls (disconnectCall sid st).1) = None.
Proof.
  rewrite disconnectCall_calls.
  destruct (jm_get sid (activeCalls st)) eqn:H; [|done].
  destruct (js_truthy _); apply jm_get_delete_eq.
Qed.

(** The room of the leaving socket after the screen-share part. *)
Lemma disconnectScreenShare_room v sid sk st rc u room :
  inRoom sk = Some (rc, u) ->
  jm_get rc (rooms st) = Some room ->
  exists room',
    jm_get rc (rooms (disconnectScreenShare v sid sk st).1) = Some room'
    /\ r_users room' = r_users room
    /\ r_screenSharing room' = grantAfterLeaving sid (r_screenSharing room)
    /\ (forall k, k <> rc ->
          jm_get k (rooms (disconnectScreenShare v sid sk st).1) = jm_get k (rooms st)).
Proof.
  intros Hin Hroom. apply inRoom_Some in Hin as (Hrc & _ & Htruthy).
  unfold disconnectScreenShare. rewrite Hrc. simpl. rewrite Htruthy, Hroom.
  destruct (r_screenSharing room) as [g|] eqn:Hg.
  - unfold grantAfterLeaving.
    destruct (bool_decide_reflect (g_socketId g = sid)) as [E|E]; simpl.
    + rewrite jm_get_set_eq. eexists. split; [done|]. simpl.
      split; [done|]. split; [done|]. intros k Hk. by rewrite jm_get_set_ne.
    + exists room. by rewrite Hg.
  - exists room. by rewrite Hg.
Qed.

(** X16.  The disconnect of a socket that is in an existing room unwinds
    everything filed under its identity: its socket, its heartbeat record,
    its call entry, its entry in [users], its pending screen-share request
    and its membership of the room.  The other members stay; the grant of
    the room afterwards is the grant it had, unless the socket held it, in
    which case the room has none; and neither the message logs nor the
    playlists are touched. *)
Theorem disconnect_unwinds_the_connection
  (v : Revision) (env : Env) (sid : SocketId) (sk : Socket) (st : State)
  (rc : string) (u : User) (room : Room) :
  inRoom sk = Some (rc, u) ->
  jm_get rc (rooms st) = Some room ->
  let st' := (on_disconnect v env sid sk st).1 in
  jm_get sid (sockets st') = None
  /\ jm_get sid (connectionMonitor st') = None
  /\ jm_get sid (activeCalls st') = None
  /\ jm_get sid (users st') = None
  /\ jm_get sid (screenShareRequests st') = None
  /\ (exists room',
       jm_get rc (rooms st') = Some room'
       /\ jm_get sid (r_users room') = None
       /\ (forall s, s <> sid -> jm_get s (r_users room') = jm_get s (r_users room))
       /\ r_screenSharing room'
          = match r_screenSharing room with
            | Some g => if bool_decide (g_socketId g = sid) then None else Some g
            | None => None
            end)
  /\ (forall k, k <> rc -> jm_get k (rooms st') = jm_get k (rooms st))
  /\ messages st' = messages st
  /\ userPlaylists st' = userPlaylists st.
Proof.
  intros Hin Hroom st'.
  pose proof (on_disconnect_frame v env sid sk st) as (HC & HS & HM & HP).
  fold st' in HC, HS, HM, HP.
  split; [rewrite HS; apply jm_get_delete_eq|].
  split; [rewrite HC; apply jm_get_delete_eq|].
  split; [unfold st'; rewrite on_disconnect_calls; apply disconnectCall_clears|].
  assert (Hrest :
    jm_get sid (users st') = None
    /\ jm_get sid (screenShareRequests st') = None
    /\ (exists room',
         jm_get rc (rooms st') = Some room'
         /\ jm_get sid (r_users room') = None
         /\ (forall s, s <> sid -> jm_get s (r_users room') = jm_get s (r_users room))
         /\ r_screenSharing room' = grantAfterLeaving sid (r_screenSharing room))
    /\ (forall k, k <> rc -> jm_get k (rooms st') = jm_get k (rooms st)));
    [|tauto].
  unfold st', on_disconnect.
  set (st1 := set_connectionMonitor _ _).
  pose proof (disconnectCall_frame sid st1) as (R2 & _).
  destruct (disconnectCall sid st1) as [st2 out2]. simpl in R2.
  assert (Hroom2 : jm_get rc (rooms st2) = Some room) by (by rewrite R2).
  destruct (disconnectScreenShare_room v sid sk st2 rc u room Hin Hroom2)
    as (room3 & Hroom3 & Husers & Hgrant & Hothers).
  destruct (disconnectScreenShare v sid sk st2) as [st3 out3].
  simpl in Hroom3, Hothers.
  unfold disconnectRoom. rewrite Hin, Hroom3.
  assert (Hgoal : forall st4 : State,
    users st4 = jm_delete sid (users st3) ->
    screenShareRequests st4 = jm_delete sid (screenShareRequests st3) ->
    rooms st4
    = jm_set rc (setRoomUsers (jm_delete sid (r_users room3)) room3) (rooms st3) ->
    jm_get sid (users st4) = None
    /\ jm_get sid (screenShareRequests st4) = None
    /\ (exists room',
         jm_get rc (rooms st4) = Some room'
         /\ jm_get sid (r_users room') = None
         /\ (forall s, s <> sid -> jm_get s (r_users room') = jm_get s (r_users room))
         /\ r_screenSharing room' = grantAfterLeaving sid (r_screenSharing room))
    /\ (forall k, k <> rc -> jm_get k (rooms st4) = jm_get k (rooms st))).
  { intros st4 -> -> ->.
    split; [apply jm_get_delete_eq|]. split; [apply jm_get_delete_eq|]. split.
    - eexists. split; [apply jm_get_set_eq|]. simpl.
      split; [apply jm_get_delete_eq|].
      split; [intros s Hs; by rewrite jm_get_delete_ne, Husers|done].
    - intros k Hk. rewrite jm_get_set_ne, Hothers by done. by rewrite R2. }
  destruct (jm_size _ =? 0)%nat; apply Hgoal; reflexivity.
Qed.

Lemma disconnect_unwinds_the_connection_witness :
  let st := state_after ServerJs
              (three_in_a_room
               ++ [at_time 4 (Client "b" request_screen_share);
                   at_time 5 (Client "a" (approve_screen_share "b"))]) in
  let sk := mkSocket (Some (newUser "c" "Cy" None false)) (Some "ABC123"%string) in
  exists room',
    jm_get "ABC123" (rooms (on_disconnect ServerJs (mkEnv 6 []) "c" sk st).1)
    = Some room'
    /\ jm_get "c" (r_users room') = None
    /\ r_screenSharing room' = Some (mkGrant "Bob" "b" 5).
Proof.
  intros st sk.
  destruct (disconnect_unwinds_the_connection ServerJs (mkEnv 6 []) "c" sk st
              "ABC123" (newUser "c" "Cy" None false)
              (mkRoom "ABC123" "room" None "a"
                 [("a", ann); ("b", bob); ("c", newUser "c" "Cy" None false)]
                 (Some (mkGrant "Bob" "b" 5)) 1))
    as (_ & _ & _ & _ & _ & (room' & Hroom' & Hgone & _ & Hgrant) & _).
  - vm_compute. reflexivity.
  - vm_compute. reflexivity.
  - exists room'. split; [exact Hroom'|]. split; [exact Hgone|exact Hgrant].
Defined.

(** ** Members and the owner flag *)

Lemma elem_of_jm_set {K V} `{EqDecision K} (k : K) (v : V) (m : JsMap K V) x :
  x ∈ jm_set k v m -> x = (k, v) \/ x ∈ m.
Proof.
  induction m as [|[k0 v0] m IH]; simpl.
  - intros H. apply list_elem_of_singleton in H. by left.
  - destruct (decide (k = k0)) as [->|].
    + intros H. apply elem_of_cons in H as [->|H]; [by left|].
      right. by apply list_elem_of_further.
    + intros H. apply elem_of_cons in H as [->|H]; [right; apply list_elem_of_here|].
      destruct (IH H) as [->|H']; [by left|right; by apply list_elem_of_further].
Qed.

Lemma elem_of_jm_delete {K V} `{EqDecision K} (k : K) (m : JsMap K V) x :
  x ∈ jm_delete k m -> x ∈ m.
Proof.
  induction m as [|[k0 v0] m IH]; simpl; [done|].
  destruct (decide (k = k0)).
  - intros H. by apply list_elem_of_further, IH.
  - intros H. apply elem_of_cons in H as [->|H]; [apply list_elem_of_here|].
    by apply list_elem_of_further, IH.
Qed.

Lemma jm_get_elem {K V} `{EqDecision K} (k : K) (v : V) (m : JsMap K V) :
  jm_get k m = Some v -> (k, v) ∈ m.
Proof.
  induction m as [|[k0 v0] m IH]; simpl; [done|].
  destruct (decide (k = k0)) as [->|].
  - intros [= ->]. apply list_elem_of_here.
  - intros H. by apply list_elem_of_further, IH.
Qed.

Lemma elem_jm_get {K V} `{EqDecision K} (k : K) (v : V) (m : JsMap K V) :
  (k, v) ∈ m -> is_Some (jm_get k m).
Proof.
  induction m as [|[k0 v0] m IH]; simpl; [intros H; by apply elem_of_nil in H|].
  destruct (decide (k = k0)) as [->|Hne]; [eauto|].
  intros H. apply elem_of_cons in H as [E|H]; [congruence|by apply IH].
Qed.

Lemma room_thins_refl room : room_thins room room.
Proof. by split. Qed.

Lemma rooms_thin_refl rs : rooms_thin rs rs.
Proof. intros k room H. eauto using room_thins_refl. Qed.

Lemma rooms_thin_trans rs1 rs2 rs3 :
  rooms_thin rs1 rs2 -> rooms_thin rs2 rs3 -> rooms_thin rs1 rs3.
Proof.
  intros H12 H23 k room3 H3.
  destruct (H23 _ _ H3) as (room2 & H2 & O2 & U2).
  destruct (H12 _ _ H2) as (room1 & H1 & O1 & U1).
  exists room1. split; [done|]. split; [congruence|auto].
Qed.

Lemma rooms_thin_set rs k room room' :
  jm_get k rs = Some room -> room_thins room room' ->
  rooms_thin rs (jm_set k room' rs).
Proof.
  intros Hk Hs k' r'. rewrite jm_get_set.
  destruct (decide (k = k')) as [<-|]; [|eauto using room_thins_refl].
  intros [= <-]. eauto.
Qed.

Lemma rooms_thin_delete rs k : rooms_thin rs (jm_delete k rs).
Proof.
  intros k' r'. rewrite jm_get_delete.
  destruct (decide (k = k')); [done|eauto using room_thins_refl].
Qed.

Lemma members_flagged_thin rs rs' :
  rooms_thin rs rs' -> members_flagged rs -> members_flagged rs'.
Proof.
  intros Ht Hm rc room' s user Hroom' Hin.
  destruct (Ht _ _ Hroom') as (room & Hroom & Ho & Hu).
  destruct (Hm rc room s user Hroom (Hu _ Hin)) as [Hid Hflag].
  split; [done|]. by rewrite Ho.
Qed.

Lemma members_flagged_set rs k room :
  members_flagged rs ->
  (forall s user, (s, user) ∈ r_users room -> member_ok room s user) ->
  members_flagged (jm_set k room rs).
Proof.
  intros Hm Hroom rc room' s user. rewrite jm_get_set.
  destruct (decide (k = rc)) as [<-|]; [|apply Hm].
  intros [= <-]. apply Hroom.
Qed.

Lemma on_approve_screen_share_thin env sid sk requesterSocketId st :
  rooms_thin (rooms st)
    (rooms (on_approve_screen_share env sid sk requesterSocketId st).1).
Proof.
  unfold on_approve_screen_share.
  repeat case_match; simpl; try apply rooms_thin_refl.
  eapply rooms_thin_set; [done|]. by split.
Qed.

Lemma on_stop_screen_share_thin env sid sk st :
  rooms_thin (rooms st) (rooms (on_stop_screen_share env sid sk st).1).
Proof.
  unfold on_stop_screen_share.
  repeat case_match; simpl; try apply rooms_thin_refl.
  eapply rooms_thin_set; [done|]. by split.
Qed.

Lemma on_disconnect_thin v env sid sk st :
  rooms_thin (rooms st) (rooms (on_disconnect v env sid sk st).1).
Proof.
  unfold on_disconnect.
  set (st1 := set_connectionMonitor _ _).
  pose proof (disconnectCall_frame sid st1) as (R2 & _).
  destruct (disconnectCall sid st1) as [st2 out2]. simpl in R2.
  assert (R3 : rooms_thin (rooms st2) (rooms (disconnectScreenShare v sid sk st2).1)).
  { unfold disconnectScreenShare.
    repeat case_match; simpl; try apply rooms_thin_refl.
    eapply rooms_thin_set; [done|]. by split. }
  destruct (disconnectScreenShare v sid sk st2) as [st3 out3]. simpl in R3.
  assert (R4 : rooms_thin (rooms st3) (rooms (disconnectRoom env sid sk st3).1)).
  { unfold disconnectRoom.
    repeat case_match; simpl; try apply rooms_thin_refl;
      (eapply rooms_thin_set; [done|]; split; [done|]; simpl;
       intros x; apply elem_of_jm_delete). }
  destruct (disconnectRoom env sid sk st3) as [st4 out4]. simpl in *.
  rewrite R2 in R3. eapply rooms_thin_trans; eauto.
Qed.

Lemma startConnectionHealthCheck_thin v env st :
  rooms_thin (rooms st) (rooms (startConnectionHealthCheck v env st).1).
Proof.
  unfold startConnectionHealthCheck.
  apply (fold_left_keeps (healthCheckEntry v env)
           (fun acc => rooms_thin (rooms st) (rooms acc.1)));
    [|apply rooms_thin_refl].
  intros [s out] k HP. unfold healthCheckEntry.
  destruct (jm_get k (connectionMonitor s)) as [conn|]; [|done].
  destruct (timedOut (now env) conn); [|done].
  destruct (jm_get k (sockets s)) as [sk|]; [|done].
  pose proof (on_disconnect_thin v env k sk s) as R.
  destruct (on_disconnect v env k sk s) as [s1 out1]. simpl in *.
  eapply rooms_thin_trans; eauto.
Qed.

Lemma runTimeouts_thin v env st :
  rooms_thin (rooms st) (rooms (runTimeouts v env st)).
Proof.
  unfold runTimeouts.
  apply (fold_left_keeps (fun s t => emptyRoomTimeout v t.2 s)
           (fun s => rooms_thin (rooms st) (rooms s)));
    [|apply rooms_thin_refl].
  intros s [d k] HP. eapply rooms_thin_trans; [exact HP|]. simpl.
  destruct (emptyRoomTimeout_cases v s k) as [->|(r & _ & _ & -> & _)];
    [apply rooms_thin_refl|apply rooms_thin_delete].
Qed.

Lemma periodicCleanup_thin env st :
  rooms_thin (rooms st) (rooms (periodicCleanup env st)).
Proof.
  unfold periodicCleanup.
  apply (fold_left_keeps (cleanupRoom (now env))
           (fun s => rooms_thin (rooms st) (rooms s))).
  - intros s k HP. eapply rooms_thin_trans; [exact HP|].
    destruct (cleanupRoom_cases (now env) s k) as [->|(r & _ & _ & _ & -> & _)];
      [apply rooms_thin_refl|apply rooms_thin_delete].
  - apply (fold_left_keeps (cleanupRequest (now env))
             (fun s => rooms_thin (rooms st) (rooms s)));
      [|apply rooms_thin_refl].
    intros s k HP. by rewrite (proj1 (cleanupRequest_frame (now env) s k)).
Qed.

Lemma on_join_room_members_flagged env sid roomCode userName userPhoto password st :
  members_flagged (rooms st) ->
  members_flagged (rooms (on_join_room env sid roomCode userName userPhoto password st).1).
Proof.
  intros Hm.
  destruct (on_join_room_cases env sid roomCode userName userPhoto password st)
    as [->|(room & Hroom & -> & _)]; [done|].
  apply members_flagged_set; [done|]. simpl. intros s user Hin.
  apply elem_of_jm_set in Hin as [E|Hin].
  - injection E as -> ->. by split.
  - apply (Hm _ _ _ _ Hroom Hin).
Qed.

Lemma handle_members_flagged v env sid ev st st' out :
  handle v env sid ev st = Some (st', out) ->
  members_flagged (rooms st) -> members_flagged (rooms st').
Proof.
  unfold handle. intros Hh Hm.
  destruct (jm_get sid (sockets st)) as [sk|]; [|by simplify_eq].
  destruct ev; try destruct v; simplify_eq; try pin_state; simpl;
    rewrite ?on_message_rooms, ?on_edit_message_rooms, ?on_delete_message_rooms,
      ?on_message_reaction_rooms, ?on_message_seen_rooms,
      ?on_request_delete_music_frame;
    rewrite ?(proj1 (on_request_screen_share_frame _ _ _ _)),
      ?(proj1 (on_reject_screen_share_frame _ _ _ _ _)),
      ?(proj1 (on_upload_playlist_music_frame _ _ _ _ _ _ _)),
      ?(proj1 (on_confirm_delete_music_frame _ _ _ _ _)),
      ?(proj1 (on_start_call_frame _ _ _ _ _ _ _ _)),
      ?(proj1 (on_reject_call_frame _ _ _ _ _)),
      ?(proj1 (on_end_call_frame _ _ _ _ _)),
      ?(proj1 (refreshPing_frame _ _ _));
    try done;
    try (by apply on_join_room_members_flagged);
    try (eapply members_flagged_thin; [|exact Hm];
         solve [eauto using on_approve_screen_share_thin, on_stop_screen_share_thin,
                  on_disconnect_thin]).
  all: destruct (on_create_room_rooms _ _ _ _ _ _ _ _ _ Hh)
         as (roomCode & room & _ & -> & _ & Ho & Hu & _);
       apply members_flagged_set; [done|];
       intros s user; unfold member_ok; rewrite Hu, Ho; intros Hin;
       apply list_elem_of_singleton in Hin; injection Hin as -> ->;
       split; [done|]; simpl; symmetry; by apply bool_decide_eq_true.
Qed.

Lemma step_members_flagged v env i st st' out :
  step v env i st = Some (st', out) ->
  members_flagged (rooms st) -> members_flagged (rooms st').
Proof.
  destruct i; simpl; intros Hs Hm.
  - destruct (jm_has sid (sockets st)); simplify_eq; [done|]. by pin_state.
  - eapply handle_members_flagged; eauto.
  - simplify_eq. pin_state. by rewrite (proj1 (pingInterval_frame _ _ _)).
  - simplify_eq. pin_state.
    eapply members_flagged_thin; [apply startConnectionHealthCheck_thin|exact Hm].
  - destruct v; simplify_eq; [done|].
    eapply members_flagged_thin; [apply periodicCleanup_thin|exact Hm].
  - simplify_eq. eapply members_flagged_thin; [apply runTimeouts_thin|exact Hm].
Qed.

Lemma reachable_members_flagged v st : reachable v st -> members_flagged (rooms st).
Proof.
  induction 1 as [|st env i st' out Hr IH Hs].
  - intros rc room s user. done.
  - eapply step_members_flagged; eauto.
Qed.

(** The owner that [request-screen-share] finds in a room whose members are
    flagged as [members_flagged] says. *)
Lemma flagged_owner_search room :
  (forall s user, (s, user) ∈ r_users room -> member_ok room s user) ->
  jm_last_match (fun _ user => u_isOwner user) (r_users room)
  = if jm_has (r_owner room) (r_users room) then Some (r_owner room) else None.
Proof.
  intros Hm. destruct (jm_has _ _) eqn:Hhas.
  - apply jm_has_true in Hhas as [uo Huo].
    destruct (jm_last_match _ (r_users room)) as [t|] eqn:Hlast.
    + destruct (jm_last_match_Some _ _ _ Hlast) as (m1 & ut & m2 & Hsplit & Hp & _).
      assert (Hin : (t, ut) ∈ r_users room).
      { rewrite Hsplit. apply elem_of_app. right. apply list_elem_of_here. }
      destruct (Hm t ut Hin) as [_ Hflag]. rewrite Hp in Hflag.
      symmetry in Hflag. apply bool_decide_eq_true in Hflag. by rewrite Hflag.
    + pose proof (proj1 (jm_last_match_None _ _) Hlast _ _ (jm_get_elem _ _ _ Huo)) as Hf.
      simpl in Hf. destruct (Hm _ _ (jm_get_elem _ _ _ Huo)) as [_ Hflag].
      rewrite Hf in Hflag. symmetry in Hflag.
      by apply bool_decide_eq_false in Hflag.
  - apply jm_has_false in Hhas. apply jm_last_match_None. intros s user Hin.
    destruct (Hm s user Hin) as [_ Hflag]. rewrite Hflag.
    apply bool_decide_eq_false. intros <-.
    apply elem_jm_get in Hin as [? Hin]. congruence.
Qed.

(** X17.  In every reachable state a member of a room is stored under its
    own connection identity and carries the owner flag exactly when that
    identity is the owner recorded for the room; so at most one member of a
    room is flagged as owner. *)
Theorem only_the_recorded_owner_is_flagged
  (v : Revision) (st : State) (rc : string) (room : Room)
  (s : SocketId) (user : User) :
  reachable v st ->
  jm_get rc (rooms st) = Some room ->
  (s, user) ∈ r_users room ->
  u_id user = s /\ (u_isOwner user = true <-> r_owner room = s).
Proof.
  intros Hr Hroom Hin.
  destruct (reachable_members_flagged v st Hr rc room s user Hroom Hin) as [Hid Hflag].
  split; [done|]. rewrite Hflag. apply bool_decide_eq_true.
Qed.

Lemma only_the_recorded_owner_is_flagged_witness :
  u_id bob = "b"%string /\ (u_isOwner bob = true <-> "a"%string = "b"%string).
Proof.
  apply (only_the_recorded_owner_is_flagged ServerJs
           (state_after ServerJs three_in_a_room) "ABC123"
           (mkRoom "ABC123" "room" None "a"
              [("a", ann); ("b", bob); ("c", newUser "c" "Cy" None false)] None 1)).
  - apply (run_reachable ServerJs three_in_a_room init); [apply reachable_init|].
    vm_compute. reflexivity.
  - vm_compute. reflexivity.
  - apply list_elem_of_further, list_elem_of_here.
Defined.

(** X18.  A screen-share request needs the creator of the room: in a
    reachable state, [request-screen-share] from a room whose recorded owner
    is no longer a member records nothing and notifies nobody, and from a
    room whose owner is a member it files the request under the requester's
    identity, with the requester's name, room and the current time, and
    notifies the owner and nobody else. *)
Theorem screen_share_request_needs_the_room_creator
  (v : Revision) (env : Env) (sid : SocketId) (sk : Socket) (st : State)
  (rc : string) (u : User) (room : Room) :
  reachable v st ->
  inRoom sk = Some (rc, u) ->
  jm_get rc (rooms st) = Some room ->
  let requested := on_request_screen_share env sid sk st in
  (jm_get (r_owner room) (r_users room) = None -> requested = (st, []))
  /\ (is_Some (jm_get (r_owner room) (r_users room)) ->
      js_truthy (r_owner room) = true ->
      requested
      = (set_screenShareRequests
           (jm_set sid (mkRequest (u_userName u) sid rc (now env))
              (screenShareRequests st)) st,
         [(IoTo (r_owner room), screen_share_request (u_userName u) sid)])).
Proof.
  intros Hr Hin Hroom requested.
  pose proof (flagged_owner_search room
                (fun s user => reachable_members_flagged v st Hr rc room s user Hroom))
    as Hsearch.
  unfold requested, on_request_screen_share. rewrite Hin, Hroom, Hsearch.
  split.
  - intros Hgone. apply jm_has_false in Hgone. by rewrite Hgone.
  - intros Hthere Htruthy. apply jm_has_true in Hthere. by rewrite Hthere, Htruthy.
Qed.

Lemma screen_share_request_needs_the_room_creator_witness :
  let st := state_after ServerJs
              (three_in_a_room ++ [at_time 8 (Client "a" disconnect)]) in
  on_request_screen_share (mkEnv 9 []) "b" (mkSocket (Some bob) (Some "ABC123"%string)) st
  = (st, []).
Proof.
  intros st.
  apply (proj1 (screen_share_request_needs_the_room_creator ServerJs (mkEnv 9 []) "b"
                  (mkSocket (Some bob) (Some "ABC123"%string)) st "ABC123" bob
                  (mkRoom "ABC123" "room" None "a"
                     [("b", bob); ("c", newUser "c" "Cy" None false)] None 1)
                  ltac:(apply (run_reachable ServerJs
                                 (three_in_a_room ++ [at_time 8 (Client "a" disconnect)])
                                 init);
                        [apply reachable_init|vm_compute; reflexivity])
                  ltac:(vm_compute; reflexivity)
                  ltac:(vm_compute; reflexivity))).
  vm_compute. reflexivity.
Defined.

(** ** The request loop of the periodic cleanup *)

Lemma cleanupRequest_requests t st k sid :
  jm_get sid (screenShareRequests (cleanupRequest t st k))
  = if decide (k = sid) then keptRequest t (jm_get sid (screenShareRequests st))
    else jm_get sid (screenShareRequests st).
Proof.
  unfold cleanupRequest, keptRequest.
  destruct (decide (k = sid)) as [->|Hne].
  - destruct (jm_get sid (screenShareRequests st)) as [q|] eqn:Hq; [|by rewrite Hq].
    destruct (_ <? _); simpl; [apply jm_get_delete_eq|done].
  - destruct (jm_get k (screenShareRequests st)) as [q|]; [|done].
    destruct (_ <? _); simpl; [by rewrite jm_get_delete_ne|done].
Qed.

Lemma cleanupRoom_requests t st k :
  screenShareRequests (cleanupRoom t st k) = screenShareRequests st.
Proof. unfold cleanupRoom. by repeat case_match. Qed.

Lemma keptRequest_idem t request : keptRequest t (keptRequest t request) = keptRequest t request.
Proof.
  unfold keptRequest. destruct request as [q|]; [|done].
  destruct (_ <? _) eqn:E; [done|]. by rewrite E.
Qed.

(** X19.  The periodic cleanup of the second revision drops a pending
    screen-share request exactly when it is more than five minutes old:
    after the sweep a connection has the request it had before if that
    request is at most five minutes old, and none otherwise.  The sweep
    never adds or alters a request. *)
Theorem cleanup_drops_requests_older_than_five_minutes
  (env : Env) (st : State) (sid : SocketId) :
  jm_get sid (screenShareRequests (periodicCleanup env st))
  = match jm_get sid (screenShareRequests st) with
    | Some request =>
        if 5 * 60 * 1000 <? now env - q_timestamp request then None else Some request
    | None => None
    end.
Proof.
  change (jm_get sid (screenShareRequests (periodicCleanup env st))
          = keptRequest (now env) (jm_get sid (screenShareRequests st))).
  unfold periodicCleanup.
  set (st1 := fold_left (cleanupRequest (now env)) _ st).
  assert (H2 : screenShareRequests
                 (fold_left (cleanupRoom (now env)) (jm_keys (rooms st1)) st1)
               = screenShareRequests st1).
  { apply (fold_left_keeps (cleanupRoom (now env))
             (fun s => screenShareRequests s = screenShareRequests st1)); [|done].
    intros s k Hs. by rewrite cleanupRoom_requests. }
  rewrite H2. unfold st1.
  destruct (jm_get sid (screenShareRequests st)) as [q|] eqn:Hq.
  - apply (fold_left_visit (cleanupRequest (now env))
             (fun s => jm_get sid (screenShareRequests s) = Some q)
             (fun s => jm_get sid (screenShareRequests s)
                       = keptRequest (now env) (Some q))
             sid).
    + intros s k Hne HP. left. rewrite cleanupRequest_requests.
      by destruct (decide (k = sid)).
    + intros s k HQ. rewrite cleanupRequest_requests.
      destruct (decide (k = sid)); [|done]. rewrite HQ. apply keptRequest_idem.
    + intros s HP. rewrite cleanupRequest_requests.
      destruct (decide (sid = sid)); [|done]. by rewrite HP.
    + apply jm_get_keys. rewrite Hq. eauto.
    + done.
  - apply (fold_left_keeps (cleanupRequest (now env))
             (fun s => jm_get sid (screenShareRequests s) = None)); [|done].
    intros s k HP. rewrite cleanupRequest_requests.
    destruct (decide (k = sid)); [|done]. by rewrite HP.
Qed.

(** ** Heartbeat records and connected sockets *)

Lemma monitored_frame st st' :
  sockets st' = sockets st -> connectionMonitor st' = connectionMonitor st ->
  monitored st -> monitored st'.
Proof. intros Hs Hc Hm sid. rewrite Hs, Hc. apply Hm. Qed.

Lemma refreshPing_monitored t sid st : monitored st -> monitored (refreshPing t sid st).
Proof.
  intros Hm sid'. unfold refreshPing.
  destruct (jm_get sid (connectionMonitor st)) as [conn|] eqn:Hc; [|apply Hm].
  simpl. rewrite jm_get_set. specialize (Hm sid').
  destruct (decide (sid = sid')) as [<-|]; [|done].
  rewrite Hc in Hm. destruct (jm_get sid (sockets st)); [|done].
  destruct Hm as (_ & ? & ?). split; [eauto|]. done.
Qed.

Lemma on_connection_monitored env sid st :
  monitored st -> monitored (on_connection env sid st).1.
Proof.
  intros Hm sid'. simpl. rewrite !jm_get_set.
  destruct (decide (sid = sid')) as [<-|]; [|apply Hm].
  split; [eauto|]. split; [eauto|done].
Qed.

Lemma enter_room_monitored sid userName roomCode user st st3 :
  sockets st3 = jm_set sid (mkSocket (Some user) (Some roomCode)) (sockets st) ->
  connectionMonitor st3 = connectionMonitor st ->
  is_Some (jm_get sid (sockets st)) ->
  monitored st -> monitored (noteRoom sid userName roomCode st3).
Proof.
  intros Hs Hc [sk Hsk] Hm sid'. unfold noteRoom. simpl.
  rewrite Hs, Hc, !jm_get_set. specialize (Hm sid').
  destruct (decide (sid = sid')) as [<-|]; [|done].
  rewrite Hsk in Hm. destruct (jm_get sid (connectionMonitor st)) as [h|]; [|done].
  destruct Hm as (? & ? & ?). done.
Qed.

Lemma on_join_room_monitored env sid roomCode userName userPhoto password st :
  is_Some (jm_get sid (sockets st)) ->
  monitored st ->
  monitored (on_join_room env sid roomCode userName userPhoto password st).1.
Proof.
  intros Hsk Hm. unfold on_join_room.
  destruct (jm_get (toUpperCase roomCode) (rooms st)) as [room|]; [|done].
  destruct (match r_password room with Some _ => _ | None => _ end); [done|].
  simpl. by eapply enter_room_monitored with (st := st).
Qed.

Lemma on_create_room_monitored env sid userName userPhoto roomName password st st' out :
  on_create_room env sid userName userPhoto roomName password st = Some (st', out) ->
  is_Some (jm_get sid (sockets st)) ->
  monitored st -> monitored st'.
Proof.
  unfold on_create_room.
  destruct (pickRoomCode (rand env) (rooms st)) as [roomCode|]; [|done].
  intros [= <- <-] Hsk Hm. by eapply enter_room_monitored with (st := st).
Qed.

Lemma on_disconnect_monitored v env sid sk st :
  monitored st -> monitored (on_disconnect v env sid sk st).1.
Proof.
  intros Hm sid'.
  pose proof (on_disconnect_frame v env sid sk st) as (-> & -> & _).
  rewrite !jm_get_delete. destruct (decide (sid = sid')); [done|apply Hm].
Qed.

Lemma healthCheckEntry_monitored v env acc k :
  monitored acc.1 -> monitored (healthCheckEntry v env acc k).1.
Proof.
  destruct acc as [st out]. simpl. intros Hm. unfold healthCheckEntry.
  destruct (jm_get k (connectionMonitor st)) as [conn|] eqn:Hconn; [|done].
  destruct (timedOut (now env) conn); [|done].
  destruct (jm_get k (sockets st)) as [sk|] eqn:Hsk.
  - pose proof (on_disconnect_monitored v env k sk st Hm) as H.
    pose proof (on_disconnect_frame v env k sk st) as (_ & HS & _).
    destruct (on_disconnect v env k sk st) as [st1 out1]. simpl in *.
    intros sid'. specialize (H sid'). simpl. rewrite jm_get_delete.
    destruct (decide (k = sid')) as [<-|]; [|done].
    rewrite HS, jm_get_delete_eq in H. rewrite HS, jm_get_delete_eq.
    by destruct (jm_get k (connectionMonitor st1)).
  - pose proof (Hm k) as H. by rewrite Hsk, Hconn in H.
Qed.

Lemma handle_monitored v env sid ev st st' out :
  handle v env sid ev st = Some (st', out) -> monitored st -> monitored st'.
Proof.
  unfold handle. intros Hh Hm.
  destruct (jm_get sid (sockets st)) as [sk|] eqn:Hsk; [|by simplify_eq].
  assert (Hconn : is_Some (jm_get sid (sockets st))) by eauto.
  destruct ev; try destruct v; simplify_eq; try pin_state;
    eauto using on_create_room_monitored, on_join_room_monitored,
      on_disconnect_monitored;
    try (apply refreshPing_monitored; exact Hm);
    unfold_plain_handlers; unfold on_approve_screen_share, on_stop_screen_share;
    repeat case_match; exact Hm.
Qed.

Lemma step_monitored v env i st st' out :
  step v env i st = Some (st', out) -> monitored st -> monitored st'.
Proof.
  destruct i; simpl; intros Hs Hm.
  - destruct (jm_has sid (sockets st)); simplify_eq; [done|]. pin_state.
    by apply on_connection_monitored.
  - eapply handle_monitored; eauto.
  - simplify_eq. pin_state. unfold pingInterval.
    destruct (jm_has sid (sockets st)); [|done]. by apply refreshPing_monitored.
  - simplify_eq. pin_state. unfold startConnectionHealthCheck.
    apply (fold_left_keeps (healthCheckEntry v env) (fun acc => monitored acc.1));
      [|done].
    intros acc k. apply healthCheckEntry_monitored.
  - destruct v; simplify_eq; [done|]. unfold periodicCleanup.
    apply (fold_left_keeps (cleanupRoom (now env)) monitored).
    + intros s k. unfold cleanupRoom. by repeat case_match.
    + apply (fold_left_keeps (cleanupRequest (now env)) monitored); [|done].
      intros s k. unfold cleanupRequest. by repeat case_match.
  - simplify_eq. unfold runTimeouts.
    apply (fold_left_keeps (fun s t => emptyRoomTimeout v t.2 s) monitored); [|done].
    intros s t. unfold emptyRoomTimeout. by repeat case_match.
Qed.

Lemma reachable_monitored v st : reachable v st -> monitored st.
Proof.
  induction 1 as [|st env i st' out Hr IH Hs].
  - intros sid. done.
  - eapply step_monitored; eauto.
Qed.

(** X20.  In every reachable state the heartbeat records are those of the
    connected sockets: a socket is connected exactly when it has a record,
    and its record has the time of the last probe and of the connection set
    and names the room the socket last entered. *)
Theorem heartbeat_records_follow_the_sockets
  (v : Revision) (st : State) (sid : SocketId) :
  reachable v st ->
  (is_Some (jm_get sid (sockets st)) <-> is_Some (jm_get sid (connectionMonitor st)))
  /\ (forall sk h,
        jm_get sid (sockets st) = Some sk ->
        jm_get sid (connectionMonitor st) = Some h ->
        is_Some (h_lastPing h) /\ is_Some (h_connectedAt h)
        /\ h_roomCode h = currentRoomCode sk).
Proof.
  intros Hr. pose proof (reachable_monitored v st Hr sid) as Hm.
  destruct (jm_get sid (sockets st)) as [sk|],
    (jm_get sid (connectionMonitor st)) as [h|]; try done.
  split; [split; eauto|]. by intros sk' h' [= <-] [= <-].
Qed.

Lemma heartbeat_records_follow_the_sockets_witness :
  let st := state_after ServerJs three_in_a_room in
  is_Some (jm_get "b" (sockets st)) <-> is_Some (jm_get "b" (connectionMonitor st)).
Proof.
  intros st.
  apply (heartbeat_records_follow_the_sockets ServerJs st "b").
  apply (run_reachable ServerJs three_in_a_room init); [apply reachable_init|].
  vm_compute. reflexivity.
Defined.

(** ** Playlists *)

(** X21.  [request-delete-music] never changes the state.  It sends at most
    one notification: to a member of the caller's room who carries the
    target name, with the caller's name as the requester. *)
Theorem request_delete_music_only_notifies
  (env : Env) (sid : SocketId) (sk : Socket) (targetUserName : string) (st : State) :
  let asked := on_request_delete_music env sid sk targetUserName st in
  asked.1 = st
  /\ (asked.2 = []
      \/ exists rc u room target user,
           inRoom sk = Some (rc, u)
           /\ jm_get rc (rooms st) = Some room
           /\ (target, user) ∈ r_users room
           /\ u_userName user = targetUserName
           /\ asked.2 = [(IoTo target, music_delete_request (u_userName u))]).
Proof.
  intros asked. split; [apply on_request_delete_music_frame|].
  unfold asked, on_request_delete_music.
  destruct (inRoom sk) as [[rc u]|]; [|by left].
  destruct (jm_get rc (rooms st)) as [room|] eqn:Hroom; [|by left].
  destruct (jm_last_match _ (r_users room)) as [target|] eqn:Hlast; [|by left].
  destruct (js_truthy target); [|by left].
  destruct (jm_last_match_Some _ _ _ Hlast) as (m1 & user & m2 & Hsplit & Hp & _).
  apply bool_decide_eq_true in Hp.
  right. exists rc, u, room, target, user. repeat split; try done.
  rewrite Hsplit. apply elem_of_app. right. apply list_elem_of_here.
Qed.

(** X22.  An upload appends the new track to the list kept under the
    uploader's name, and a [confirm-delete-music] from the same connection
    then empties that list and no other: the lists of the other names in the
    room and the playlists of the other rooms are as they were before the
    upload. *)
Theorem confirm_delete_after_upload_empties_the_uploader_only
  (env env' : Env) (sid : SocketId) (sk : Socket)
  (musicData fileName requesterName : string) (fileSize : Z) (st : State)
  (rc : string) (u : User) :
  inRoom sk = Some (rc, u) ->
  let uploaded :=
    (on_upload_playlist_music env sid sk musicData fileName fileSize st).1 in
  let confirmed := (on_confirm_delete_music env' sid sk requesterName uploaded).1 in
  let lists (s : State) := default [] (jm_get rc (userPlaylists s)) in
  jm_get (u_userName u) (lists uploaded)
  = Some (default [] (jm_get (u_userName u) (lists st))
          ++ [mkTrack (freshId env) musicData fileName fileSize (u_userName u) (now env)])
  /\ jm_get (u_userName u) (lists confirmed) = Some []
  /\ (forall name, name <> u_userName u ->
        jm_get name (lists confirmed) = jm_get name (lists st))
  /\ (forall rc', rc' <> rc ->
        jm_get rc' (userPlaylists confirmed) = jm_get rc' (userPlaylists st)).
Proof.
  intros Hin uploaded confirmed lists.
  set (track := mkTrack (freshId env) musicData fileName fileSize (u_userName u) (now env)).
  set (roomPlaylist' :=
         jm_set (u_userName u)
           (default [] (jm_get (u_userName u) (lists st)) ++ [track]) (lists st)).
  assert (Hup : userPlaylists uploaded = jm_set rc roomPlaylist' (userPlaylists st)).
  { unfold uploaded, on_upload_playlist_music. rewrite Hin.
    by destruct (jm_get rc (rooms st)). }
  assert (Hconf : userPlaylists confirmed
                  = jm_set rc (jm_set (u_userName u) [] roomPlaylist')
                      (userPlaylists uploaded)).
  { unfold confirmed, on_confirm_delete_music. rewrite Hin, Hup, jm_get_set_eq.
    assert (Hhas : jm_has (u_userName u) roomPlaylist' = true).
    { apply jm_has_true. unfold roomPlaylist'. rewrite jm_get_set_eq. eauto. }
    rewrite Hhas. by destruct (jm_get rc (rooms uploaded)). }
  unfold lists at 1 3 4. rewrite Hconf, Hup, !jm_get_set_eq. simpl.
  split; [apply jm_get_set_eq|]. split; [apply jm_get_set_eq|].
  split.
  - intros name Hname. unfold roomPlaylist'. by rewrite !jm_get_set_ne.
  - intros rc' Hrc'. by rewrite !jm_get_set_ne.
Qed.

Lemma confirm_delete_after_upload_witness :
  let st := state_after ServerJs three_in_a_room in
  let sk := mkSocket (Some bob) (Some "ABC123"%string) in
  let uploaded := (on_upload_playlist_music (mkEnv 20 ["0.5x"]) "b" sk "data" "a.mp3" 7 st).1 in
  jm_get "Bob" (default [] (jm_get "ABC123"
                  (userPlaylists (on_confirm_delete_music (mkEnv 30 []) "b" sk "Ann"
                                    uploaded).1)))
  = Some [].
Proof.
  intros st sk uploaded.
  apply (confirm_delete_after_upload_empties_the_uploader_only
           (mkEnv 20 ["0.5x"]) (mkEnv 30 []) "b" sk "data" "a.mp3" "Ann" 7 st
           "ABC123" bob).
  vm_compute. reflexivity.
Defined.

(** ** The colour of a user *)

Lemma charCodeSum_app a b :
  charCodeSum (a +:+ b) = (charCodeSum a + charCodeSum b)%nat.
Proof. induction a as [|c a IH]; simpl; [done|]. rewrite IH. lia. Qed.

Lemma js_truthy_app a b : js_truthy (a +:+ b) = js_truthy a || js_truthy b.
Proof. destruct a; [|done]. simpl. by destruct b. Qed.

(** X23.  [generateUserColor] always answers with one of the five colours of
    its palette, and the colour of a name does not depend on the order of
    its parts: only the sum of the character codes counts. *)
Theorem user_colour_is_from_the_palette (a b : string) :
  generateUserColor a ∈ colors
  /\ generateUserColor (a +:+ b) = generateUserColor (b +:+ a).
Proof.
  split.
  - unfold generateUserColor.
    set (index := if js_truthy a then charCodeSum a else 0%nat).
    destruct (colors !! (index mod length colors)%nat) as [c|] eqn:Hc.
    + simpl. by eapply list_elem_of_lookup_2.
    + apply lookup_ge_None in Hc.
      pose proof (Nat.mod_upper_bound index (length colors)) as Hlt.
      simpl in *. lia.
  - unfold generateUserColor.
    rewrite !js_truthy_app, !charCodeSum_app, (orb_comm (js_truthy b)),
      (Nat.add_comm (charCodeSum b)).
    done.
Qed.

(** ** Stopping a screen share *)

(** X24.  [stop-screen-share] does not ask who calls: from any connection
    whose current room holds a grant it clears the grant, whoever holds it,
    and tells the room the name of the holder.  No other room changes, and a
    second stop finds nothing to do. *)
Theorem stop_screen_share_clears_any_grant
  (env : Env) (sid : SocketId) (sk : Socket) (st : State)
  (rc : string) (room : Room) (g : ScreenShareGrant) :
  currentRoomCode sk = Some rc ->
  js_truthy rc = true ->
  jm_get rc (rooms st) = Some room ->
  r_screenSharing room = Some g ->
  let stopped := on_stop_screen_share env sid sk st in
  jm_get rc (rooms stopped.1) = Some (setScreenSharing None room)
  /\ (forall k, k <> rc -> jm_get k (rooms stopped.1) = jm_get k (rooms st))
  /\ stopped.2 = [(IoTo rc, screen_share_stopped (Some (g_userName g)) None)]
  /\ on_stop_screen_share env sid sk stopped.1 = (stopped.1, []).
Proof.
  intros Hrc Htruthy Hroom Hg stopped.
  assert (E : stopped
              = (set_rooms (jm_set rc (setScreenSharing None room) (rooms st)) st,
                 [(IoTo rc, screen_share_stopped (Some (g_userName g)) None)])).
  { unfold stopped, on_stop_screen_share. by rewrite Hrc, Htruthy, Hroom, Hg. }
  rewrite E. simpl. split; [apply jm_get_set_eq|].
  split; [intros k Hk; by rewrite jm_get_set_ne|]. split; [done|].
  unfold on_stop_screen_share. rewrite Hrc, Htruthy. simpl.
  by rewrite jm_get_set_eq.
Qed.

Lemma stop_screen_share_clears_any_grant_witness :
  let st := state_after ServerJs
              (three_in_a_room
               ++ [at_time 4 (Client "b" request_screen_share);
                   at_time 5 (Client "a" (approve_screen_share "b"))]) in
  (on_stop_screen_share (mkEnv 6 []) "c"
     (mkSocket (Some (newUser "c" "Cy" None false)) (Some "ABC123"%string)) st).2
  = [(IoTo "ABC123", screen_share_stopped (Some "Bob"%string) None)].
Proof.
  intros st.
  apply (stop_screen_share_clears_any_grant (mkEnv 6 []) "c"
           (mkSocket (Some (newUser "c" "Cy" None false)) (Some "ABC123"%string)) st
           "ABC123"
           (mkRoom "ABC123" "room" None "a"
              [("a", ann); ("b", bob); ("c", newUser "c" "Cy" None false)]
              (Some (mkGrant "Bob" "b" 5)) 1)
           (mkGrant "Bob" "b" 5)); vm_compute; reflexivity.
Defined.

(** ** The shared video *)

Lemma inRoomAsOwner_Some sk rc u :
  inRoomAsOwner sk = Some (rc, u) -> inRoom sk = Some (rc, u) /\ u_isOwner u = true.
Proof.
  unfold inRoomAsOwner. destruct (inRoom sk) as [[rc' u']|]; [|done].
  destruct (u_isOwner u') eqn:E; [|done]. by intros [= <- <-].
Qed.

Lemma mergeControl_lookup controlData playbackState key :
  mergeControl controlData playbackState !! key
  = match controlData !! key with
    | Some value => Some value
    | None => playbackState !! key
    end.
Proof.
  unfold mergeControl. rewrite lookup_union.
  by destruct (controlData !! key), (playbackState !! key).
Qed.

(** X25.  Only the recorded owner of a room controls its video: in a
    reachable state, for a connected socket that is in a stored room without
    being its recorded owner, [video-control], [youtube-control] and
    [delete-video] leave the room as it is and send nothing, and
    [upload-video] leaves it as it is and answers the caller alone, with the
    not-allowed error. *)
Theorem only_the_recorded_owner_controls_the_video
  (v : Revision) (st : State) (env : Env) (sid : SocketId) (sk : Socket)
  (rc : string) (u : User) (room : Room)
  (controlData : gmap string JsValue)
  (videoBase64 : string) (title : option string) (found : option RoomMedia) :
  reachable v st ->
  jm_get sid (sockets st) = Some sk ->
  inRoom sk = Some (rc, u) ->
  jm_get rc (rooms st) = Some room ->
  r_owner room <> sid ->
  on_video_control sk controlData found = Some (found, [])
  /\ on_youtube_control sid sk controlData found = Some (found, [])
  /\ on_delete_video sk found = Some (found, [])
  /\ on_upload_video env sid sk videoBase64 title found
     = (found, [(SocketEmit sid, media_error NotAllowed)]).
Proof.
  intros Hr Hsk Hin Hroom Hother.
  destruct (reachable_owner_flag v st sid sk rc u room Hr Hsk Hin Hroom) as [_ Hflag].
  assert (Hno : inRoomAsOwner sk = None).
  { unfold inRoomAsOwner. rewrite Hin.
    destruct (u_isOwner u); [|done]. by destruct Hother, (proj1 Hflag). }
  unfold on_video_control, on_youtube_control, on_delete_video, on_upload_video.
  by rewrite Hno.
Qed.

Lemma only_the_recorded_owner_controls_the_video_witness :
  on_delete_video (mkSocket (Some bob) (Some "ABC123"%string))
    (Some (mkRoomMedia (Some (YouTubeVideo "dQw4w9WgXcQ" "u" "t" "Ann")) initialPlayback))
  = Some (Some (mkRoomMedia (Some (YouTubeVideo "dQw4w9WgXcQ" "u" "t" "Ann"))
                  initialPlayback), []).
Proof.
  apply (only_the_recorded_owner_controls_the_video ServerJs
           (state_after ServerJs three_in_a_room) (mkEnv 0 []) "b"
           (mkSocket (Some bob) (Some "ABC123"%string)) "ABC123" bob
           (mkRoom "ABC123" "room" None "a"
              [("a", ann); ("b", bob); ("c", newUser "c" "Cy" None false)] None 1)
           ∅ "" None).
  - apply (run_reachable ServerJs three_in_a_room init); [apply reachable_init|].
    vm_compute. reflexivity.
  - vm_compute. reflexivity.
  - vm_compute. reflexivity.
  - vm_compute. reflexivity.
  - vm_compute. discriminate.
Defined.

(** X26.  A playback control from the owner overrides the keys it names and
    keeps the others, and never touches the video.  Two controls in a row
    leave the state that their merge, the later one first, leaves in one
    step; so a control sent twice changes nothing the second time.  An
    upload keeps the playback state, and deleting the video puts the initial
    one back whatever the history. *)
Theorem playback_controls_merge
  (env : Env) (sid : SocketId) (sk : Socket) (c1 c2 : gmap string JsValue)
  (videoBase64 : string) (title : option string)
  (room : RoomMedia) (rc : string) (u : User) :
  inRoomAsOwner sk = Some (rc, u) ->
  let after (c : gmap string JsValue) (r : RoomMedia) :=
    mkRoomMedia (rm_video r) (mergeControl c (rm_playbackState r)) in
  on_video_control sk c1 (Some room)
  = Some (Some (after c1 room),
          [(IoTo rc, video_control_state (rm_playbackState (after c1 room)))])
  /\ on_youtube_control sid sk c1 (Some room)
     = Some (Some (after c1 room),
             [(SocketTo rc sid, youtube_control_state (rm_playbackState (after c1 room)))])
  /\ (forall key,
        rm_playbackState (after c1 room) !! key
        = match c1 !! key with
          | Some value => Some value
          | None => rm_playbackState room !! key
          end)
  /\ after c2 (after c1 room) = after (mergeControl c2 c1) room
  /\ after c1 (after c1 room) = after c1 room
  /\ (on_upload_video env sid sk videoBase64 title (Some (after c1 room))).1
     ≫= (fun r => Some (rm_playbackState r))
     = Some (rm_playbackState (after c1 room))
  /\ on_delete_video sk (Some (after c1 room))
     = Some (Some (mkRoomMedia None initialPlayback), [(IoTo rc, video_deleted)]).
Proof.
  intros Hown after.
  unfold on_video_control, on_youtube_control, on_upload_video, on_delete_video.
  rewrite Hown. split; [done|]. split; [done|].
  split; [intros key; apply mergeControl_lookup|].
  unfold after, mergeControl. simpl.
  split; [by rewrite (assoc_L (∪))|].
  split; [by rewrite (assoc_L (∪)), (idemp_L (∪))|]. done.
Qed.

Lemma playback_controls_merge_witness :
  let sk := mkSocket (Some ann) (Some "ABC123"%string) in
  let pause : gmap string JsValue := {[ "playing"%string := JsBool false ]} in
  on_video_control sk pause
    (Some (mkRoomMedia None
             {[ "playing"%string := JsBool true;
                "currentTime"%string := JsNumber (Number_of_Z 42) ]}))
  = Some (Some (mkRoomMedia None
                  (mergeControl pause
                     {[ "playing"%string := JsBool true;
                        "currentTime"%string := JsNumber (Number_of_Z 42) ]})),
          [(IoTo "ABC123",
            video_control_state
              (mergeControl pause
                 {[ "playing"%string := JsBool true;
                    "currentTime"%string := JsNumber (Number_of_Z 42) ]}))]).
Proof.
  intros sk pause.
  destruct (playback_controls_merge (mkEnv 0 []) "a" sk pause ∅ "" None
              (mkRoomMedia None
                 {[ "playing"%string := JsBool true;
                    "currentTime"%string := JsNumber (Number_of_Z 42) ]})
              "ABC123" ann) as (H & _).
  - vm_compute. reflexivity.
  - exact H.
Defined.

(** The room of a connected socket is found under the code the socket
    holds exactly when that code is in upper case. *)
Lemma reachable_room_found v st sid sk rc u :
  reachable v st ->
  jm_get sid (sockets st) = Some sk ->
  inRoom sk = Some (rc, u) ->
  is_Some (jm_get rc (rooms st)) <-> toUpperCase rc = rc.
Proof.
  intros Hr Hsk Hin.
  destruct (inRoom_Some _ _ _ Hin) as (Hrc & Hu & _).
  split.
  - intros [room Hroom]. by destruct (reachable_rooms_keyed v st Hr rc room Hroom).
  - intros Hup.
    destruct (reachable_sockets_in_rooms v st Hr sid sk Hsk u rc Hu Hrc)
      as (room & Hroom & _).
    rewrite Hup in Hroom. eauto.
Qed.

(** X27.  In a reachable state the handlers [video-control],
    [youtube-control] and [delete-video], called by a connected socket that
    carries the owner flag and entered its room under a code of ASCII
    characters, throw exactly when that code is not in upper case: the room
    was stored under the upper-cased code and is not found under the code
    the socket holds. *)
Theorem playback_control_throws_iff_the_code_is_not_upper_case
  (v : Revision) (st : State) (sid : SocketId) (sk : Socket)
  (rc : string) (u : User) (controlData : gmap string JsValue)
  (mediaOf : Room -> RoomMedia) :
  reachable v st ->
  jm_get sid (sockets st) = Some sk ->
  inRoomAsOwner sk = Some (rc, u) ->
  ascii_only rc = true ->
  let found := mediaOf <$> jm_get rc (rooms st) in
  (on_video_control sk controlData found = None <-> toUpperCase rc <> rc)
  /\ (on_youtube_control sid sk controlData found = None <-> toUpperCase rc <> rc)
  /\ (on_delete_video sk found = None <-> toUpperCase rc <> rc).
Proof.
  intros Hr Hsk Hown _ found.
  destruct (inRoomAsOwner_Some _ _ _ Hown) as [Hin _].
  pose proof (reachable_room_found v st sid sk rc u Hr Hsk Hin) as Hfound.
  unfold on_video_control, on_youtube_control, on_delete_video, found.
  rewrite Hown.
  destruct (jm_get rc (rooms st)) as [room|]; simpl.
  - assert (Hup : toUpperCase rc = rc) by (apply Hfound; eauto).
    repeat split; try done; intros H; by destruct H.
  - assert (Hup : toUpperCase rc <> rc).
    { intros Hup. apply Hfound in Hup. by destruct Hup. }
    repeat split; done.
Qed.

Lemma playback_control_throws_witness :
  let st := state_after ServerJs owner_rejoins_in_lower_case in
  let sk := mkSocket (Some ann) (Some "abc123"%string) in
  on_video_control sk ∅
    ((fun _ => mkRoomMedia None initialPlayback) <$> jm_get "abc123" (rooms st))
  = None.
Proof.
  intros st sk.
  apply (playback_control_throws_iff_the_code_is_not_upper_case ServerJs st "a" sk
           "abc123" ann ∅ (fun _ => mkRoomMedia None initialPlayback)).
  - apply (run_reachable ServerJs owner_rejoins_in_lower_case init);
      [apply reachable_init|]. vm_compute. reflexivity.
  - vm_compute. reflexivity.
  - vm_compute. reflexivity.
  - reflexivity.
  - vm_compute. discriminate.
Defined.
